(** * Jalashaya store: the public views of [jalashaya/store/views.py]

    A shallow embedding of the order-placement, contact, product-detail and
    product-quick-info views together with the pieces of Python and Django
    they rest on ([str.strip], [int], [decimal.Decimal], [uuid.UUID],
    [get_object_or_404], [transaction.atomic]), followed by the properties
    of the specification, each settled against the embedding.

    Conventions.
    - A Python [str] is a Rocq [string], one character per code point; the
      model covers the code points below 256.
    - A Python [int] is a [Z].
    - A finite [Decimal] is a sign, a coefficient and an exponent, as in the
      [decimal] module; arithmetic runs in the default context
      (28 digits, ROUND_HALF_EVEN, Emin = -999999, Emax = 999999, traps on
      InvalidOperation and Overflow).
    - A table is the list of its rows in insertion order; a query without
      an ordering returns the rows in that order.
    - A view body is a tree of database operations ([prog]); [run] executes
      one request to completion, [interleave] executes two requests under a
      schedule.  An exception that leaves a view is the result [inr e]; the
      framework turns [Http404] into the not-found response.

    Layout: the builtins, the schema, the effects, the views; then the
    vocabulary of the specification and sample data; then the supporting
    lemmas; then one theorem per property, C1 to C10. *)

From Stdlib Require Import ZArith NArith List String Ascii Bool Lia.
From Stdlib Require Import QArith Qround.
From Stdlib Require Import Permutation Sorted.
Import ListNotations.
Local Open Scope string_scope.
Local Open Scope Z_scope.

(* ================================================================== *)
(** * Python builtins *)

(** ** Exceptions raised by the views and by the libraries under them *)

Inductive exn : Type :=
| ValidationError (message : string)
| InvalidUUID (value : string)
    (* the ValidationError of UUIDField.to_python, code "invalid" *)
| Http404
| MultipleObjectsReturned
| NoReverseMatch (name : string)
| NameError (name : string)
| ValueError
| InvalidOperation
| Overflow.

(** [isinstance(e, ValidationError)] *)
Definition is_ValidationError (e : exn) : bool :=
  match e with
  | ValidationError _ | InvalidUUID _ => true
  | _ => false
  end.

(** A computation that returns or raises. *)
Definition result (A : Type) : Type := (A + exn)%type.

Definition ok {A} (a : A) : result A := inl a.
Definition throw {A} (e : exn) : result A := inr e.

Definition rbind {A B} (m : result A) (f : A -> result B) : result B :=
  match m with
  | inl a => f a
  | inr e => inr e
  end.

Notation "x <-? m ;; k" := (rbind m (fun x => k))
  (at level 61, m at next level, right associativity).

(** ** Characters and whitespace *)

Definition code (c : ascii) : N := N_of_ascii c.

(** [str.isspace] on the code points below 256: TAB, LF, VT, FF, CR,
    FS, GS, RS, US, SPACE, NEL and NBSP. *)
Definition isspace (c : ascii) : bool :=
  let n := code c in
  ((9 <=? n) && (n <=? 13) || (28 <=? n) && (n <=? 32)
   || (n =? 133) || (n =? 160))%N.

(** The whitespace [int] skips around a literal: C's [isspace] on ASCII
    (TAB..CR and SPACE), and the non-ASCII spaces NEL and NBSP, which the
    conversion of a [str] replaces by a space beforehand. *)
Definition int_isspace (c : ascii) : bool :=
  let n := code c in
  ((9 <=? n) && (n <=? 13) || (n =? 32) || (n =? 133) || (n =? 160))%N.

Fixpoint dropwhile {A} (f : A -> bool) (l : list A) : list A :=
  match l with
  | [] => []
  | x :: r => if f x then dropwhile f r else l
  end.

Definition lstrip_by (f : ascii -> bool) (l : list ascii) : list ascii :=
  dropwhile f l.

Definition rstrip_by (f : ascii -> bool) (l : list ascii) : list ascii :=
  rev (dropwhile f (rev l)).

Definition strip_by (f : ascii -> bool) (l : list ascii) : list ascii :=
  rstrip_by f (lstrip_by f l).

(** [s.strip()] *)
Definition strip (s : string) : string :=
  string_of_list_ascii (strip_by isspace (list_ascii_of_string s)).

(** [s.strip(chars)] *)
Definition strip_chars (chars : list ascii) (s : string) : string :=
  string_of_list_ascii
    (strip_by (fun c => existsb (Ascii.eqb c) chars) (list_ascii_of_string s)).

(** Truth value of a [str]: the empty string is false. *)
Definition truthy (s : string) : bool := negb (String.eqb s "").

(** [x or d] where [x] is [None] or a string. *)
Definition or_else (x : option string) (d : string) : string :=
  match x with
  | Some s => if truthy s then s else d
  | None => d
  end.

(** [x or None] where [x] is a string. *)
Definition or_None (s : string) : option string :=
  if truthy s then Some s else None.

(** [s.replace(old, "")] for a non-empty [old]: every occurrence found
    scanning from the left is removed. *)
Fixpoint remove_all_aux (fuel : nat) (old s : string) : string :=
  match fuel with
  | O => s
  | S fuel' =>
      match s with
      | EmptyString => EmptyString
      | String c r =>
          if prefix old s
          then remove_all_aux fuel'
                 old (substring (String.length old)
                        (String.length s - String.length old) s)
          else String c (remove_all_aux fuel' old r)
      end
  end.

Definition remove_all (old s : string) : string :=
  remove_all_aux (S (String.length s)) old s.

(** ** [int(s, base)] on a string

    After the surrounding whitespace: an optional sign, for base 16 an
    optional [0x] or [0X] followed by at most one underscore, then digits
    with single underscores between them.  A decimal literal of more than
    4300 digits is refused (the default limit on integer string
    conversion). *)

Definition digit_value (c : ascii) : N :=
  let n := code c in
  (if (48 <=? n) && (n <=? 57) then n - 48
   else if (97 <=? n) && (n <=? 122) then n - 87
   else if (65 <=? n) && (n <=? 90) then n - 55
   else 37)%N.

Definition is_underscore (c : ascii) : bool := Ascii.eqb c "_"%char.

(** Scans digits and underscores; [prev_us] tells whether the previous
    character was an underscore.  Returns the value and the number of
    digits read, or [None] on a stray character or a misplaced
    underscore. *)
Fixpoint scan_digits (base : N) (l : list ascii) (prev_us : bool)
         (acc : N) (ndig : nat) : option (N * nat) :=
  match l with
  | [] => if prev_us then None else Some (acc, ndig)
  | c :: r =>
      if is_underscore c then
        if prev_us then None else scan_digits base r true acc ndig
      else if (digit_value c <? base)%N then
        scan_digits base r false (acc * base + digit_value c)%N (S ndig)
      else None
  end.

Definition int_max_str_digits : nat := 4300.

Definition skip_base_prefix (base : N) (l : list ascii) : list ascii :=
  if (base =? 16)%N then
    match l with
    | c0 :: cx :: r =>
        if Ascii.eqb c0 "0"%char
           && (Ascii.eqb cx "x"%char || Ascii.eqb cx "X"%char)
        then match r with
             | u :: r' => if is_underscore u then r' else r
             | [] => r
             end
        else l
    | _ => l
    end
  else l.

Definition is_power_of_two_base (base : N) : bool :=
  ((base =? 2) || (base =? 4) || (base =? 8) || (base =? 16) || (base =? 32))%N.

Definition py_int (base : N) (s : string) : option Z :=
  let l := strip_by int_isspace (list_ascii_of_string s) in
  let '(neg, l1) :=
    match l with
    | c :: r =>
        if Ascii.eqb c "+"%char then (false, r)
        else if Ascii.eqb c "-"%char then (true, r)
        else (false, l)
    | [] => (false, l)
    end in
  let l2 := skip_base_prefix base l1 in
  match l2 with
  | [] => None
  | c :: _ =>
      if is_underscore c then None
      else
        match scan_digits base l2 false 0%N O with
        | Some (v, ndig) =>
            if negb (is_power_of_two_base base)
               && Nat.ltb int_max_str_digits ndig
            then None
            else Some (if neg then - Z.of_N v else Z.of_N v)
        | None => None
        end
  end.


(** [str(n)] for a non-negative integer, least significant digit first. *)
Fixpoint digits_le (fuel : nat) (n : N) : list N :=
  match fuel with
  | O => []
  | S fuel' =>
      (n mod 10)%N :: (if (n <? 10)%N then [] else digits_le fuel' (n / 10)%N)
  end.

Definition digits_of (n : N) : list N :=
  rev (digits_le (S (N.to_nat (N.size n))) n).

Definition digit_char (d : N) : ascii := ascii_of_N (48 + d).

Definition str_N (n : N) : string :=
  string_of_list_ascii (map digit_char (digits_of n)).

(** [str(z)] for an integer. *)
Definition str_Z (z : Z) : string :=
  if z <? 0 then "-" ++ str_N (Z.abs_N z) else str_N (Z.abs_N z).

(** The fields read by a [%+d] format. *)
Definition str_Z_signed (z : Z) : string :=
  if z <? 0 then str_Z z else "+" ++ str_N (Z.abs_N z).

(** [len(str(n))] *)
Definition ndigits (n : N) : Z := Z.of_nat (List.length (digits_of n)).

Fixpoint repeat_string (n : nat) (s : string) : string :=
  match n with
  | O => ""
  | S n' => s ++ repeat_string n' s
  end.

(* ================================================================== *)
(** * [decimal.Decimal] *)

(** A finite decimal: [(-1)^_sign * _int * 10^_exp]. *)
Record Decimal : Type := mkDecimal {
  _sign : bool;
  _int : N;
  _exp : Z
}.

(** The arithmetic context; the rounding mode is ROUND_HALF_EVEN and
    [clamp] is 0 throughout. *)
Record Context : Type := mkContext {
  prec : Z;
  Emin : Z;
  Emax : Z
}.

Definition getcontext : Context := mkContext 28 (-999999) 999999.

Definition Etiny (ctx : Context) : Z := Emin ctx - prec ctx + 1.
Definition Etop (ctx : Context) : Z := Emax ctx - prec ctx + 1.

(** [Decimal(n)] for an [int]. *)
Definition Decimal_of_int (n : Z) : Decimal :=
  mkDecimal (n <? 0) (Z.abs_N n) 0.

(** The literals of the views. *)
Definition Decimal_0_01 : Decimal := mkDecimal false 1 (-2).    (* Decimal("0.01") *)
Definition Decimal_0_00 : Decimal := mkDecimal false 0 (-2).    (* Decimal("0.00") *)
Definition Decimal_20_00 : Decimal := mkDecimal false 2000 (-2). (* Decimal("20.00") *)
Definition Decimal_200_00 : Decimal := mkDecimal false 20000 (-2). (* Decimal("200.00") *)

Definition is_zero (d : Decimal) : bool := (_int d =? 0)%N.

Definition adjusted (d : Decimal) : Z := _exp d + ndigits (_int d) - 1.

(** Keeping the leading digits of [c] and dropping the last [drop] ones:
    the kept coefficient ([self._int[:digits] or '0']) and the verdict of
    [_round_half_even]: 1 to round up, 0 when exact, -1 to round down. *)
Definition round_half_even_at (c : N) (drop : Z) : N * Z :=
  let p := (10 ^ Z.to_N drop)%N in
  let q := (c / p)%N in
  let r := (c mod p)%N in
  let changed :=
    if ((p <? 2 * r) || ((2 * r =? p) && N.odd q))%N then 1
    else if (r =? 0)%N then 0
    else -1 in
  (q, changed).

Definition _fix (ctx : Context) (d : Decimal) : result Decimal :=
  if is_zero d then
    ok (mkDecimal (_sign d) 0 (Z.min (Z.max (_exp d) (Etiny ctx)) (Emax ctx)))
  else
    let exp_min0 := ndigits (_int d) + _exp d - prec ctx in
    if exp_min0 >? Etop ctx then throw Overflow
    else
      let exp_min := if exp_min0 <? Etiny ctx then Etiny ctx else exp_min0 in
      if _exp d <? exp_min then
        let digits0 := ndigits (_int d) + _exp d - exp_min in
        let '(c, digits) :=
          if digits0 <? 0 then (1%N, 0) else (_int d, digits0) in
        let '(coeff, changed) := round_half_even_at c (ndigits c - digits) in
        let '(coeff', exp_min') :=
          if changed >? 0 then
            let c1 := (coeff + 1)%N in
            if ndigits c1 >? prec ctx then ((c1 / 10)%N, exp_min + 1)
            else (c1, exp_min)
          else (coeff, exp_min) in
        if exp_min' >? Etop ctx then throw Overflow
        else ok (mkDecimal (_sign d) coeff' exp_min')
      else ok d.

Definition _rescale (d : Decimal) (exp : Z) : Decimal :=
  if is_zero d then mkDecimal (_sign d) 0 exp
  else if _exp d >=? exp then
    mkDecimal (_sign d) (_int d * 10 ^ Z.to_N (_exp d - exp))%N exp
  else
    let digits0 := ndigits (_int d) + _exp d - exp in
    let '(c, digits) :=
      if digits0 <? 0 then (1%N, 0) else (_int d, digits0) in
    let '(coeff, changed) := round_half_even_at c (ndigits c - digits) in
    mkDecimal (_sign d) (if changed =? 1 then (coeff + 1)%N else coeff) exp.

(** [self * other] *)
Definition Decimal_mul (ctx : Context) (a b : Decimal) : result Decimal :=
  _fix ctx (mkDecimal (xorb (_sign a) (_sign b)) (_int a * _int b)%N
              (_exp a + _exp b)).

Definition _normalize (op1 op2 : Decimal) (prec : Z) : Decimal * Decimal :=
  let swap := _exp op1 <? _exp op2 in
  let tmp := if swap then op2 else op1 in
  let other := if swap then op1 else op2 in
  let exp := _exp tmp + Z.min (-1) (ndigits (_int tmp) - prec - 2) in
  let other' :=
    if ndigits (_int other) + _exp other - 1 <? exp
    then mkDecimal (_sign other) 1 exp else other in
  let tmp' :=
    mkDecimal (_sign tmp)
      (_int tmp * 10 ^ Z.to_N (_exp tmp - _exp other'))%N (_exp other') in
  if swap then (other', tmp') else (tmp', other').

(** [self + other] *)
Definition Decimal_add (ctx : Context) (a b : Decimal) : result Decimal :=
  let exp := Z.min (_exp a) (_exp b) in
  if is_zero a && is_zero b then
    _fix ctx (mkDecimal (_sign a && _sign b) 0 exp)
  else if is_zero a then
    _fix ctx (_rescale b (Z.max exp (_exp b - prec ctx - 1)))
  else if is_zero b then
    _fix ctx (_rescale a (Z.max exp (_exp a - prec ctx - 1)))
  else
    let '(op1, op2) := _normalize a b (prec ctx) in
    if negb (Bool.eqb (_sign op1) (_sign op2)) then
      if (_int op1 =? _int op2)%N then _fix ctx (mkDecimal false 0 exp)
      else
        let '(big, small) :=
          if (_int op1 <? _int op2)%N then (op2, op1) else (op1, op2) in
        _fix ctx (mkDecimal (_sign big) (_int big - _int small)%N (_exp big))
    else
      _fix ctx (mkDecimal (_sign op1) (_int op1 + _int op2)%N (_exp op1)).

(** [self.quantize(exp)] *)
Definition quantize (ctx : Context) (d exp : Decimal) : result Decimal :=
  if negb ((Etiny ctx <=? _exp exp) && (_exp exp <=? Emax ctx))
  then throw InvalidOperation
  else if is_zero d then _fix ctx (mkDecimal (_sign d) 0 (_exp exp))
  else if adjusted d >? Emax ctx then throw InvalidOperation
  else if adjusted d - _exp exp + 1 >? prec ctx then throw InvalidOperation
  else
    let ans := _rescale d (_exp exp) in
    if adjusted ans >? Emax ctx then throw InvalidOperation
    else if ndigits (_int ans) >? prec ctx then throw InvalidOperation
    else _fix ctx ans.

(** [(-1) ** sign] *)
Definition signum (sign : bool) : Z := if sign then -1 else 1.

Definition _cmp (a b : Decimal) : Z :=
  if is_zero a then
    if is_zero b then 0 else - signum (_sign b)
  else if is_zero b then signum (_sign a)
  else if negb (_sign b) && _sign a then -1
  else if negb (_sign a) && _sign b then 1
  else if adjusted a =? adjusted b then
    let self_padded := (_int a * 10 ^ Z.to_N (_exp a - _exp b))%N in
    let other_padded := (_int b * 10 ^ Z.to_N (_exp b - _exp a))%N in
    if (self_padded =? other_padded)%N then 0
    else if (self_padded <? other_padded)%N then - signum (_sign a)
    else signum (_sign a)
  else if adjusted a >? adjusted b then signum (_sign a)
  else - signum (_sign a).

(** [self < other] *)
Definition Decimal_lt (a b : Decimal) : bool := _cmp a b <? 0.

(** [str(self)] *)
Definition Decimal_str (d : Decimal) : string :=
  let sign := if _sign d then "-" else "" in
  let digits := str_N (_int d) in
  let len := ndigits (_int d) in
  let leftdigits := _exp d + len in
  let dotplace :=
    if (_exp d <=? 0) && (leftdigits >? -6) then leftdigits else 1 in
  let '(intpart, fracpart) :=
    if dotplace <=? 0 then
      ("0", "." ++ repeat_string (Z.to_nat (- dotplace)) "0" ++ digits)
    else if dotplace >=? len then
      (digits ++ repeat_string (Z.to_nat (dotplace - len)) "0", "")
    else
      (substring 0 (Z.to_nat dotplace) digits,
       "." ++ substring (Z.to_nat dotplace) (Z.to_nat (len - dotplace)) digits) in
  let exp :=
    if leftdigits =? dotplace then ""
    else "E" ++ str_Z_signed (leftdigits - dotplace) in
  sign ++ intpart ++ fracpart ++ exp.

(* ================================================================== *)
(** * [uuid.UUID] *)

(** [uuid.UUID(hex)]: the 128-bit integer of a string of 32 hexadecimal
    digits; [urn:], [uuid:], surrounding braces and hyphens are optional. *)
Definition UUID_of_hex (hex : string) : option Z :=
  let hex := remove_all "uuid:" (remove_all "urn:" hex) in
  let hex := remove_all "-" (strip_chars ["{"; "}"]%char hex) in
  if negb (Nat.eqb (String.length hex) 32) then None
  else
    match py_int 16 hex with
    | Some n => if (0 <=? n) && (n <? 2 ^ 128) then Some n else None
    | None => None
    end.

Definition hex_char (d : N) : ascii :=
  if (d <? 10)%N then ascii_of_N (48 + d) else ascii_of_N (87 + d).

(** ['%0<width>x' % n] for [n] below [16 ^ width]. *)
Fixpoint hex_fixed (width : nat) (n : N) : string :=
  match width with
  | O => ""
  | S w => hex_fixed w (n / 16)%N ++ String (hex_char (n mod 16)%N) ""
  end.

(** [str(u)] for a UUID. *)
Definition UUID_str (u : Z) : string :=
  let hex := hex_fixed 32 (Z.to_N u) in
  substring 0 8 hex ++ "-" ++ substring 8 4 hex ++ "-" ++ substring 12 4 hex
  ++ "-" ++ substring 16 4 hex ++ "-" ++ substring 20 12 hex.

(* ================================================================== *)
(** * The schema of [jalashaya/store/models.py]

    The rows keep every column the views read; the timestamps of
    [TimeStampedModel] and the generated identifier of an [Order] are left
    out. *)

Module Branch.
Record t : Type := mk {
  id : Z;
  state : Z;
  name : string;
  address : option string;
  phone : option string;
  is_active : bool
}.
End Branch.

Module Category.
Record t : Type := mk {
  id : Z;
  name : string;
  sort_order : Z;
  is_active : bool;
  slug : string
}.
End Category.

Module Product.
Record t : Type := mk {
  id : Z;                          (* UUIDField, primary key *)
  category : Z;                    (* ForeignKey(Category) *)
  name : string;
  sku : string;
  description : option string;
  price : Decimal;                 (* DecimalField(max_digits=10, decimal_places=2) *)
  track_inventory : bool;
  stock_qty : Z;                   (* PositiveIntegerField *)
  sort_order : Z;
  is_active : bool;
  slug : string;
  seo_title : option string;
  seo_description : option string;
  seo_keywords : option string;
  canonical_url : option string;
  no_index : bool
}.

Definition set_stock_qty (p : t) (q : Z) : t :=
  mk (id p) (category p) (name p) (sku p) (description p) (price p)
     (track_inventory p) q (sort_order p) (is_active p) (slug p)
     (seo_title p) (seo_description p) (seo_keywords p) (canonical_url p)
     (no_index p).
End Product.

Module ProductImage.
Record t : Type := mk {
  id : Z;
  product : Z;                     (* ForeignKey(Product) *)
  image_url : string;
  alt_text : option string;
  is_primary : bool
}.
End ProductImage.

Module Order.
Record t : Type := mk {
  customer_name : string;
  customer_email : string;
  customer_mobile : string;
  product : Z;
  branch : Z;
  quantity : Z;
  delivery_address : string;
  note : option string;
  status : string;
  subtotal : Decimal;
  delivery_fee : Decimal;
  total_amount : Decimal
}.
End Order.

Module ContactMessage.
Record t : Type := mk {
  name : string;
  email : string;
  subject : string;
  message : string
}.
End ContactMessage.

(** The database: each table is the list of its rows, oldest first. *)
Record Store : Type := mkStore {
  products : list Product.t;
  categories : list Category.t;
  branches : list Branch.t;
  product_images : list ProductImage.t;
  orders : list Order.t;
  contact_messages : list ContactMessage.t
}.

(** The statements that change the database. *)
Inductive write : Type :=
| InsertOrder (o : Order.t)
| InsertContactMessage (m : ContactMessage.t)
| UpdateStockQty (product_id : Z) (qty : Z).
    (* Product.objects.filter(id=product_id).update(stock_qty=F("stock_qty") - qty) *)

Definition apply_write (w : write) (s : Store) : Store :=
  match w with
  | InsertOrder o =>
      mkStore (products s) (categories s) (branches s) (product_images s)
              (orders s ++ [o]) (contact_messages s)
  | InsertContactMessage m =>
      mkStore (products s) (categories s) (branches s) (product_images s)
              (orders s) (contact_messages s ++ [m])
  | UpdateStockQty pid qty =>
      mkStore
        (map (fun p => if Product.id p =? pid
                       then Product.set_stock_qty p (Product.stock_qty p - qty)
                       else p) (products s))
        (categories s) (branches s) (product_images s)
        (orders s) (contact_messages s)
  end.

Definition apply_writes (log : list write) (s : Store) : Store :=
  fold_left (fun s w => apply_write w s) log s.

(* ================================================================== *)
(** * Requests, responses and the effects of a view *)

(** A [QueryDict]: the submitted [(key, value)] pairs in order. *)
Definition QueryDict : Type := list (string * string).

(** [d.get(key)]: the last value submitted for [key], else [None]. *)
Fixpoint QueryDict_get (key : string) (d : QueryDict) : option string :=
  match d with
  | [] => None
  | (k, v) :: r =>
      match QueryDict_get key r with
      | Some v' => Some v'
      | None => if String.eqb k key then Some v else None
      end
  end.

Record HttpRequest : Type := mkRequest {
  method : string;
  GET : QueryDict;
  POST : QueryDict;
  build_absolute_uri : string
}.

(** The values of the dictionaries handed to templates and to
    [JsonResponse]. *)
Inductive json : Type :=
| JNull
| JBool (b : bool)
| JInt (n : Z)
| JStr (s : string).

Inductive ctx_value : Type :=
| CtxProduct (p : Product.t) (primary_image : option string)
| CtxImages (l : list ProductImage.t)
| CtxDict (d : list (string * json)).

Inductive HttpResponse : Type :=
| render (template : string) (context : list (string * ctx_value))
| HttpResponseRedirect (url : string)
| JsonResponse (data : list (string * json)) (status : Z)
| HttpResponseNotAllowed (permitted_methods : list string).

(** The text handed to [messages.error] or [messages.success]: a literal,
    or [str(e)] of a caught exception. *)
Inductive message_text : Type :=
| Text (s : string)
| StrOf (e : exn).

Inductive level : Type := SUCCESS | ERROR.

Definition flash_message : Type := (level * message_text)%type.

(** A view body: a tree of database operations, flash notices and
    transaction brackets, ending in a value or an exception. *)
Inductive prog (A : Type) : Type :=
| Ret (a : A)
| Raise (e : exn)
| Query {X : Type} (q : Store -> X) (k : X -> prog A)
| Exec (w : write) (k : prog A)
| Notify (m : flash_message) (k : prog A)
| Begin (k : prog A)
| Commit (k : prog A)
| Rollback (k : prog A).

Arguments Ret {A} a.
Arguments Raise {A} e.
Arguments Query {A X} q k.
Arguments Exec {A} w k.
Arguments Notify {A} m k.
Arguments Begin {A} k.
Arguments Commit {A} k.
Arguments Rollback {A} k.

Fixpoint bind {A B} (p : prog A) (f : A -> prog B) : prog B :=
  match p with
  | Ret a => f a
  | Raise e => Raise e
  | Query q k => Query q (fun x => bind (k x) f)
  | Exec w k => Exec w (bind k f)
  | Notify m k => Notify m (bind k f)
  | Begin k => Begin (bind k f)
  | Commit k => Commit (bind k f)
  | Rollback k => Rollback (bind k f)
  end.

Notation "x <- m ;; k" := (bind m (fun x => k))
  (at level 61, m at next level, right associativity).
Notation "m ;;; k" := (bind m (fun _ => k))
  (at level 61, right associativity).

(** [try: p except Exception as e: h e] *)
Fixpoint try_except {A} (p : prog A) (h : exn -> prog A) : prog A :=
  match p with
  | Ret a => Ret a
  | Raise e => h e
  | Query q k => Query q (fun x => try_except (k x) h)
  | Exec w k => Exec w (try_except k h)
  | Notify m k => Notify m (try_except k h)
  | Begin k => Begin (try_except k h)
  | Commit k => Commit (try_except k h)
  | Rollback k => Rollback (try_except k h)
  end.

(** Leaving an [atomic] block: commit on a normal exit, roll back when an
    exception escapes. *)
Fixpoint on_exit {A} (p : prog A) : prog A :=
  match p with
  | Ret a => Commit (Ret a)
  | Raise e => Rollback (Raise e)
  | Query q k => Query q (fun x => on_exit (k x))
  | Exec w k => Exec w (on_exit k)
  | Notify m k => Notify m (on_exit k)
  | Begin k => Begin (on_exit k)
  | Commit k => Commit (on_exit k)
  | Rollback k => Rollback (on_exit k)
  end.

(** [@transaction.atomic] *)
Definition transaction_atomic {A} (view : HttpRequest -> prog A)
  : HttpRequest -> prog A :=
  fun request => Begin (on_exit (view request)).

(** [@require_http_methods(methods)] *)
Definition require_http_methods (methods : list string)
           (view : HttpRequest -> prog HttpResponse)
  : HttpRequest -> prog HttpResponse :=
  fun request =>
    if existsb (String.eqb (method request)) methods
    then view request
    else Ret (HttpResponseNotAllowed methods).

Definition require_GET := require_http_methods ["GET"].

Definition lift {A} (r : result A) : prog A :=
  match r with
  | inl a => Ret a
  | inr e => Raise e
  end.

(** [if cond: raise e] *)
Definition raise_if (cond : bool) (e : exn) : prog unit :=
  if cond then Raise e else Ret tt.

(** A read of the database. *)
Definition query {X} (q : Store -> X) : prog X := Query q Ret.

Definition messages_error (t : message_text) : prog unit :=
  Notify (ERROR, t) (Ret tt).

Definition messages_success (t : message_text) : prog unit :=
  Notify (SUCCESS, t) (Ret tt).

(** ** Running one request

    The state of a request in flight: the writes of its open [atomic]
    blocks (innermost first), not yet visible to anyone else, and the flash
    notices it has queued. *)
Record Local : Type := mkLocal {
  pending : list (list write);
  flash : list flash_message
}.

Definition idle : Local := mkLocal [] [].

(** What the request reads: the committed rows and its own pending
    writes on top. *)
Definition view_of (l : Local) (s : Store) : Store :=
  fold_right apply_writes s (pending l).

(** One operation of a request. *)
Definition step {A} (p : prog A) (l : Local) (s : Store)
  : prog A * Local * Store :=
  match p with
  | Ret _ | Raise _ => (p, l, s)
  | Query q k => (k (q (view_of l s)), l, s)
  | Exec w k =>
      match pending l with
      | [] => (k, l, apply_write w s)
      | log :: outer => (k, mkLocal ((log ++ [w])%list :: outer) (flash l), s)
      end
  | Notify m k => (k, mkLocal (pending l) (flash l ++ [m])%list, s)
  | Begin k => (k, mkLocal ([] :: pending l) (flash l), s)
  | Commit k =>
      match pending l with
      | [] => (k, l, s)
      | [log] => (k, mkLocal [] (flash l), apply_writes log s)
      | log :: parent :: outer =>
          (k, mkLocal ((parent ++ log)%list :: outer) (flash l), s)
      end
  | Rollback k => (k, mkLocal (tl (pending l)) (flash l), s)
  end.

(** A request run to completion with nothing else in between. *)
Fixpoint run {A} (p : prog A) (l : Local) (s : Store)
  : result A * Local * Store :=
  match p with
  | Ret a => (inl a, l, s)
  | Raise e => (inr e, l, s)
  | Query q k => run (k (q (view_of l s))) l s
  | Exec w k =>
      match pending l with
      | [] => run k l (apply_write w s)
      | log :: outer => run k (mkLocal ((log ++ [w])%list :: outer) (flash l)) s
      end
  | Notify m k => run k (mkLocal (pending l) (flash l ++ [m])%list) s
  | Begin k => run k (mkLocal ([] :: pending l) (flash l)) s
  | Commit k =>
      match pending l with
      | [] => run k l s
      | [log] => run k (mkLocal [] (flash l)) (apply_writes log s)
      | log :: parent :: outer =>
          run k (mkLocal ((parent ++ log)%list :: outer) (flash l)) s
      end
  | Rollback k => run k (mkLocal (tl (pending l)) (flash l)) s
  end.

(** ** Running two requests under a schedule

    Each entry of the schedule picks the request that performs its next
    operation ([true] for the first); a finished request idles.  When the
    schedule is used up the first request is run to completion, then the
    second. *)
Record Thread (A : Type) : Type := mkThread {
  code_of : prog A;
  local_of : Local
}.
Arguments mkThread {A} _ _.
Arguments code_of {A} _.
Arguments local_of {A} _.

Definition step_thread {A} (t : Thread A) (s : Store) : Thread A * Store :=
  let '(p, l, s') := step (code_of t) (local_of t) s in
  (mkThread p l, s').

Fixpoint interleave {A} (schedule : list bool) (t1 t2 : Thread A) (s : Store)
  : Thread A * Thread A * Store :=
  match schedule with
  | [] => (t1, t2, s)
  | true :: rest =>
      let '(t1', s') := step_thread t1 s in interleave rest t1' t2 s'
  | false :: rest =>
      let '(t2', s') := step_thread t2 s in interleave rest t1 t2' s'
  end.

(** Both requests run to completion, the first one first. *)
Definition finish {A} (t1 t2 : Thread A) (s : Store)
  : (result A * Local) * (result A * Local) * Store :=
  let '(r1, l1, s2) := run (code_of t1) (local_of t1) s in
  let '(r2, l2, s3) := run (code_of t2) (local_of t2) s2 in
  ((r1, l1), (r2, l2), s3).

Definition run_both {A} (schedule : list bool) (p1 p2 : prog A) (s : Store)
  : (result A * Local) * (result A * Local) * Store :=
  let '(t1, t2, s1) :=
    interleave schedule (mkThread p1 idle) (mkThread p2 idle) s in
  finish t1 t2 s1.

(* ================================================================== *)
(** * The ORM calls of the views *)

(** [Model.objects.get]: exactly one row, else an exception;
    [get_object_or_404] turns [DoesNotExist] into [Http404]. *)
Definition get_or_404 {A} (rows : list A) : result A :=
  match rows with
  | [] => throw Http404
  | [x] => ok x
  | _ :: _ :: _ => throw MultipleObjectsReturned
  end.

(** The rows selected by [id=u, is_active=True]. *)
Definition active_products_with_id (u : Z) (s : Store) : list Product.t :=
  filter (fun p => (Product.id p =? u) && Product.is_active p) (products s).

Definition active_branches_with_id (n : Z) (s : Store) : list Branch.t :=
  filter (fun b => (Branch.id b =? n) && Branch.is_active b) (branches s).

(** [get_object_or_404(Product, id=product_id, is_active=True)].  The
    primary key is a [UUIDField]: the value is converted with [uuid.UUID]
    before any query, and a string that is not a UUID raises the field's
    [ValidationError]; [id=None] matches no row. *)
Definition Product_get_by_id (product_id : option string) : prog Product.t :=
  match product_id with
  | None => rows <- query (fun _ => @nil Product.t) ;; lift (get_or_404 rows)
  | Some v =>
      match UUID_of_hex v with
      | None => Raise (InvalidUUID v)
      | Some u =>
          rows <- query (active_products_with_id u) ;; lift (get_or_404 rows)
      end
  end.

(** [get_object_or_404(Branch, id=branch_id, is_active=True)].  The
    primary key is an integer column: the value is converted with [int],
    whose [ValueError] is raised again. *)
Definition Branch_get_by_id (branch_id : option string) : prog Branch.t :=
  match branch_id with
  | None => rows <- query (fun _ => @nil Branch.t) ;; lift (get_or_404 rows)
  | Some v =>
      match py_int 10 v with
      | None => Raise ValueError
      | Some n =>
          rows <- query (active_branches_with_id n) ;; lift (get_or_404 rows)
      end
  end.

(** [category__is_active=True]: the row of the product's category is
    active. *)
Definition category_is_active (s : Store) (p : Product.t) : bool :=
  existsb (fun c => (Category.id c =? Product.category p) && Category.is_active c)
          (categories s).

(** [get_object_or_404(Product, slug=slug, is_active=True,
    category__is_active=True)] *)
Definition visible_products_with_slug (slug : string) (s : Store)
  : list Product.t :=
  filter (fun p => String.eqb (Product.slug p) slug
                   && Product.is_active p
                   && category_is_active s p)
         (products s).

Definition Product_get_by_slug (slug : string) : prog Product.t :=
  rows <- query (visible_products_with_slug slug) ;; lift (get_or_404 rows).

(** [product.images.all()]: the image rows of a product.  [ProductImage]
    declares no ordering, so the rows come as the table holds them. *)
Definition images_of (s : Store) (product_id : Z) : list ProductImage.t :=
  filter (fun i => ProductImage.product i =? product_id) (product_images s).

(** The key order of [order_by("-is_primary", "id")]. *)
Definition primary_then_id (a b : ProductImage.t) : bool :=
  if ProductImage.is_primary a && negb (ProductImage.is_primary b) then true
  else if ProductImage.is_primary b && negb (ProductImage.is_primary a) then false
  else ProductImage.id a <=? ProductImage.id b.

Fixpoint insert_by {A} (le : A -> A -> bool) (x : A) (l : list A) : list A :=
  match l with
  | [] => [x]
  | y :: r => if le x y then x :: l else y :: insert_by le x r
  end.

Fixpoint sort_by {A} (le : A -> A -> bool) (l : list A) : list A :=
  match l with
  | [] => []
  | x :: r => insert_by le x (sort_by le r)
  end.

(** [qs.order_by("-is_primary", "id")] *)
Definition order_by_primary_id (l : list ProductImage.t) : list ProductImage.t :=
  sort_by primary_then_id l.

(** The attribute set by
    [Prefetch("images", queryset=ProductImage.objects.order_by("-is_primary", "id"),
    to_attr="images_all")] in [home], [services] and [category_detail]. *)
Definition prefetch_images_all (s : Store) (p : Product.t)
  : list ProductImage.t :=
  order_by_primary_id (images_of s (Product.id p)).

(** A [Product] instance in a view: its row and, when prefetched, the
    attribute [images_all]. *)
Record ProductObj : Type := mkProductObj {
  row : Product.t;
  images_all : option (list ProductImage.t)
}.

(** As [DecimalField] does on save: the value is quantized to
    [decimal_places] in a context of [max_digits] digits, which raises
    when it does not fit the column. *)
Definition adapt_decimalfield_value (value : Decimal)
           (max_digits decimal_places : Z) : result Decimal :=
  quantize (mkContext max_digits (Emin getcontext) (Emax getcontext))
           value (mkDecimal false 1 (- decimal_places)).

(** [Order.objects.create(...)] *)
Definition Order_objects_create (o : Order.t) : prog Order.t :=
  subtotal <- lift (adapt_decimalfield_value (Order.subtotal o) 10 2) ;;
  delivery_fee <- lift (adapt_decimalfield_value (Order.delivery_fee o) 10 2) ;;
  total_amount <- lift (adapt_decimalfield_value (Order.total_amount o) 10 2) ;;
  let saved :=
    Order.mk (Order.customer_name o) (Order.customer_email o)
             (Order.customer_mobile o) (Order.product o) (Order.branch o)
             (Order.quantity o) (Order.delivery_address o) (Order.note o)
             (Order.status o) subtotal delivery_fee total_amount in
  Exec (InsertOrder saved) (Ret saved).

(** [ContactMessage.objects.create(...)] *)
Definition ContactMessage_objects_create (m : ContactMessage.t)
  : prog ContactMessage.t :=
  Exec (InsertContactMessage m) (Ret m).

(** The routes of [jalashaya/store/urls.py], by name. *)
Definition urlpatterns : list (string * string) :=
  [ ("home", "");
    ("services", "services/");
    ("contact", "contact/");
    ("contact_submit", "contact/submit/");
    ("category_detail", "category/<slug:slug>/");
    ("product_detail", "product/<slug:slug>/");
    ("create_order", "order/create/");
    ("branches_by_state", "ajax/branches/");
    ("product_quick_info", "ajax/product-info/") ].

(** Modelled from the spec: the project URLconf, which is not among the
    sources, mounts the routes of the store at the site root (the
    specification lists [/services/], [/contact/], [/order/create/]). *)
Definition mount_point : string := "/".

(** [reverse(name)] for a route without arguments. *)
Definition reverse (name : string) : prog string :=
  match find (fun r => String.eqb (fst r) name) urlpatterns with
  | Some (_, route) => Ret (mount_point ++ route)
  | None => Raise (NoReverseMatch name)
  end.

(** [redirect(reverse(name))] *)
Definition redirect_reverse (name : string) : prog HttpResponse :=
  url <- reverse name ;; Ret (HttpResponseRedirect url).

(* ================================================================== *)
(** * [jalashaya/store/views.py] *)

(** The names bound at module level in [views.py]: its imports and its
    functions. *)
Definition views_globals : list string :=
  [ "render"; "Decimal"; "messages"; "ValidationError"; "transaction";
    "Prefetch"; "JsonResponse"; "Http404"; "get_object_or_404"; "redirect";
    "reverse"; "require_GET"; "require_http_methods";
    "Branch"; "Category"; "ContactMessage"; "Order"; "Product";
    "ProductImage"; "State";
    "_get_primary_image"; "_calc_totals"; "home"; "services";
    "category_detail"; "product_detail"; "contact_page"; "create_order";
    "contact_submit"; "branches_by_state"; "product_quick_info" ].

(** Evaluating a global name in [views.py]: a name the module does not
    bind (and that is no builtin) raises [NameError]. *)
Definition global_name (name : string) : prog unit :=
  if existsb (String.eqb name) views_globals then Ret tt
  else Raise (NameError name).

(** Returns primary image url if exists else first image url else None *)
Definition _get_primary_image (product : ProductObj)
  : prog (option string) :=
  imgs <- match images_all product with
          | Some (i :: l) => Ret (i :: l)
          | Some [] | None =>
              query (fun s => images_of s (Product.id (row product)))
          end ;;
  match find ProductImage.is_primary imgs with
  | Some primary => Ret (Some (ProductImage.image_url primary))
  | None =>
      match imgs with
      | first :: _ => Ret (Some (ProductImage.image_url first))
      | [] => Ret None
      end
  end.

(** subtotal, delivery_fee, total *)
Definition _calc_totals (product : Product.t) (qty : Z)
  : result (Decimal * Decimal * Decimal) :=
  let qty := Z.max qty 1 in
  exact <-? Decimal_mul getcontext (Product.price product) (Decimal_of_int qty) ;;
  subtotal <-? quantize getcontext exact Decimal_0_01 ;;
  let delivery_fee :=
    if Decimal_lt subtotal Decimal_200_00 then Decimal_20_00
    else Decimal_0_00 in
  sum <-? Decimal_add getcontext subtotal delivery_fee ;;
  total <-? quantize getcontext sum Decimal_0_01 ;;
  ok (subtotal, delivery_fee, total).

(** SEO product page: /product/<slug>/ *)
Definition product_detail_body (slug : string) (request : HttpRequest)
  : prog HttpResponse :=
  product <- Product_get_by_slug slug ;;
  images <- query (fun s =>
              order_by_primary_id (images_of s (Product.id product))) ;;
  primary_image <- _get_primary_image (mkProductObj product None) ;;
  let seo :=
    [ ("title", JStr (or_else (Product.seo_title product) (Product.name product)));
      ("description",
       JStr (or_else (Product.seo_description product)
               (match Product.description product with
                | Some d => if truthy d then substring 0 160 d else ""
                | None => ""
                end)));
      ("keywords", JStr (or_else (Product.seo_keywords product) ""));
      ("no_index", JBool (Product.no_index product));
      ("canonical",
       JStr (or_else (Product.canonical_url product)
               (build_absolute_uri request))) ] in
  Ret (render "pages/product_detail.html"
         [ ("product", CtxProduct product primary_image);
           ("images", CtxImages images);
           ("seo", CtxDict seo) ]).

Definition product_detail (slug : string) : HttpRequest -> prog HttpResponse :=
  require_GET (product_detail_body slug).

(** [int(request.POST.get("quantity") or 1)] *)
Definition int_quantity (x : option string) : result Z :=
  match x with
  | Some s =>
      if truthy s then
        match py_int 10 s with
        | Some n => ok n
        | None => throw ValueError
        end
      else ok 1
  | None => ok 1
  end.

(** Create order from modal form (POST). *)
Definition create_order_body (request : HttpRequest) : prog HttpResponse :=
  try_except
    (let product_id := QueryDict_get "product_id" (POST request) in
     let branch_id := QueryDict_get "branch_id" (POST request) in
     qty <- lift (int_quantity (QueryDict_get "quantity" (POST request))) ;;

     let customer_name :=
       strip (or_else (QueryDict_get "customer_name" (POST request)) "") in
     let customer_email :=
       strip (or_else (QueryDict_get "customer_email" (POST request)) "") in
     let customer_mobile :=
       strip (or_else (QueryDict_get "customer_mobile" (POST request)) "") in
     let delivery_address :=
       strip (or_else (QueryDict_get "delivery_address" (POST request)) "") in
     let note := strip (or_else (QueryDict_get "note" (POST request)) "") in

     raise_if (negb (truthy customer_name))
       (ValidationError "Customer name is required.") ;;;
     raise_if (negb (truthy customer_email))
       (ValidationError "Email is required.") ;;;
     raise_if (negb (truthy customer_mobile))
       (ValidationError "Mobile is required.") ;;;
     raise_if (negb (truthy delivery_address))
       (ValidationError "Delivery address is required.") ;;;

     product <- Product_get_by_id product_id ;;
     branch <- Branch_get_by_id branch_id ;;

     let qty := if qty <? 1 then 1 else qty in

     (* Inventory check *)
     raise_if (Product.track_inventory product
               && (Product.stock_qty product <? qty))
       (ValidationError "Not enough stock available.") ;;;

     totals <- lift (_calc_totals product qty) ;;
     let '(subtotal, delivery_fee, total) := totals in

     Order_objects_create
       (Order.mk customer_name customer_email customer_mobile
                 (Product.id product) (Branch.id branch) qty
                 delivery_address (or_None note) "pending"
                 subtotal delivery_fee total) ;;;

     (* Reduce stock (if tracked) *)
     (if Product.track_inventory product then
        global_name "models" ;;;
        Exec (UpdateStockQty (Product.id product) qty) (Ret tt)
      else Ret tt) ;;;

     messages_success (Text "Order placed successfully!") ;;;
     redirect_reverse "services")
    (fun e =>
       if is_ValidationError e then
         messages_error (StrOf e) ;;;
         redirect_reverse "services"
       else
         messages_error (Text "Something went wrong while placing the order.") ;;;
         redirect_reverse "services").

Definition create_order : HttpRequest -> prog HttpResponse :=
  require_http_methods ["POST"] (transaction_atomic create_order_body).

(** Contact page POST submit *)
Definition contact_submit_body (request : HttpRequest) : prog HttpResponse :=
  let name := strip (or_else (QueryDict_get "name" (POST request)) "") in
  let email := strip (or_else (QueryDict_get "email" (POST request)) "") in
  let subject := strip (or_else (QueryDict_get "subject" (POST request)) "") in
  let message_text :=
    strip (or_else (QueryDict_get "message" (POST request)) "") in
  if negb (truthy name) || negb (truthy email) || negb (truthy subject)
     || negb (truthy message_text)
  then
    messages_error (Text "All fields are required.") ;;;
    redirect_reverse "contact"
  else
    ContactMessage_objects_create
      (ContactMessage.mk name email subject message_text) ;;;
    messages_success (Text "Thanks! We received your message.") ;;;
    redirect_reverse "contact".

Definition contact_submit : HttpRequest -> prog HttpResponse :=
  require_http_methods ["POST"] contact_submit_body.

(** /ajax/product-info/?product_id=<uuid> *)
Definition product_quick_info_body (request : HttpRequest)
  : prog HttpResponse :=
  let product_id := QueryDict_get "product_id" (GET request) in
  if negb (truthy (or_else product_id "")) then
    Ret (JsonResponse [("error", JStr "product_id required")] 400)
  else
    product <- Product_get_by_id product_id ;;
    image <- _get_primary_image (mkProductObj product None) ;;
    Ret (JsonResponse
           [ ("id", JStr (UUID_str (Product.id product)));
             ("name", JStr (Product.name product));
             ("price", JStr (Decimal_str (Product.price product)));
             ("track_inventory", JBool (Product.track_inventory product));
             ("stock_qty", JInt (Product.stock_qty product));
             ("image_url", match image with
                           | Some url => JStr url
                           | None => JNull
                           end) ]
           200).

Definition product_quick_info : HttpRequest -> prog HttpResponse :=
  require_GET product_quick_info_body.

(* ================================================================== *)
(** * The vocabulary of the specification *)

(** The number a decimal stands for. *)
Definition Decimal_value (d : Decimal) : Q :=
  let m := if _sign d then - Z.of_N (_int d) else Z.of_N (_int d) in
  if 0 <=? _exp d then inject_Z (m * 10 ^ _exp d)
  else m # Z.to_pos (10 ^ (- _exp d)).

(** Rounding a rational to the nearest integer, ties to even. *)
Definition round_half_even (x : Q) : Z :=
  let f := Qfloor x in
  match ((x - inject_Z f) ?= (1 # 2))%Q with
  | Lt => f
  | Gt => f + 1
  | Eq => if Z.even f then f else f + 1
  end.

(** [round(x, 2 decimals)] *)
Definition round_2dp (x : Q) : Q :=
  (inject_Z (round_half_even (x * inject_Z 100)) / inject_Z 100)%Q.

(** A price as the column [DecimalField(max_digits=10, decimal_places=2)]
    of a product holds it: non-negative, two decimal places, at most ten
    digits. *)
Definition stored_price (d : Decimal) : Prop :=
  _sign d = false /\ _exp d = -2 /\ (_int d < 10 ^ 10)%N.

(** ** Order submissions *)

(** A field of the order form as the view reads it: stripped, and empty
    when absent. *)
Definition post_field (request : HttpRequest) (key : string) : string :=
  strip (or_else (QueryDict_get key (POST request)) "").

(** One of the four required fields is empty after trimming. *)
Definition missing_required_field (request : HttpRequest) : Prop :=
  post_field request "customer_name" = ""
  \/ post_field request "customer_email" = ""
  \/ post_field request "customer_mobile" = ""
  \/ post_field request "delivery_address" = "".

(** [p] is the one active product row that bears the submitted
    identifier. *)
Definition submitted_product (s : Store) (request : HttpRequest)
           (p : Product.t) : Prop :=
  exists v u,
    QueryDict_get "product_id" (POST request) = Some v
    /\ UUID_of_hex v = Some u
    /\ active_products_with_id u s = [p].

(** [b] is the one active branch row that bears the submitted
    identifier. *)
Definition submitted_branch (s : Store) (request : HttpRequest)
           (b : Branch.t) : Prop :=
  exists v n,
    QueryDict_get "branch_id" (POST request) = Some v
    /\ py_int 10 v = Some n
    /\ active_branches_with_id n s = [b].

(** No active product row bears the submitted identifier: the identifier
    is absent or malformed, or every row that bears it is inactive. *)
Definition unknown_or_inactive_product (s : Store) (request : HttpRequest)
  : Prop :=
  forall v u,
    QueryDict_get "product_id" (POST request) = Some v ->
    UUID_of_hex v = Some u ->
    forall p, In p (products s) -> Product.id p = u ->
              Product.is_active p = false.

Definition unknown_or_inactive_branch (s : Store) (request : HttpRequest)
  : Prop :=
  forall v n,
    QueryDict_get "branch_id" (POST request) = Some v ->
    py_int 10 v = Some n ->
    forall b, In b (branches s) -> Branch.id b = n ->
              Branch.is_active b = false.

(** The quantity a submission asks for: the parsed field, or 1 when the
    field is absent or empty, raised to 1 when below. *)
Definition submitted_quantity (request : HttpRequest) (n : Z) : Prop :=
  exists m,
    int_quantity (QueryDict_get "quantity" (POST request)) = ok m
    /\ n = (if m <? 1 then 1 else m).

(** The submitted product tracks inventory and holds less than the
    submission asks for. *)
Definition insufficient_stock (s : Store) (request : HttpRequest) : Prop :=
  exists p n,
    submitted_product s request p
    /\ submitted_quantity request n
    /\ Product.track_inventory p = true
    /\ Product.stock_qty p < n.

(** The row an accepted submission inserts. *)
Definition order_row (request : HttpRequest) (p : Product.t) (b : Branch.t)
           (n : Z) (subtotal delivery_fee total : Decimal) : Order.t :=
  Order.mk (post_field request "customer_name")
           (post_field request "customer_email")
           (post_field request "customer_mobile")
           (Product.id p) (Branch.id b) n
           (post_field request "delivery_address")
           (or_None (post_field request "note"))
           "pending" subtotal delivery_fee total.

Definition something_went_wrong : flash_message :=
  (ERROR, Text "Something went wrong while placing the order.").

Definition order_placed : flash_message :=
  (SUCCESS, Text "Order placed successfully!").

(** The end of a request that was turned away: back to the listing with
    one error notice, the database as it was. *)
Definition rejected (notice : message_text) (s : Store)
  : result HttpResponse * Local * Store :=
  (inl (HttpResponseRedirect "/services/"), mkLocal [] [(ERROR, notice)], s).

(** ** Sample data *)

Definition can_id : Z := 0x12345678123456781234567812345678.
Definition bottle_id : Z := 7.

(** A tracked product with five units in stock, in an active category. *)
Definition can : Product.t :=
  Product.mk can_id 1 "Can 20L" "CAN20" None (mkDecimal false 15000 (-2))
             true 5 0 true "can-20l" None None None None false.

(** An untracked, active product whose category is inactive. *)
Definition bottle : Product.t :=
  Product.mk bottle_id 2 "Bottle 1L" "BOT1" (Some "One litre")
             (mkDecimal false 5000 (-2))
             false 0 1 true "bottle-1l" None None None None false.

(** A product taken off the catalogue. *)
Definition retired : Product.t :=
  Product.mk 11 1 "Can 10L" "CAN10" None (mkDecimal false 9000 (-2))
             true 0 3 false "can-10l" None None None None false.

Definition shop : Store :=
  mkStore [can; bottle; retired]
          [Category.mk 1 "Cans" 0 true "cans";
           Category.mk 2 "Bottles" 1 false "bottles"]
          [Branch.mk 3 1 "Main road" None None true]
          [ProductImage.mk 1 can_id "https://img/side.png" None false;
           ProductImage.mk 2 can_id "https://img/front.png" None true]
          [] [].

(** An order form for [quantity] units of the product [product_id]. *)
Definition order_form (product_id quantity : string) : HttpRequest :=
  mkRequest "POST" []
    [ ("product_id", product_id); ("branch_id", "3");
      ("quantity", quantity); ("customer_name", " Asha ");
      ("customer_email", "asha@example.in"); ("customer_mobile", "9900000000");
      ("delivery_address", "12 Lake Road") ]
    "http://shop/order/create/".

Definition can_uuid : string := "12345678-1234-5678-1234-567812345678".
Definition bottle_uuid : string := "00000000-0000-0000-0000-000000000007".

(** A product priced at one hundredth. *)
Definition sachet : Product.t :=
  Product.mk 13 1 "Sachet" "SAC" None (mkDecimal false 1 (-2))
             false 0 4 true "sachet" None None None None false.

(** An untracked, active product in an active category. *)
Definition jar_id : Z := 9.
Definition jar_uuid : string := "00000000-0000-0000-0000-000000000009".
Definition jar : Product.t :=
  Product.mk jar_id 1 "Jar 5L" "JAR5" None (mkDecimal false 5000 (-2))
             false 0 2 true "jar-5l" None None None None false.

Definition depot : Store :=
  mkStore [can; jar]
          [Category.mk 1 "Cans" 0 true "cans"]
          [Branch.mk 3 1 "Main road" None None true]
          [] [] [].

(** ** Quantities *)

(** The quantity field is absent, empty, or parses to less than 1. *)
Definition quantity_below_one (request : HttpRequest) : Prop :=
  QueryDict_get "quantity" (POST request) = None
  \/ QueryDict_get "quantity" (POST request) = Some ""
  \/ exists v m,
       QueryDict_get "quantity" (POST request) = Some v
       /\ py_int 10 v = Some m /\ m < 1.

(** The quantity field holds text that [int] does not parse. *)
Definition quantity_unparsable (request : HttpRequest) : Prop :=
  exists v,
    QueryDict_get "quantity" (POST request) = Some v
    /\ v <> "" /\ py_int 10 v = None.

(** An order form whose customer name is blank. *)
Definition blank_name_form : HttpRequest :=
  mkRequest "POST" []
    [ ("product_id", can_uuid); ("branch_id", "3"); ("quantity", "1");
      ("customer_name", "   "); ("customer_email", "asha@example.in");
      ("customer_mobile", "9900000000");
      ("delivery_address", "12 Lake Road") ]
    "http://shop/order/create/".

(** ** Trimming *)

(** Neither end of [t] is whitespace. *)
Definition trimmed (t : list ascii) : Prop :=
  match t with
  | [] => True
  | c :: _ => isspace c = false
  end
  /\ match rev t with
     | [] => True
     | c :: _ => isspace c = false
     end.

(** [t] is [s] with only its surrounding whitespace removed. *)
Definition strip_of (t s : string) : Prop :=
  exists before after,
    list_ascii_of_string s
    = (before ++ list_ascii_of_string t ++ after)%list
    /\ forallb isspace before = true
    /\ forallb isspace after = true
    /\ trimmed (list_ascii_of_string t).

(** ** Contact submissions *)

Definition all_fields_required : flash_message :=
  (ERROR, Text "All fields are required.").

Definition message_received : flash_message :=
  (SUCCESS, Text "Thanks! We received your message.").

(** The value submitted for a field of the contact form, empty when the
    field is absent. *)
Definition submitted (request : HttpRequest) (key : string) : string :=
  or_else (QueryDict_get key (POST request)) "".

Definition contact_form (name email subject message : string) : HttpRequest :=
  mkRequest "POST" []
    [ ("name", name); ("email", email); ("subject", subject);
      ("message", message) ]
    "http://shop/contact/submit/".

(** ** Display images *)

(** The stable order of a product's images: the primary ones first, then
    the others, each group in insertion order. *)
Definition stable_order (rows : list ProductImage.t) : list ProductImage.t :=
  (filter ProductImage.is_primary rows
   ++ filter (fun i => negb (ProductImage.is_primary i)) rows)%list.

(** The effective display image: the first image of the stable order, or
    nothing. *)
Definition effective_image (rows : list ProductImage.t) : option string :=
  match stable_order rows with
  | [] => None
  | i :: _ => Some (ProductImage.image_url i)
  end.

(** Image identifiers grow with insertion, as an [AutoField] makes
    them. *)
Definition ids_ascending (rows : list ProductImage.t) : Prop :=
  StronglySorted (fun a b => ProductImage.id a < ProductImage.id b) rows.

(** A product as [product_quick_info] and [product_detail] hold it, and as
    [home], [services] and [category_detail] do after the prefetch. *)
Definition plain (p : Product.t) : ProductObj := mkProductObj p None.

Definition prefetched (s : Store) (p : Product.t) : ProductObj :=
  mkProductObj p (Some (prefetch_images_all s p)).

(** ** Product pages *)

(** The body of a successful quick-info response for [p], showing
    [image]. *)
Definition quick_info (p : Product.t) (image : option string)
  : list (string * json) :=
  [ ("id", JStr (UUID_str (Product.id p)));
    ("name", JStr (Product.name p));
    ("price", JStr (Decimal_str (Product.price p)));
    ("track_inventory", JBool (Product.track_inventory p));
    ("stock_qty", JInt (Product.stock_qty p));
    ("image_url", match image with
                  | Some url => JStr url
                  | None => JNull
                  end) ].

Definition quick_info_request (product_id : string) : HttpRequest :=
  mkRequest "GET" [("product_id", product_id)] []
            "http://shop/ajax/product-info/".

Definition page_request (uri : string) : HttpRequest :=
  mkRequest "GET" [] [] uri.

(** ** Two placements for the last units

    Asha and Ravi each ask for all five units of [can] in [depot]. *)

Definition asha_form : HttpRequest := order_form can_uuid "5".

Definition ravi_form : HttpRequest :=
  mkRequest "POST" []
    [ ("product_id", can_uuid); ("branch_id", "3"); ("quantity", "5");
      ("customer_name", "Ravi"); ("customer_email", "ravi@example.in");
      ("customer_mobile", "9811111111");
      ("delivery_address", "4 Canal Street") ]
    "http://shop/order/create/".

Definition asha_order : Order.t :=
  Order.mk "Asha" "asha@example.in" "9900000000" can_id 3 5 "12 Lake Road"
           None "pending" (mkDecimal false 75000 (-2)) Decimal_0_00
           (mkDecimal false 75000 (-2)).

Definition ravi_order : Order.t :=
  Order.mk "Ravi" "ravi@example.in" "9811111111" can_id 3 5 "4 Canal Street"
           None "pending" (mkDecimal false 75000 (-2)) Decimal_0_00
           (mkDecimal false 75000 (-2)).

(** Which of the two transactions have committed, and in which order. *)
Inductive commits : Type :=
| Neither
| OnlyAsha
| OnlyRavi
| AshaThenRavi
| RaviThenAsha.

Definition depot_after (c : commits) : Store :=
  mkStore (products depot) (categories depot) (branches depot)
          (product_images depot)
          match c with
          | Neither => []
          | OnlyAsha => [asha_order]
          | OnlyRavi => [ravi_order]
          | AshaThenRavi => [asha_order; ravi_order]
          | RaviThenAsha => [ravi_order; asha_order]
          end
          (contact_messages depot).

(** A request after [n] operations of its own. *)
Definition after_steps {A} (n : nat) (p : prog A) (s : Store) : Thread A :=
  fst (Nat.iter n (fun ts => step_thread (fst ts) (snd ts))
                (mkThread p idle, s)).

Definition asha_at (i : nat) : Thread HttpResponse :=
  after_steps i (create_order asha_form) depot.

Definition ravi_at (j : nat) : Thread HttpResponse :=
  after_steps j (create_order ravi_form) depot.

(** The sixth operation of a placement is its commit. *)
Definition consistent (i j : nat) (c : commits) : bool :=
  match c with
  | Neither => Nat.ltb i 6 && Nat.ltb j 6
  | OnlyAsha => Nat.eqb i 6 && Nat.ltb j 6
  | OnlyRavi => Nat.ltb i 6 && Nat.eqb j 6
  | AshaThenRavi | RaviThenAsha => Nat.eqb i 6 && Nat.eqb j 6
  end.

Definition asha_commits (c : commits) : commits :=
  match c with
  | Neither => OnlyAsha
  | OnlyRavi => RaviThenAsha
  | c => c
  end.

Definition ravi_commits (c : commits) : commits :=
  match c with
  | Neither => OnlyRavi
  | OnlyAsha => AshaThenRavi
  | c => c
  end.

(** What each of the two customers is told in the end. *)
Definition told_something_went_wrong : result HttpResponse * Local :=
  (inl (HttpResponseRedirect "/services/"), mkLocal [] [something_went_wrong]).
(* ================================================================== *)
(** * The rest of the code: listing pages, branch lookup, admin, slugs

    The views of [jalashaya/store/views.py] that list products and
    branches, the home page of [config/views.py], the bulk actions and the
    display columns of [jalashaya/store/admin.py] and the slug that
    [jalashaya/store/models.py] sets on save, over the same tables and
    effects as the views above.  Their properties, X1 to X24, follow the
    properties of the specification.

    Further conventions.
    - [order_by] is a stable sort of the selected rows; text compares by
      code point.
    - The columns the row records leave out are read through a function of
      the row: [created_at] of a product, the [SEOModel] columns of a
      category.
    - An order row carries no identifier: an order is named by its place
      in the table. *)

(** ** Responses of the listing views *)

(** The values of the template contexts of the listing pages. *)
Inductive page_value : Type :=
| PageCategories (l : list Category.t)
| PageCategory (c : option Category.t)
| PageProducts (l : list (Product.t * option string))
    (* each product with its attribute [primary_image] *)
| PageProduct (p : option Product.t)
| PageImage (url : option string)
| PagePrice (d : option Decimal)
| PageDict (d : list (string * json)).

Inductive PageResponse : Type :=
| render_page (template : string) (context : list (string * page_value))
| JsonListResponse (data : list (string * list (list (string * json))))
                   (status : Z)
| PageNotAllowed (permitted_methods : list string).

(** [@require_GET] on a view answering with a [PageResponse]. *)
Definition require_GET_page (view : HttpRequest -> prog PageResponse)
  : HttpRequest -> prog PageResponse :=
  fun request =>
    if existsb (String.eqb (method request)) ["GET"]
    then view request
    else Ret (PageNotAllowed ["GET"]).

(** ** Querysets *)

(** The key order of [order_by("sort_order", "name")]. *)
Definition sort_order_then_name (a b : Category.t) : bool :=
  (Category.sort_order a <? Category.sort_order b)
  || ((Category.sort_order a =? Category.sort_order b)
      && String.leb (Category.name a) (Category.name b)).

(** [Category.objects.filter(is_active=True).order_by("sort_order", "name")] *)
Definition active_categories (s : Store) : list Category.t :=
  sort_by sort_order_then_name (filter Category.is_active (categories s)).

(** The rows selected by [slug=slug, is_active=True]. *)
Definition active_categories_with_slug (slug : string) (s : Store)
  : list Category.t :=
  filter (fun c => String.eqb (Category.slug c) slug && Category.is_active c)
         (categories s).

(** [get_object_or_404(Category, slug=slug, is_active=True)] *)
Definition Category_get_by_slug (slug : string) : prog Category.t :=
  rows <- query (active_categories_with_slug slug) ;; lift (get_or_404 rows).

(** The key order of [order_by("name")] on branches. *)
Definition by_name (a b : Branch.t) : bool :=
  String.leb (Branch.name a) (Branch.name b).

(** [Branch.objects.filter(state_id=n, is_active=True).order_by("name")] *)
Definition active_branches_of_state (n : Z) (s : Store) : list Branch.t :=
  sort_by by_name
    (filter (fun b => (Branch.state b =? n) && Branch.is_active b)
            (branches s)).

(** [for p in products: p.primary_image = _get_primary_image(p)] *)
Fixpoint set_primary_images (products : list ProductObj)
  : prog (list (Product.t * option string)) :=
  match products with
  | [] => Ret []
  | p :: rest =>
      primary_image <- _get_primary_image p ;;
      rest <- set_primary_images rest ;;
      Ret ((row p, primary_image) :: rest)
  end.

(** The [SEOModel] columns of a category, its slug apart. *)
Module SEO.
Record t : Type := mk {
  seo_title : option string;
  seo_description : option string;
  seo_keywords : option string;
  canonical_url : option string;
  no_index : bool
}.
End SEO.

(** A nullable text column in a dictionary: [None] or the text. *)
Definition JText (x : option string) : json :=
  match x with
  | Some t => JStr t
  | None => JNull
  end.

(** [{"id": b.id, "name": b.name}] *)
Definition branch_entry (b : Branch.t) : list (string * json) :=
  [("id", JInt (Branch.id b)); ("name", JStr (Branch.name b))].

Section Listings.

(** [TimeStampedModel.created_at] of a product row. *)
Variable created_at : Product.t -> Z.

(** The [SEOModel] columns of a category row. *)
Variable seo_of : Category.t -> SEO.t.

(** The key order of [order_by("sort_order", "-created_at")]. *)
Definition sort_order_then_recent (a b : Product.t) : bool :=
  (Product.sort_order a <? Product.sort_order b)
  || ((Product.sort_order a =? Product.sort_order b)
      && (created_at b <=? created_at a)).

(** Show categories + featured products (sort_order low).  The slice
    [[:12]] is evaluated by the loop, the categories by the template. *)
Definition home_body (request : HttpRequest) : prog PageResponse :=
  products <- query (fun s =>
                map (prefetched s)
                    (firstn 12
                       (sort_by sort_order_then_recent
                          (filter Product.is_active (products s))))) ;;
  products <- set_primary_images products ;;
  categories <- query active_categories ;;
  Ret (render_page "pages/home.html"
         [ ("categories", PageCategories categories);
           ("products", PageProducts products) ]).

Definition home : HttpRequest -> prog PageResponse :=
  require_GET_page home_body.

(** The rows of [products_qs] in [services], filtered by the category when
    one is given. *)
Definition services_products (active_category : option Category.t)
           (s : Store) : list Product.t :=
  sort_by sort_order_then_recent
    (filter (fun p =>
               match active_category with
               | Some c => Product.category p =? Category.id c
               | None => true
               end)
       (filter (fun p => Product.is_active p && category_is_active s p)
               (products s))).

(** Services page: list products, filter by category using
    [?category=<slug>]. *)
Definition services_body (request : HttpRequest) : prog PageResponse :=
  let category_slug := QueryDict_get "category" (GET request) in
  active_category <-
    (if truthy (or_else category_slug "") then
       c <- Category_get_by_slug (or_else category_slug "") ;; Ret (Some c)
     else Ret None) ;;
  products <- query (fun s =>
                map (prefetched s) (services_products active_category s)) ;;
  products <- set_primary_images products ;;
  let seo :=
    [ ("title",
       JStr (match active_category with
             | Some c =>
                 match SEO.seo_title (seo_of c) with
                 | Some t => if truthy t then t else "Services"
                 | None => "Services"
                 end
             | None => "Services"
             end));
      ("description",
       match active_category with
       | Some c => JText (SEO.seo_description (seo_of c))
       | None => JStr ""
       end);
      ("no_index",
       JBool (match active_category with
              | Some c => SEO.no_index (seo_of c)
              | None => false
              end));
      ("canonical",
       match active_category with
       | Some c => JText (SEO.canonical_url (seo_of c))
       | None => JStr ""
       end) ] in
  categories <- query active_categories ;;
  Ret (render_page "pages/services.html"
         [ ("categories", PageCategories categories);
           ("active_category", PageCategory active_category);
           ("products", PageProducts products);
           ("seo", PageDict seo) ]).

Definition services : HttpRequest -> prog PageResponse :=
  require_GET_page services_body.

(** [Product.objects.filter(is_active=True, category=category)
    .order_by("sort_order", "-created_at")] *)
Definition category_products (category : Category.t) (s : Store)
  : list Product.t :=
  sort_by sort_order_then_recent
    (filter (fun p => Product.is_active p
                      && (Product.category p =? Category.id category))
            (products s)).

(** SEO category page: /category/<slug>/ *)
Definition category_detail_body (slug : string) (request : HttpRequest)
  : prog PageResponse :=
  category <- Category_get_by_slug slug ;;
  products <- query (fun s => map (prefetched s) (category_products category s)) ;;
  products <- set_primary_images products ;;
  let seo :=
    [ ("title",
       JStr (or_else (SEO.seo_title (seo_of category)) (Category.name category)));
      ("description", JStr (or_else (SEO.seo_description (seo_of category)) ""));
      ("keywords", JStr (or_else (SEO.seo_keywords (seo_of category)) ""));
      ("no_index", JBool (SEO.no_index (seo_of category)));
      ("canonical",
       JStr (or_else (SEO.canonical_url (seo_of category))
               (build_absolute_uri request))) ] in
  Ret (render_page "pages/category_detail.html"
         [ ("category", PageCategory (Some category));
           ("products", PageProducts products);
           ("seo", PageDict seo) ]).

Definition category_detail (slug : string) : HttpRequest -> prog PageResponse :=
  require_GET_page (category_detail_body slug).

(** /ajax/branches/?state_id=1, returns: [{id, name}].  The state key is
    an integer column: the value is converted with [int]; what the
    database does with a number the column cannot hold is left out. *)
Definition branches_by_state_body (request : HttpRequest) : prog PageResponse :=
  let state_id := QueryDict_get "state_id" (GET request) in
  if negb (truthy (or_else state_id "")) then
    Ret (JsonListResponse [("results", [])] 200)
  else
    match py_int 10 (or_else state_id "") with
    | None => Raise ValueError
    | Some n =>
        branches <- query (active_branches_of_state n) ;;
        let data := map branch_entry branches in
        Ret (JsonListResponse [("results", data)] 200)
    end.

Definition branches_by_state : HttpRequest -> prog PageResponse :=
  require_GET_page branches_by_state_body.

(* ================================================================== *)
(** * [config/views.py] *)

(** The key order of [order_by("pk")] on images. *)
Definition by_pk (a b : ProductImage.t) : bool :=
  ProductImage.id a <=? ProductImage.id b.

(** [qs.first()] of a queryset without an ordering: the row with the
    least primary key. *)
Definition first_by_pk (rows : list ProductImage.t) : option ProductImage.t :=
  hd_error (sort_by by_pk rows).

(** [_get_primary_image] of [config/views.py] *)
Definition config_get_primary_image (product : Product.t)
  : prog (option string) :=
  primary <- query (fun s =>
               first_by_pk (filter ProductImage.is_primary
                              (images_of s (Product.id product)))) ;;
  match primary with
  | Some i => Ret (Some (ProductImage.image_url i))
  | None =>
      first <- query (fun s => first_by_pk (images_of s (Product.id product))) ;;
      Ret (option_map ProductImage.image_url first)
  end.

(** [home] of [config/views.py]: the categories and the featured product
    (hero). *)
Definition config_home_body (request : HttpRequest) : prog PageResponse :=
  featured_product <- query (fun s =>
                        hd_error (sort_by sort_order_then_recent
                                    (filter Product.is_active (products s)))) ;;
  featured <-
    match featured_product with
    | Some p =>
        featured_image <- config_get_primary_image p ;;
        Ret (featured_image, Some (Product.price p))
    | None => Ret (None, None)
    end ;;
  let '(featured_image, featured_price) := featured in
  categories <- query active_categories ;;
  Ret (render_page "pages/home.html"
         [ ("categories", PageCategories categories);
           ("featured_product", PageProduct featured_product);
           ("featured_image", PageImage featured_image);
           ("featured_price", PagePrice featured_price) ]).

Definition config_home : HttpRequest -> prog PageResponse :=
  require_GET_page config_home_body.

End Listings.

(* ================================================================== *)
(** * [jalashaya/store/admin.py]: bulk actions *)

Definition Product_set_is_active (p : Product.t) (value : bool) : Product.t :=
  Product.mk (Product.id p) (Product.category p) (Product.name p)
     (Product.sku p) (Product.description p) (Product.price p)
     (Product.track_inventory p) (Product.stock_qty p) (Product.sort_order p)
     value (Product.slug p) (Product.seo_title p) (Product.seo_description p)
     (Product.seo_keywords p) (Product.canonical_url p) (Product.no_index p).

(** [queryset.update(is_active=value)] for the queryset selecting the rows
    that satisfy [queryset]: the number of rows matched and the database
    afterwards. *)
Definition update_is_active (queryset : Product.t -> bool) (value : bool)
           (s : Store) : Z * Store :=
  (Z.of_nat (List.length (filter queryset (products s))),
   mkStore (map (fun p => if queryset p then Product_set_is_active p value
                          else p) (products s))
           (categories s) (branches s) (product_images s) (orders s)
           (contact_messages s)).

(** [ProductAdmin.mark_active]: the notice handed to [message_user] and
    the database afterwards. *)
Definition mark_active (queryset : Product.t -> bool) (s : Store)
  : string * Store :=
  let '(updated, s') := update_is_active queryset true s in
  (str_Z updated ++ " product(s) marked ACTIVE.", s').

(** [ProductAdmin.mark_inactive] *)
Definition mark_inactive (queryset : Product.t -> bool) (s : Store)
  : string * Store :=
  let '(updated, s') := update_is_active queryset false s in
  (str_Z updated ++ " product(s) marked INACTIVE.", s').

(** The queryset of an action applied to the rows ticked in the change
    list: [pk__in=selected]. *)
Definition pk_in (selected : list Z) (p : Product.t) : bool :=
  existsb (Z.eqb (Product.id p)) selected.

Definition Order_set_status (o : Order.t) (status : string) : Order.t :=
  Order.mk (Order.customer_name o) (Order.customer_email o)
     (Order.customer_mobile o) (Order.product o) (Order.branch o)
     (Order.quantity o) (Order.delivery_address o) (Order.note o)
     status (Order.subtotal o) (Order.delivery_fee o) (Order.total_amount o).

(** Each row with its place in the table. *)
Fixpoint enumerate_from {A} (n : nat) (l : list A) : list (nat * A) :=
  match l with
  | [] => []
  | x :: r => (n, x) :: enumerate_from (S n) r
  end.

(** [queryset.update(status=value)] on the orders; the queryset sees the
    place and the columns of a row. *)
Definition update_status (queryset : nat -> Order.t -> bool) (value : string)
           (s : Store) : Z * Store :=
  (Z.of_nat (List.length (filter (fun io => queryset (fst io) (snd io))
                                 (enumerate_from 0 (orders s)))),
   mkStore (products s) (categories s) (branches s) (product_images s)
           (map (fun io => if queryset (fst io) (snd io)
                           then Order_set_status (snd io) value
                           else snd io)
                (enumerate_from 0 (orders s)))
           (contact_messages s)).

(** [OrderAdmin.mark_confirmed], [mark_processing], [mark_delivered] and
    [mark_cancelled] *)
Definition mark_confirmed (queryset : nat -> Order.t -> bool) (s : Store)
  : string * Store :=
  let '(updated, s') := update_status queryset "confirmed" s in
  (str_Z updated ++ " order(s) marked CONFIRMED.", s').

Definition mark_processing (queryset : nat -> Order.t -> bool) (s : Store)
  : string * Store :=
  let '(updated, s') := update_status queryset "processing" s in
  (str_Z updated ++ " order(s) marked PROCESSING.", s').

Definition mark_delivered (queryset : nat -> Order.t -> bool) (s : Store)
  : string * Store :=
  let '(updated, s') := update_status queryset "delivered" s in
  (str_Z updated ++ " order(s) marked DELIVERED.", s').

Definition mark_cancelled (queryset : nat -> Order.t -> bool) (s : Store)
  : string * Store :=
  let '(updated, s') := update_status queryset "cancelled" s in
  (str_Z updated ++ " order(s) marked CANCELLED.", s').

(* ================================================================== *)
(** * [jalashaya/store/models.py]: the slug set on save *)

(** [unicodedata.normalize("NFKD", c).encode("ascii", "ignore")] for the
    characters that leave something: an accented letter leaves its base
    letter, a fraction its digits, a spacing accent a space. *)
Definition nfkd_ascii_table : list (string * list N) :=
  [
    (" ", [160; 168; 175; 180; 184]%N);
    ("a", [170; 224; 225; 226; 227; 228; 229]%N);
    ("2", [178]%N);
    ("3", [179]%N);
    ("1", [185]%N);
    ("o", [186; 242; 243; 244; 245; 246]%N);
    ("14", [188]%N);
    ("12", [189]%N);
    ("34", [190]%N);
    ("A", [192; 193; 194; 195; 196; 197]%N);
    ("C", [199]%N);
    ("E", [200; 201; 202; 203]%N);
    ("I", [204; 205; 206; 207]%N);
    ("N", [209]%N);
    ("O", [210; 211; 212; 213; 214]%N);
    ("U", [217; 218; 219; 220]%N);
    ("Y", [221]%N);
    ("c", [231]%N);
    ("e", [232; 233; 234; 235]%N);
    ("i", [236; 237; 238; 239]%N);
    ("n", [241]%N);
    ("u", [249; 250; 251; 252]%N);
    ("y", [253; 255]%N) ].

Definition nfkd_ascii (c : ascii) : string :=
  if (code c <? 128)%N then String c ""
  else
    match find (fun e => existsb (N.eqb (code c)) (snd e)) nfkd_ascii_table with
    | Some (t, _) => t
    | None => ""
    end.

(** [unicodedata.normalize("NFKD", value).encode("ascii", "ignore").decode("ascii")] *)
Fixpoint nfkd_to_ascii (value : string) : string :=
  match value with
  | EmptyString => ""
  | String c r => nfkd_ascii c ++ nfkd_to_ascii r
  end.

(** [str.lower] on ASCII text. *)
Definition lower_char (c : ascii) : ascii :=
  if (65 <=? code c)%N && (code c <=? 90)%N then ascii_of_N (code c + 32)
  else c.

(** [\w] and [\s] on ASCII text. *)
Definition re_word (c : ascii) : bool :=
  ((48 <=? code c)%N && (code c <=? 57)%N)
  || ((65 <=? code c)%N && (code c <=? 90)%N)
  || ((97 <=? code c)%N && (code c <=? 122)%N)
  || (code c =? 95)%N.

Definition re_space (c : ascii) : bool :=
  ((9 <=? code c)%N && (code c <=? 13)%N)
  || ((28 <=? code c)%N && (code c <=? 32)%N).

Definition is_hyphen (c : ascii) : bool := (code c =? 45)%N.

(** [re.sub(r"[^\w\s-]", "", value)] *)
Definition remove_unsafe (l : list ascii) : list ascii :=
  filter (fun c => re_word c || re_space c || is_hyphen c) l.

(** [re.sub(r"[-\s]+", "-", value)]: each run of hyphens and whitespace
    becomes one hyphen; [in_run] tells that the run has begun. *)
Fixpoint hyphenate (in_run : bool) (l : list ascii) : list ascii :=
  match l with
  | [] => []
  | c :: r =>
      if is_hyphen c || re_space c then
        if in_run then hyphenate true r else "-"%char :: hyphenate true r
      else c :: hyphenate false r
  end.

(** [django.utils.text.slugify(value)] *)
Definition slugify (value : string) : string :=
  let value := nfkd_to_ascii value in
  let value := remove_unsafe (map lower_char (list_ascii_of_string value)) in
  strip_chars ["-"; "_"]%char (string_of_list_ascii (hyphenate false value)).





(* ================================================================== *)
(** * [jalashaya/store/admin.py]: display columns of the order list *)

(** [s.split(sep)] for a separator of one character. *)
Fixpoint split_on (sep : ascii) (s : string) : list string :=
  match s with
  | EmptyString => [""]
  | String c r =>
      if Ascii.eqb c sep then "" :: split_on sep r
      else
        match split_on sep r with
        | h :: t => String c h :: t
        | [] => [String c ""]
        end
  end.

(** [OrderAdmin.short_id], from the identifier of the order. *)
Definition short_id (id : Z) : string :=
  hd "" (split_on "-" (UUID_str id)).

(** The double quote. *)
Definition dquote : string := String (ascii_of_N 34) "".

(** [html.escape(s)], which [django.utils.html.escape] applies. *)
Fixpoint html_escape (s : string) : string :=
  match s with
  | EmptyString => ""
  | String c r =>
      (if (code c =? 38)%N then "&amp;"
       else if (code c =? 60)%N then "&lt;"
       else if (code c =? 62)%N then "&gt;"
       else if (code c =? 34)%N then "&quot;"
       else if (code c =? 39)%N then "&#x27;"
       else String c "") ++ html_escape r
  end.

(** [fmt.format(a, b, ...)] for a format string whose only fields are
    [{}]; too few arguments raise [IndexError] ([None]). *)
Fixpoint str_format (fmt : string) (args : list string) : option string :=
  match fmt with
  | EmptyString => Some ""
  | String "{" (String "}" r) =>
      match args with
      | a :: rest => option_map (append a) (str_format r rest)
      | [] => None
      end
  | String c r => option_map (String c) (str_format r args)
  end.

(** [format_html(fmt, a, b, ...)]: every argument is escaped, then
    formatted in. *)
Definition format_html (fmt : string) (args : list string) : option string :=
  str_format fmt (map html_escape args).

(** [d.get(key, default)] *)
Definition dict_get (d : list (string * string)) (key default : string)
  : string :=
  match find (fun kv => String.eqb (fst kv) key) d with
  | Some (_, v) => v
  | None => default
  end.

(** The choices of [Order.status]. *)
Definition status_choices : list (string * string) :=
  [ ("pending", "Pending"); ("confirmed", "Confirmed");
    ("processing", "Processing"); ("delivered", "Delivered");
    ("cancelled", "Cancelled") ].

(** [obj.get_status_display()]: the label of the choice, or the value
    itself when it is none of the choices. *)
Definition get_status_display (status : string) : string :=
  dict_get status_choices status status.

Definition color_map : list (string * string) :=
  [ ("pending", "#ffc107"); ("confirmed", "#0d6efd");
    ("processing", "#0dcaf0"); ("delivered", "#198754");
    ("cancelled", "#dc3545") ].

(** [OrderAdmin.status_badge], from the status of the order. *)
Definition status_badge (status : string) : option string :=
  let color := dict_get color_map status "#6c757d" in
  format_html
    ("<span style=" ++ dquote
     ++ "padding:4px 10px;color:#fff;background:{};border-radius:14px;font-weight:600;"
     ++ dquote ++ ">{}</span>")
    [color; get_status_display status].

(* ================================================================== *)
(** * Vocabulary and sample data for the properties of this code *)

(** [context["products"]] of a rendered page; nothing for another
    outcome. *)
Definition context_products (outcome : result PageResponse)
  : list (Product.t * option string) :=
  match outcome with
  | inl (render_page _ context) =>
      match find (fun kv => String.eqb (fst kv) "products") context with
      | Some (_, PageProducts l) => l
      | _ => []
      end
  | _ => []
  end.

(** The products a request for a listing page shows, or the exception it
    ends in. *)
Definition listing (outcome : result PageResponse * Local * Store)
  : result (list (Product.t * option string)) :=
  match fst (fst outcome) with
  | inl page => inl (context_products (inl page))
  | inr e => inr e
  end.

(** The category a request to [services] asks for. *)
Definition requested_category (request : HttpRequest) (s : Store)
  : result (option Category.t) :=
  let slug := or_else (QueryDict_get "category" (GET request)) "" in
  if truthy slug then
    match get_or_404 (active_categories_with_slug slug s) with
    | inl c => inl (Some c)
    | inr e => inr e
    end
  else inl None.

(** The order of a product listing: lower [sort_order] first, the most
    recent first among equals. *)
Definition listing_order (created_at : Product.t -> Z) (a b : Product.t)
  : Prop :=
  Product.sort_order a < Product.sort_order b
  \/ (Product.sort_order a = Product.sort_order b
      /\ created_at b <= created_at a).

(** Creation times for the sample products: the later a product comes in
    the catalogue, the later it was created. *)
Definition sample_created_at (p : Product.t) : Z := Product.sort_order p.

Definition sample_seo (c : Category.t) : SEO.t :=
  SEO.mk (Some "Water cans") None None None false.

(** A town with branches in two states. *)
Definition town : Store :=
  mkStore [can; bottle; retired; jar]
          [Category.mk 1 "Cans" 0 true "cans";
           Category.mk 2 "Bottles" 1 false "bottles"]
          [Branch.mk 3 1 "Main road" None None true;
           Branch.mk 4 1 "Lake side" None None true;
           Branch.mk 5 2 "Hill top" None None true;
           Branch.mk 6 1 "Old depot" None None false]
          [ProductImage.mk 1 can_id "https://img/side.png" None false;
           ProductImage.mk 2 can_id "https://img/front.png" None true]
          [] [].

Definition branches_request (state_id : string) : HttpRequest :=
  mkRequest "GET" [("state_id", state_id)] [] "http://shop/ajax/branches/".

Definition services_request (category : string) : HttpRequest :=
  mkRequest "GET" [("category", category)] [] "http://shop/services/".

(** A delivered order and a pending one. *)
Definition late_orders : Store :=
  mkStore [can; jar]
          [Category.mk 1 "Cans" 0 true "cans"]
          [Branch.mk 3 1 "Main road" None None true]
          []
          [ Order.mk "Asha" "asha@example.in" "9900000000" can_id 3 1
                     "12 Lake Road" None "delivered"
                     (mkDecimal false 15000 (-2)) (mkDecimal false 2000 (-2))
                     (mkDecimal false 17000 (-2));
            Order.mk "Ravi" "ravi@example.in" "9900000001" jar_id 3 4
                     "3 Hill Street" None "pending"
                     (mkDecimal false 20000 (-2)) (mkDecimal false 0 (-2))
                     (mkDecimal false 20000 (-2)) ]
          [].

(** ** Slugs *)

(** A character of a generated slug: a digit, a lower-case letter, an
    underscore or a hyphen. *)
Definition slug_char (c : ascii) : bool :=
  ((48 <=? code c)%N && (code c <=? 57)%N)
  || ((97 <=? code c)%N && (code c <=? 122)%N)
  || (code c =? 95)%N
  || (code c =? 45)%N.

(** A hyphen or an underscore, the characters [slugify] strips from both
    ends. *)
Definition edge_char (c : ascii) : bool :=
  existsb (Ascii.eqb c) ["-"; "_"]%char.

(** An ASCII letter or digit. *)
Definition alnum (c : ascii) : bool :=
  ((48 <=? code c)%N && (code c <=? 57)%N)
  || ((65 <=? code c)%N && (code c <=? 90)%N)
  || ((97 <=? code c)%N && (code c <=? 122)%N).

(** No hyphen follows a hyphen. *)
Fixpoint no_double_hyphen (l : list ascii) : bool :=
  match l with
  | c :: ((d :: _) as r) => negb (is_hyphen c && is_hyphen d) && no_double_hyphen r
  | _ => true
  end.

(** The shape of a slug: only slug characters, no hyphen or underscore at
    either end, no doubled hyphen. *)
Definition well_formed_slug (slug : string) : Prop :=
  let l := list_ascii_of_string slug in
  forallb slug_char l = true
  /\ match l with c :: _ => edge_char c = false | [] => True end
  /\ match rev l with c :: _ => edge_char c = false | [] => True end
  /\ no_double_hyphen l = true.


(** ** What a request leaves behind *)

(** A view body that only reads: whatever the pending writes and the
    notices of the request, it ends with both, and the database, as they
    were. *)
Definition read_only {A} (p : prog A) : Prop :=
  forall l s, snd (run p l s) = s /\ snd (fst (run p l s)) = l.

(** ** Markup *)

(** How often the character [c] occurs in [s]. *)
Fixpoint occurrences (c : ascii) (s : string) : nat :=
  match s with
  | EmptyString => 0
  | String x r => (if Ascii.eqb x c then 1 else 0) + occurrences c r
  end.


(** ** Two contact submissions at once *)

(** A contact submission that passes the check of its four fields. *)
Definition complete (request : HttpRequest) : Prop :=
  method request = "POST"
  /\ strip (submitted request "name") <> ""
  /\ strip (submitted request "email") <> ""
  /\ strip (submitted request "subject") <> ""
  /\ strip (submitted request "message") <> "".

(** The row a complete contact submission stores. *)
Definition contact_row (request : HttpRequest) : ContactMessage.t :=
  ContactMessage.mk (strip (submitted request "name"))
                    (strip (submitted request "email"))
                    (strip (submitted request "subject"))
                    (strip (submitted request "message")).

(** The database with the messages [l] appended. *)
Definition with_messages (s : Store) (l : list ContactMessage.t) : Store :=
  mkStore (products s) (categories s) (branches s) (product_images s)
          (orders s) (contact_messages s ++ l).

(** What the sender of a stored message is told. *)
Definition thanked : result HttpResponse * Local :=
  (inl (HttpResponseRedirect "/contact/"), mkLocal [] [message_received]).

(** A complete submission of the row [m] after [n] operations of its own:
    the insert, the notice, the redirect. *)
Definition contact_stage (m : ContactMessage.t) (n : nat)
  : Thread HttpResponse :=
  match n with
  | O =>
      mkThread (Exec (InsertContactMessage m)
                  (Notify message_received
                     (Ret (HttpResponseRedirect "/contact/")))) idle
  | S O =>
      mkThread (Notify message_received
                  (Ret (HttpResponseRedirect "/contact/"))) idle
  | S (S _) =>
      mkThread (Ret (HttpResponseRedirect "/contact/"))
               (mkLocal [] [message_received])
  end.

(** The messages stored so far when the submission of [m1] has performed
    [i] operations and that of [m2] has performed [j]. *)
Definition stored_so_far (m1 m2 : ContactMessage.t) (i j : nat)
           (l : list ContactMessage.t) : Prop :=
  match i, j with
  | O, O => l = []
  | S _, O => l = [m1]
  | O, S _ => l = [m2]
  | S _, S _ => l = [m1; m2] \/ l = [m2; m1]
  end.

Definition asha_message : HttpRequest :=
  contact_form " Asha " "asha@example.in" "Delivery" "When do you deliver?".

Definition ravi_message : HttpRequest :=
  contact_form "Ravi" "ravi@example.in" "Price" "What does a can cost?".

(* ================================================================== *)
(** * Worked values of the builtins *)

Example strip_both_ends : strip "  Asha Rao  " = "Asha Rao".
Proof. reflexivity. Qed.

Example strip_blank : strip "   " = "".
Proof. reflexivity. Qed.

Example int_plain : py_int 10 "12" = Some 12.
Proof. reflexivity. Qed.

Example int_spaces_and_sign : py_int 10 " -3 " = Some (-3).
Proof. reflexivity. Qed.

Example int_underscore : py_int 10 "1_000" = Some 1000.
Proof. reflexivity. Qed.

Example int_letters : py_int 10 "abc" = None.
Proof. reflexivity. Qed.

Example int_fraction : py_int 10 "2.5" = None.
Proof. reflexivity. Qed.

Example int_blank : py_int 10 " " = None.
Proof. reflexivity. Qed.

Example uuid_canonical :
  UUID_of_hex "12345678-1234-5678-1234-567812345678"
  = Some 0x12345678123456781234567812345678.
Proof. vm_compute. reflexivity. Qed.

Example uuid_bare_digits :
  UUID_of_hex "12345678123456781234567812345678"
  = Some 0x12345678123456781234567812345678.
Proof. vm_compute. reflexivity. Qed.

Example uuid_urn :
  UUID_of_hex "urn:uuid:{12345678-1234-5678-1234-567812345678}"
  = Some 0x12345678123456781234567812345678.
Proof. vm_compute. reflexivity. Qed.

Example uuid_not_hex : UUID_of_hex "abc" = None.
Proof. reflexivity. Qed.

Example uuid_str_of_int :
  UUID_str 0x12345678123456781234567812345678
  = "12345678-1234-5678-1234-567812345678".
Proof. vm_compute. reflexivity. Qed.

Example decimal_str_price : Decimal_str (mkDecimal false 15000 (-2)) = "150.00".
Proof. reflexivity. Qed.

Example decimal_half_even_down :
  quantize getcontext (mkDecimal false 12345 (-3)) Decimal_0_01
  = ok (mkDecimal false 1234 (-2)).
Proof. reflexivity. Qed.

Example decimal_half_even_up :
  quantize getcontext (mkDecimal false 12355 (-3)) Decimal_0_01
  = ok (mkDecimal false 1236 (-2)).
Proof. reflexivity. Qed.

Example decimal_product_rounded_to_28_digits :
  Decimal_mul getcontext (mkDecimal false 15000 (-2)) (Decimal_of_int (10 ^ 26))
  = ok (mkDecimal false 1500000000000000000000000000 1).
Proof. vm_compute. reflexivity. Qed.

(* ================================================================== *)
(** * Facts about the decimal arithmetic *)

Lemma digits_le_length_pos fuel n : (1 <= List.length (digits_le (S fuel) n))%nat.
Proof. cbn [digits_le]. cbn [List.length]. lia. Qed.

Lemma digits_le_length_upper fuel : forall n (k : nat),
  (1 <= k)%nat -> (n < 10 ^ N.of_nat k)%N ->
  (List.length (digits_le fuel n) <= k)%nat.
Proof.
  induction fuel as [|f IH]; intros n k Hk Hn; cbn [digits_le List.length]; [lia|].
  destruct (N.ltb_spec n 10) as [Hlt|Hge]; cbn [List.length]; [lia|].
  destruct k as [|[|k']]; [lia| |].
  - change (10 ^ N.of_nat 1)%N with 10%N in Hn. lia.
  - assert (Hdiv : (n / 10 < 10 ^ N.of_nat (S k'))%N).
    { apply N.Div0.div_lt_upper_bound.
      replace (N.of_nat (S (S k'))) with (N.succ (N.of_nat (S k'))) in Hn by lia.
      rewrite N.pow_succ_r' in Hn. exact Hn. }
    specialize (IH (n / 10)%N (S k') ltac:(lia) Hdiv). lia.
Qed.

Lemma digits_le_length_lower fuel : forall n (k : nat),
  (n < 2 ^ N.of_nat fuel)%N ->
  (List.length (digits_le (S fuel) n) <= k)%nat ->
  (n < 10 ^ N.of_nat k)%N.
Proof.
  induction fuel as [|f IH]; intros n k Hn Hlen.
  - change (2 ^ N.of_nat 0)%N with 1%N in Hn.
    assert (n = 0%N) by lia. subst n.
    apply N.neq_0_lt_0. apply N.pow_nonzero. discriminate.
  - cbn [digits_le List.length] in Hlen.
    destruct (N.ltb_spec n 10) as [Hlt|Hge].
    + cbn [List.length] in Hlen. destruct k as [|k']; [lia|].
      replace (N.of_nat (S k')) with (N.succ (N.of_nat k')) by lia.
      rewrite N.pow_succ_r'.
      assert (0 < 10 ^ N.of_nat k')%N
        by (apply N.neq_0_lt_0; apply N.pow_nonzero; discriminate).
      nia.
    + destruct k as [|k']; [cbn [List.length] in Hlen; lia|].
      assert (Hhalf : (n / 10 < 2 ^ N.of_nat f)%N).
      { apply N.Div0.div_lt_upper_bound.
        replace (N.of_nat (S f)) with (N.succ (N.of_nat f)) in Hn by lia.
        rewrite N.pow_succ_r' in Hn. lia. }
      assert (Hrec : (List.length (digits_le (S f) (n / 10)%N) <= k')%nat).
      { cbn [digits_le List.length] in Hlen |- *. lia. }
      specialize (IH (n / 10)%N k' Hhalf Hrec).
      replace (N.of_nat (S k')) with (N.succ (N.of_nat k')) by lia.
      rewrite N.pow_succ_r'.
      pose proof (N.div_mod n 10 ltac:(discriminate)).
      pose proof (N.mod_lt n 10 ltac:(discriminate)).
      lia.
Qed.

Lemma ndigits_pos n : 1 <= ndigits n.
Proof.
  unfold ndigits, digits_of. rewrite length_rev.
  pose proof (digits_le_length_pos (N.to_nat (N.size n)) n). lia.
Qed.

Lemma ndigits_le_iff n (k : nat) :
  (1 <= k)%nat -> (ndigits n <= Z.of_nat k <-> (n < 10 ^ N.of_nat k)%N).
Proof.
  intros Hk. unfold ndigits, digits_of. rewrite length_rev. split; intros H.
  - apply digits_le_length_lower with (fuel := N.to_nat (N.size n)).
    + rewrite N2Nat.id. apply N.size_gt.
    + lia.
  - pose proof (digits_le_length_upper (S (N.to_nat (N.size n))) n k Hk H). lia.
Qed.

(** A number that already fits a context is left alone by [_fix] and by
    [quantize] to its own exponent. *)
Section Fits.

Variable ctx : Context.
Variable k : nat.
Hypothesis prec_k : prec ctx = Z.of_nat k.
Hypothesis k_pos : (1 <= k)%nat.
Hypothesis Emin_default : Emin ctx = -999999.
Hypothesis Emax_default : Emax ctx = 999999.
Hypothesis k_small : (k <= 28)%nat.

Lemma fix_fits_in d :
  (_int d < 10 ^ N.of_nat k)%N -> -1000 <= _exp d <= 1000 ->
  _fix ctx d = ok d.
Proof.
  intros Hc He. unfold _fix, is_zero, Etiny, Etop.
  rewrite prec_k, Emin_default, Emax_default.
  destruct (N.eqb_spec (_int d) 0) as [Hz|Hnz].
  - destruct d as [sg c e]; cbn [_sign _int _exp] in *. subst c.
    f_equal. f_equal. lia.
  - pose proof (ndigits_pos (_int d)).
    assert (ndigits (_int d) <= Z.of_nat k)
      by (apply ndigits_le_iff; assumption).
    destruct (Z.gtb_spec (ndigits (_int d) + _exp d - Z.of_nat k)
                         (999999 - Z.of_nat k + 1)); [lia|].
    destruct (Z.ltb_spec (ndigits (_int d) + _exp d - Z.of_nat k)
                         (-999999 - Z.of_nat k + 1)).
    + destruct (Z.ltb_spec (_exp d) (-999999 - Z.of_nat k + 1));
        [lia|reflexivity].
    + destruct (Z.ltb_spec (_exp d)
                  (ndigits (_int d) + _exp d - Z.of_nat k));
        [lia|reflexivity].
Qed.

Lemma quantize_cents_in sg c :
  (c < 10 ^ N.of_nat k)%N ->
  quantize ctx (mkDecimal sg c (-2)) Decimal_0_01 = ok (mkDecimal sg c (-2)).
Proof.
  intros Hc. unfold quantize, is_zero, adjusted, Decimal_0_01, Etiny.
  cbn [_sign _int _exp]. rewrite prec_k, Emin_default, Emax_default.
  destruct (Z.leb_spec (-999999 - Z.of_nat k + 1) (-2)); [|lia].
  change (-2 <=? 999999) with true. cbn [andb negb].
  destruct (N.eqb_spec c 0) as [Hz|Hnz].
  - subst c. apply fix_fits_in; cbn [_int _exp]; [|lia].
    apply N.neq_0_lt_0, N.pow_nonzero. discriminate.
  - pose proof (ndigits_pos c).
    assert (ndigits c <= Z.of_nat k) by (apply ndigits_le_iff; assumption).
    destruct (Z.gtb_spec (-2 + ndigits c - 1) 999999); [lia|].
    destruct (Z.gtb_spec (-2 + ndigits c - 1 - -2 + 1) (Z.of_nat k)); [lia|].
    unfold _rescale, is_zero. cbn [_sign _int _exp].
    destruct (N.eqb_spec c 0); [contradiction|].
    change (-2 >=? -2) with true. cbv beta iota.
    change (Z.to_N (-2 - -2)) with 0%N. rewrite N.pow_0_r, N.mul_1_r.
    cbn [_sign _int _exp].
    destruct (Z.gtb_spec (-2 + ndigits c - 1) 999999); [lia|].
    destruct (Z.gtb_spec (ndigits c) (Z.of_nat k)); [lia|].
    apply fix_fits_in; cbn [_int _exp]; [exact Hc | lia].
Qed.

End Fits.

Lemma fix_fits d :
  (_int d < 10 ^ 28)%N -> -1000 <= _exp d <= 1000 ->
  _fix getcontext d = ok d.
Proof.
  apply (fix_fits_in getcontext 28); try reflexivity; lia.
Qed.

Lemma quantize_cents sg c :
  (c < 10 ^ 28)%N ->
  quantize getcontext (mkDecimal sg c (-2)) Decimal_0_01 = ok (mkDecimal sg c (-2)).
Proof.
  apply (quantize_cents_in getcontext 28); try reflexivity; lia.
Qed.

(** A value of at most ten digits fits the decimal columns of [Order]. *)
Lemma adapt_decimalfield_value_fits sg c :
  (c < 10 ^ 10)%N ->
  adapt_decimalfield_value (mkDecimal sg c (-2)) 10 2 = ok (mkDecimal sg c (-2)).
Proof.
  unfold adapt_decimalfield_value.
  apply (quantize_cents_in (mkContext 10 (Emin getcontext) (Emax getcontext)) 10);
    try reflexivity; lia.
Qed.

Ltac exp_in_range := cbn [_exp]; lia.

Lemma ndigits_20000 : ndigits 20000 = 5.
Proof. reflexivity. Qed.

Lemma ndigits_2000 : ndigits 2000 = 4.
Proof. reflexivity. Qed.

Lemma Decimal_lt_200_00 s :
  Decimal_lt (mkDecimal false s (-2)) Decimal_200_00 = (s <? 20000)%N.
Proof.
  unfold Decimal_lt, _cmp, is_zero, adjusted, Decimal_200_00, signum.
  cbn [_sign _int _exp]. rewrite ndigits_20000.
  change (20000 =? 0)%N with false. cbv beta iota.
  destruct (N.eqb_spec s 0) as [Hz|Hnz].
  - subst s. reflexivity.
  - cbn [negb andb].
    change (Z.to_N (-2 - -2)) with 0%N. rewrite N.pow_0_r, !N.mul_1_r.
    pose proof (ndigits_le_iff s 5 ltac:(lia)) as H5.
    pose proof (ndigits_le_iff s 4 ltac:(lia)) as H4.
    change (10 ^ N.of_nat 5)%N with 100000%N in H5.
    change (10 ^ N.of_nat 4)%N with 10000%N in H4.
    change (Z.of_nat 5) with 5 in H5. change (Z.of_nat 4) with 4 in H4.
    destruct (Z.eqb_spec (-2 + ndigits s - 1) (-2 + 5 - 1)) as [He|Hne].
    + destruct (N.eqb_spec s 20000) as [->|Hs]; [reflexivity|].
      destruct (N.ltb_spec s 20000); reflexivity.
    + destruct (Z.gtb_spec (-2 + ndigits s - 1) (-2 + 5 - 1)) as [Hgt|Hle].
      * destruct (N.ltb_spec s 20000) as [Hlt|Hge]; [|reflexivity].
        assert (ndigits s <= 5) by (apply H5; lia). lia.
      * destruct (N.ltb_spec s 20000) as [Hlt|Hge]; [reflexivity|].
        assert (s < 10000)%N by (apply H4; lia). lia.
Qed.

Lemma Decimal_add_fee s :
  (s < 20000)%N ->
  Decimal_add getcontext (mkDecimal false s (-2)) Decimal_20_00
  = ok (mkDecimal false (s + 2000) (-2)).
Proof.
  intros Hs. unfold Decimal_add, is_zero, Decimal_20_00.
  cbn [_sign _int _exp]. change (2000 =? 0)%N with false.
  rewrite andb_false_r.
  assert (Hfit : forall c, (c < 22000)%N ->
            _fix getcontext (mkDecimal false c (-2)) = ok (mkDecimal false c (-2))).
  { intros c Hc. apply fix_fits; cbn [_int _exp].
    - apply N.lt_trans with (m := 22000%N); [exact Hc | reflexivity].
    - exp_in_range. }
  destruct (N.eqb_spec s 0) as [Hz|Hnz].
  - subst s. unfold _rescale, is_zero. cbn [_sign _int _exp].
    change (2000 =? 0)%N with false. cbv beta iota.
    change (prec getcontext) with 28.
    change (Z.max (Z.min (-2) (-2)) (-2 - 28 - 1)) with (-2).
    change (-2 >=? -2) with true. cbv beta iota.
    change (Z.to_N (-2 - -2)) with 0%N.
    rewrite N.pow_0_r, N.mul_1_r. apply Hfit. reflexivity.
  - unfold _normalize. cbn [_sign _int _exp].
    change (-2 <? -2) with false. cbv beta iota. cbn [_sign _int _exp].
    rewrite ndigits_2000. change (prec getcontext) with 28.
    pose proof (ndigits_pos s).
    destruct (Z.ltb_spec (4 + -2 - 1) (-2 + Z.min (-1) (ndigits s - 28 - 2)));
      [lia|].
    cbn [_sign _int _exp]. change (Z.to_N (-2 - -2)) with 0%N.
    rewrite N.pow_0_r, N.mul_1_r. cbn [Bool.eqb negb].
    apply Hfit. lia.
Qed.

Lemma Decimal_add_free s :
  (s < 10 ^ 28)%N ->
  Decimal_add getcontext (mkDecimal false s (-2)) Decimal_0_00
  = ok (mkDecimal false s (-2)).
Proof.
  intros Hs. unfold Decimal_add, is_zero, Decimal_0_00.
  cbn [_sign _int _exp]. change (0 =? 0)%N with true. rewrite andb_true_r.
  destruct (N.eqb_spec s 0) as [Hz|Hnz].
  - subst s. cbn [andb]. apply fix_fits; cbn [_int _exp]; [reflexivity | exp_in_range].
  - unfold _rescale, is_zero. cbn [_sign _int _exp].
    destruct (N.eqb_spec s 0); [contradiction|].
    change (prec getcontext) with 28.
    change (Z.max (Z.min (-2) (-2)) (-2 - 28 - 1)) with (-2).
    change (-2 >=? -2) with true. cbv beta iota.
    change (Z.to_N (-2 - -2)) with 0%N.
    rewrite N.pow_0_r, N.mul_1_r.
    apply fix_fits; cbn [_int _exp]; [exact Hs | exp_in_range].
Qed.

Lemma Decimal_mul_quantity c m :
  1 <= m -> Z.of_N c * m < 10 ^ 28 ->
  Decimal_mul getcontext (mkDecimal false c (-2)) (Decimal_of_int m)
  = ok (mkDecimal false (c * Z.to_N m) (-2)).
Proof.
  intros Hm Hb. unfold Decimal_mul, Decimal_of_int. cbn [_sign _int _exp].
  destruct (Z.ltb_spec m 0); [lia|]. cbn [xorb].
  replace (Z.abs_N m) with (Z.to_N m) by lia.
  change (-2 + 0) with (-2).
  apply fix_fits; cbn [_int _exp]; [|exp_in_range].
  assert (Z.of_N (c * Z.to_N m) < 10 ^ 28) by (rewrite N2Z.inj_mul, Z2N.id; lia).
  change (10 ^ 28)%N with (Z.to_N (10 ^ 28)). lia.
Qed.

Lemma Decimal_value_cents s :
  Decimal_value (mkDecimal false s (-2)) = (Z.of_N s # 100).
Proof. reflexivity. Qed.

Lemma round_half_even_Z x k : (x == inject_Z k)%Q -> round_half_even x = k.
Proof.
  intros Hx. unfold round_half_even.
  rewrite (Qfloor_comp x (inject_Z k) Hx), Qfloor_Z.
  assert (Hd : (x - inject_Z k == 0)%Q) by (rewrite Hx; ring).
  rewrite (Qcompare_comp _ _ Hd (1 # 2) (1 # 2) (Qeq_refl _)).
  reflexivity.
Qed.

Lemma round_2dp_cents x n : (x == n # 100)%Q -> (round_2dp x == n # 100)%Q.
Proof.
  intros Hx. unfold round_2dp.
  rewrite (round_half_even_Z (x * inject_Z 100) n).
  - unfold Qeq, Qdiv, Qmult, Qinv, inject_Z. cbn [Qnum Qden]. lia.
  - rewrite Hx. unfold Qeq, Qmult, inject_Z. cbn [Qnum Qden]. lia.
Qed.

(** The totals of a price of [c] hundredths, when the exact product has at
    most 28 digits. *)
Lemma calc_totals_cents (product : Product.t) (q : Z) (c : N) :
  Product.price product = mkDecimal false c (-2) ->
  Z.of_N c * Z.max q 1 < 10 ^ 28 ->
  let s := (c * Z.to_N (Z.max q 1))%N in
  _calc_totals product q
  = ok (mkDecimal false s (-2),
        (if (s <? 20000)%N then Decimal_20_00 else Decimal_0_00),
        mkDecimal false (if (s <? 20000)%N then s + 2000 else s)%N (-2)).
Proof.
  intros Hprice Hb s.
  assert (Hm : 1 <= Z.max q 1) by lia.
  assert (Hs : (s < 10 ^ 28)%N).
  { assert (Z.of_N s < 10 ^ 28) by (unfold s; rewrite N2Z.inj_mul, Z2N.id; lia).
    change (10 ^ 28)%N with (Z.to_N (10 ^ 28)). lia. }
  unfold _calc_totals. rewrite Hprice.
  rewrite (Decimal_mul_quantity c (Z.max q 1) Hm Hb). cbn [rbind ok]. fold s.
  rewrite (quantize_cents false s Hs). cbn [rbind ok].
  rewrite Decimal_lt_200_00.
  destruct (N.ltb_spec s 20000) as [Hlt|Hge].
  - rewrite (Decimal_add_fee s Hlt). cbn [rbind ok].
    rewrite quantize_cents
      by (apply N.lt_trans with (m := 22000%N); [lia | reflexivity]).
    reflexivity.
  - rewrite (Decimal_add_free s Hs). cbn [rbind ok].
    rewrite (quantize_cents false s Hs). reflexivity.
Qed.

Lemma stored_price_cents d :
  stored_price d -> d = mkDecimal false (_int d) (-2).
Proof.
  intros (Hs & He & _). destruct d as [sg c e]; cbn [_sign _int _exp] in *.
  congruence.
Qed.

(* ================================================================== *)
(** * Facts about the order-placement view *)

Lemma truthy_true_iff s : truthy s = true <-> s <> "".
Proof.
  unfold truthy. destruct (String.eqb_spec s ""); cbn; split; congruence.
Qed.

Lemma truthy_false_iff s : truthy s = false <-> s = "".
Proof.
  unfold truthy. destruct (String.eqb_spec s ""); cbn; split; congruence.
Qed.

Ltac exec :=
  cbn [run bind try_except on_exit lift raise_if query messages_error
       messages_success transaction_atomic pending flash view_of fold_right
       apply_writes fold_left tl negb andb orb is_ValidationError
       Order_objects_create get_or_404 ok throw].

Ltac known_names :=
  change (redirect_reverse "services")
    with (@Ret HttpResponse (HttpResponseRedirect "/services/")) in *;
  change (global_name "models") with (@Raise unit (NameError "models")) in *.

Lemma create_order_POST request :
  method request = "POST" ->
  create_order request = Begin (on_exit (create_order_body request)).
Proof.
  intros H. unfold create_order, require_http_methods, transaction_atomic.
  rewrite H. reflexivity.
Qed.

Lemma create_order_rejected_or_validated request s :
  method request = "POST" ->
  (exists notice, run (create_order request) idle s = rejected notice s)
  \/ (exists p b n,
        post_field request "customer_name" <> ""
        /\ post_field request "customer_email" <> ""
        /\ post_field request "customer_mobile" <> ""
        /\ post_field request "delivery_address" <> ""
        /\ submitted_product s request p
        /\ submitted_branch s request b
        /\ submitted_quantity request n
        /\ (Product.track_inventory p = true -> n <= Product.stock_qty p)).
Proof.
  intros Hm. rewrite (create_order_POST request Hm).
  unfold create_order_body, idle, rejected. known_names.
  fold (post_field request "customer_name").
  fold (post_field request "customer_email").
  fold (post_field request "customer_mobile").
  fold (post_field request "delivery_address").
  fold (post_field request "note").
  exec.
  destruct (int_quantity (QueryDict_get "quantity" (POST request)))
    as [m|e] eqn:Hq; exec.
  2:{ left. destruct (is_ValidationError e); exec; eexists; reflexivity. }
  destruct (truthy (post_field request "customer_name")) eqn:H1; exec;
    [|left; eexists; reflexivity].
  destruct (truthy (post_field request "customer_email")) eqn:H2; exec;
    [|left; eexists; reflexivity].
  destruct (truthy (post_field request "customer_mobile")) eqn:H3; exec;
    [|left; eexists; reflexivity].
  destruct (truthy (post_field request "delivery_address")) eqn:H4; exec;
    [|left; eexists; reflexivity].
  unfold Product_get_by_id.
  destruct (QueryDict_get "product_id" (POST request)) as [v|] eqn:Hpid; exec;
    [|left; eexists; reflexivity].
  destruct (UUID_of_hex v) as [u|] eqn:Hu; exec;
    [|left; eexists; reflexivity].
  destruct (active_products_with_id u s) as [|p [|p' rows]] eqn:Hrows;
    exec; try (left; eexists; reflexivity).
  unfold Branch_get_by_id.
  destruct (QueryDict_get "branch_id" (POST request)) as [w|] eqn:Hbid; exec;
    [|left; eexists; reflexivity].
  destruct (py_int 10 w) as [k|] eqn:Hk; exec;
    [|left; eexists; reflexivity].
  destruct (active_branches_with_id k s) as [|b [|b' brows]] eqn:Hbrows;
    exec; try (left; eexists; reflexivity).
  destruct (Product.track_inventory p
            && (Product.stock_qty p <? (if m <? 1 then 1 else m))) eqn:Hstock;
    exec; [left; eexists; reflexivity|].
  right. exists p, b, (if m <? 1 then 1 else m).
  rewrite truthy_true_iff in H1, H2, H3, H4.
  repeat split; try assumption.
  - exists v, u. auto.
  - exists w, k. auto.
  - exists m. auto.
  - intros Ht. rewrite Ht in Hstock. cbn [andb] in Hstock.
    apply Z.ltb_ge in Hstock. exact Hstock.
Qed.

Lemma create_order_placed request s p b n subtotal delivery_fee total
      subtotal' delivery_fee' total' :
  method request = "POST" ->
  post_field request "customer_name" <> "" ->
  post_field request "customer_email" <> "" ->
  post_field request "customer_mobile" <> "" ->
  post_field request "delivery_address" <> "" ->
  submitted_product s request p ->
  submitted_branch s request b ->
  submitted_quantity request n ->
  (Product.track_inventory p = true -> n <= Product.stock_qty p) ->
  _calc_totals p n = ok (subtotal, delivery_fee, total) ->
  adapt_decimalfield_value subtotal 10 2 = ok subtotal' ->
  adapt_decimalfield_value delivery_fee 10 2 = ok delivery_fee' ->
  adapt_decimalfield_value total 10 2 = ok total' ->
  run (create_order request) idle s
  = (inl (HttpResponseRedirect "/services/"),
     mkLocal [] [if Product.track_inventory p then something_went_wrong
                 else order_placed],
     apply_write
       (InsertOrder (order_row request p b n subtotal' delivery_fee' total')) s).
Proof.
  intros Hm H1 H2 H3 H4 (v & u & Hpid & Hu & Hrows) (w & k & Hbid & Hk & Hbrows)
         (m & Hq & Hn) Hstock Htot Hc1 Hc2 Hc3.
  rewrite (create_order_POST request Hm).
  unfold create_order_body, idle. known_names.
  fold (post_field request "customer_name").
  fold (post_field request "customer_email").
  fold (post_field request "customer_mobile").
  fold (post_field request "delivery_address").
  fold (post_field request "note").
  rewrite <- truthy_true_iff in H1, H2, H3, H4.
  rewrite Hq, H1, H2, H3, H4. unfold ok in *. exec.
  unfold Product_get_by_id, Branch_get_by_id.
  rewrite Hpid, Hu. exec. rewrite Hrows. exec.
  rewrite Hbid, Hk. exec. rewrite Hbrows. exec.
  rewrite <- Hn.
  assert (Hcheck : Product.track_inventory p && (Product.stock_qty p <? n) = false).
  { destruct (Product.track_inventory p); [|reflexivity].
    cbn [andb]. apply Z.ltb_ge. auto. }
  rewrite Hcheck. exec. rewrite Htot. exec.
  unfold Order_objects_create.
  cbn [Order.subtotal Order.delivery_fee Order.total_amount].
  rewrite Hc1. exec. rewrite Hc2. exec. rewrite Hc3. exec.
  cbn [Order.customer_name Order.customer_email Order.customer_mobile
       Order.product Order.branch Order.quantity Order.delivery_address
       Order.note Order.status].
  fold (order_row request p b n subtotal' delivery_fee' total').
  destruct (Product.track_inventory p); exec; reflexivity.
Qed.

Lemma filter_singleton_In {A} (f : A -> bool) l x :
  filter f l = [x] -> In x l /\ f x = true.
Proof.
  intros H. assert (Hin : In x (filter f l)) by (rewrite H; left; reflexivity).
  apply filter_In in Hin. exact Hin.
Qed.

(** A quantity that [int] refuses ends the request in the generic
    handler. *)
Lemma create_order_quantity_unparsable request s :
  method request = "POST" ->
  quantity_unparsable request ->
  run (create_order request) idle s
  = rejected (Text "Something went wrong while placing the order.") s.
Proof.
  intros Hm (v & Hv & Hne & Hparse).
  rewrite (create_order_POST request Hm).
  unfold create_order_body, idle, rejected. known_names.
  unfold int_quantity. rewrite Hv.
  apply truthy_true_iff in Hne. rewrite Hne, Hparse. exec. reflexivity.
Qed.

Lemma quantity_below_one_submits_one request :
  quantity_below_one request -> submitted_quantity request 1.
Proof.
  unfold submitted_quantity, int_quantity.
  intros [H | [H | (v & m & H & Hparse & Hlt)]]; rewrite H.
  - exists 1. split; reflexivity.
  - exists 1. split; reflexivity.
  - assert (Hne : v <> "")
      by (intros ->; vm_compute in Hparse; discriminate).
    apply truthy_true_iff in Hne. rewrite Hne, Hparse.
    exists m. split; [reflexivity|].
    destruct (Z.ltb_spec m 1); [reflexivity | lia].
Qed.

(** The totals of one unit at a stored price, and their fit in the
    columns of [Order]. *)
Lemma calc_totals_one_unit (p : Product.t) :
  stored_price (Product.price p) ->
  exists subtotal delivery_fee total,
    _calc_totals p 1 = ok (subtotal, delivery_fee, total)
    /\ adapt_decimalfield_value subtotal 10 2 = ok subtotal
    /\ adapt_decimalfield_value delivery_fee 10 2 = ok delivery_fee
    /\ adapt_decimalfield_value total 10 2 = ok total.
Proof.
  intros Hstored.
  pose proof (stored_price_cents _ Hstored) as Hprice.
  destruct Hstored as (_ & _ & Hc).
  set (c := _int (Product.price p)) in *.
  assert (Hb : Z.of_N c * Z.max 1 1 < 10 ^ 28).
  { change (Z.max 1 1) with 1. rewrite Z.mul_1_r.
    assert (Z.of_N c < 10 ^ 10) by (change (10 ^ 10) with (Z.of_N (10 ^ 10)); lia).
    assert (10 ^ 10 < 10 ^ 28) by reflexivity. lia. }
  pose proof (calc_totals_cents p 1 c Hprice Hb) as Htot. cbv zeta in Htot.
  change (Z.to_N (Z.max 1 1)) with 1%N in Htot. rewrite N.mul_1_r in Htot.
  eexists _, _, _. split; [exact Htot|].
  assert (H22 : (22000 < 10 ^ 10)%N) by reflexivity.
  destruct (N.ltb_spec c 20000).
  - repeat split; apply adapt_decimalfield_value_fits;
      try assumption; try reflexivity; lia.
  - repeat split; apply adapt_decimalfield_value_fits;
      try assumption; reflexivity.
Qed.

(** What the view does for a tracked product with enough stock, at any
    input: the order row is inserted, the decrement is never reached, the
    generic error is shown, and the table of products is as it was. *)
Corollary tracked_order_never_decrements request s p b n subtotal delivery_fee
          total subtotal' delivery_fee' total' :
  method request = "POST" ->
  post_field request "customer_name" <> "" ->
  post_field request "customer_email" <> "" ->
  post_field request "customer_mobile" <> "" ->
  post_field request "delivery_address" <> "" ->
  submitted_product s request p ->
  submitted_branch s request b ->
  submitted_quantity request n ->
  Product.track_inventory p = true ->
  n <= Product.stock_qty p ->
  _calc_totals p n = ok (subtotal, delivery_fee, total) ->
  adapt_decimalfield_value subtotal 10 2 = ok subtotal' ->
  adapt_decimalfield_value delivery_fee 10 2 = ok delivery_fee' ->
  adapt_decimalfield_value total 10 2 = ok total' ->
  exists s',
    run (create_order request) idle s
    = (inl (HttpResponseRedirect "/services/"),
       mkLocal [] [something_went_wrong], s')
    /\ products s' = products s
    /\ orders s'
       = (orders s
          ++ [order_row request p b n subtotal' delivery_fee' total'])%list.
Proof.
  intros Hm H1 H2 H3 H4 Hp Hb Hn Ht Hs Htot Hc1 Hc2 Hc3.
  eexists. split.
  - rewrite (create_order_placed request s p b n subtotal delivery_fee total
               subtotal' delivery_fee' total'); try assumption.
    + rewrite Ht. reflexivity.
    + intros _. exact Hs.
  - split; reflexivity.
Qed.

(* ================================================================== *)
(** * Facts about trimming *)

Section Dropwhile.
Context {A : Type} (f : A -> bool).

Lemma dropwhile_split (l : list A) :
  exists a, l = (a ++ dropwhile f l)%list /\ forallb f a = true.
Proof.
  induction l as [|x r (a & E & Ha)].
  - exists []. split; reflexivity.
  - cbn [dropwhile]. destruct (f x) eqn:Hx.
    + exists (x :: a). split.
      * cbn [app]. rewrite <- E. reflexivity.
      * cbn [forallb]. rewrite Hx, Ha. reflexivity.
    + exists []. split; reflexivity.
Qed.

Lemma dropwhile_head (l : list A) :
  match dropwhile f l with
  | [] => True
  | x :: _ => f x = false
  end.
Proof.
  induction l as [|x r IH]; cbn [dropwhile]; [exact I|].
  destruct (f x) eqn:Hx; [exact IH | exact Hx].
Qed.

(** Stripping from the right never reaches a leading element that is
    to be kept. *)
Lemma rstrip_keeps_head (x : A) (l : list A) :
  f x = false ->
  exists r, rev (dropwhile f (rev (x :: l))) = x :: r.
Proof.
  intros Hx.
  destruct (dropwhile_split (rev (x :: l))) as (a & E & Ha).
  destruct (dropwhile f (rev (x :: l))) as [|y d] eqn:Hd.
  - (* everything dropped: impossible, x is kept *)
    rewrite app_nil_r in E.
    assert (Hin : In x a) by (rewrite <- E; apply in_rev; rewrite rev_involutive; left; reflexivity).
    rewrite forallb_forall in Ha. rewrite (Ha x Hin) in Hx. discriminate.
  - assert (E' : x :: l = (rev (y :: d) ++ rev a)%list).
    { rewrite <- rev_app_distr, <- E, rev_involutive. reflexivity. }
    destruct (rev (y :: d)) as [|z r] eqn:Hr.
    + apply (f_equal (@List.length A)) in Hr. rewrite length_rev in Hr.
      discriminate.
    + cbn [app] in E'. injection E' as -> _. exists r. reflexivity.
Qed.
End Dropwhile.

Lemma strip_by_spec (f : ascii -> bool) (l : list ascii) :
  exists before after,
    l = (before ++ strip_by f l ++ after)%list
    /\ forallb f before = true /\ forallb f after = true
    /\ match strip_by f l with [] => True | c :: _ => f c = false end
    /\ match rev (strip_by f l) with [] => True | c :: _ => f c = false end.
Proof.
  unfold strip_by, rstrip_by, lstrip_by.
  destruct (dropwhile_split f l) as (before & E1 & Hb).
  set (m := dropwhile f l) in *.
  destruct (dropwhile_split f (rev m)) as (a & E2 & Ha).
  exists before, (rev a). repeat split.
  - rewrite <- rev_app_distr, <- E2, rev_involutive. exact E1.
  - exact Hb.
  - rewrite forallb_forall in *. intros x Hx. apply Ha. apply in_rev. exact Hx.
  - pose proof (dropwhile_head f l) as Hh. fold m in Hh.
    destruct m as [|x r]; [reflexivity|].
    destruct (rstrip_keeps_head f x r Hh) as (r' & ->). exact Hh.
  - rewrite rev_involutive. apply dropwhile_head.
Qed.

Lemma strip_is_strip_of (s : string) : strip_of (strip s) s.
Proof.
  unfold strip_of, strip, trimmed.
  rewrite list_ascii_of_string_of_list_ascii.
  destruct (strip_by_spec isspace (list_ascii_of_string s))
    as (before & after & E & Hb & Ha & Hh & Hl).
  exists before, after. repeat split; assumption.
Qed.

(* ================================================================== *)
(** * Facts about the display image *)

Lemma find_primary_stable rows :
  match find ProductImage.is_primary rows with
  | Some i => Some (ProductImage.image_url i)
  | None => match rows with
            | first :: _ => Some (ProductImage.image_url first)
            | [] => None
            end
  end = effective_image rows.
Proof.
  unfold effective_image, stable_order.
  induction rows as [|x r IH]; [reflexivity|].
  cbn [find filter]. destruct (ProductImage.is_primary x) eqn:Hx; cbn [negb app]; [reflexivity|].
  destruct (find ProductImage.is_primary r) as [i|] eqn:Hf.
  - destruct (filter ProductImage.is_primary r) as [|y t] eqn:Hp.
    + exfalso. apply find_some in Hf. destruct Hf as [Hin Hi].
      assert (Hin' : In i (filter ProductImage.is_primary r)) by (apply filter_In; auto).
      rewrite Hp in Hin'. exact Hin'.
    + cbn [app]. destruct r as [|z r']; [discriminate|].
      cbn [app] in IH. exact IH.
  - assert (Hnone : filter ProductImage.is_primary r = []).
    { destruct (filter ProductImage.is_primary r) as [|y t] eqn:Hp; [reflexivity|].
      exfalso. assert (Hin : In y (filter ProductImage.is_primary r)) by (rewrite Hp; left; reflexivity).
      apply filter_In in Hin. destruct Hin as [Hin Hy].
      rewrite (find_none _ _ Hf y Hin) in Hy. discriminate. }
    rewrite Hnone. reflexivity.
Qed.

(** Inserting in its place an image older than all of a sorted list. *)
Lemma insert_older x (l : list ProductImage.t) :
  Forall (fun y => ProductImage.id x < ProductImage.id y) l ->
  insert_by primary_then_id x (stable_order l) = stable_order (x :: l).
Proof.
  intros Hold. unfold stable_order. cbn [filter].
  destruct (ProductImage.is_primary x) eqn:Hx; cbn [negb app].
  - (* a primary image goes to the front *)
    destruct (filter ProductImage.is_primary l ++ filter (fun i => negb (ProductImage.is_primary i)) l)%list as [|y t] eqn:E;
      [reflexivity|].
    cbn [insert_by]. unfold primary_then_id at 1. rewrite Hx.
    assert (Hy : In y l).
    { assert (In y (filter ProductImage.is_primary l ++ filter (fun i => negb (ProductImage.is_primary i)) l)%list)
        by (rewrite E; left; reflexivity).
      apply in_app_or in H. destruct H as [H|H]; apply filter_In in H; tauto. }
    rewrite Forall_forall in Hold. specialize (Hold y Hy).
    destruct (ProductImage.is_primary y); cbn [negb andb].
    + destruct (Z.leb_spec (ProductImage.id x) (ProductImage.id y)); [reflexivity|lia].
    + reflexivity.
  - (* a secondary image passes the primary ones and stops there *)
    assert (Hpass : forall P,
      Forall (fun y => ProductImage.is_primary y = true) P ->
      insert_by primary_then_id x (P ++ filter (fun i => negb (ProductImage.is_primary i)) l)%list
      = (P ++ x :: filter (fun i => negb (ProductImage.is_primary i)) l)%list).
    { induction P as [|y P IH]; intros HP.
      - cbn [app]. destruct (filter (fun i => negb (ProductImage.is_primary i)) l) as [|y t] eqn:E; [reflexivity|].
        cbn [insert_by]. unfold primary_then_id. rewrite Hx. cbn [andb].
        assert (Hy : In y (filter (fun i => negb (ProductImage.is_primary i)) l)) by (rewrite E; left; reflexivity).
        apply filter_In in Hy. destruct Hy as [Hy Hsec].
        apply negb_true_iff in Hsec. rewrite Hsec. cbn [andb negb].
        rewrite Forall_forall in Hold. specialize (Hold y Hy).
        destruct (Z.leb_spec (ProductImage.id x) (ProductImage.id y)); [reflexivity|lia].
      - inversion HP as [|? ? Hy HP']; subst.
        cbn [app insert_by]. unfold primary_then_id at 1.
        rewrite Hx, Hy. cbn [andb negb]. rewrite (IH HP'). reflexivity. }
    apply Hpass. rewrite Forall_forall. intros y Hy.
    apply filter_In in Hy. tauto.
Qed.

Lemma order_by_primary_id_stable (l : list ProductImage.t) :
  ids_ascending l -> order_by_primary_id l = stable_order l.
Proof.
  unfold ids_ascending, order_by_primary_id.
  induction 1 as [|x l Hsorted IH Hx]; [reflexivity|].
  cbn [sort_by]. rewrite IH. apply insert_older. exact Hx.
Qed.

Lemma filter_ids_ascending (f : ProductImage.t -> bool) l :
  ids_ascending l -> ids_ascending (filter f l).
Proof.
  unfold ids_ascending. induction 1 as [|x l Hs IH Hx]; cbn [filter].
  - constructor.
  - destruct (f x); [|exact IH]. constructor; [exact IH|].
    rewrite Forall_forall in *. intros y Hy. apply filter_In in Hy.
    apply Hx. tauto.
Qed.


Lemma filter_all {A} (f : A -> bool) l :
  (forall x, In x l -> f x = true) -> filter f l = l.
Proof.
  induction l as [|x r IH]; intros H; [reflexivity|].
  cbn [filter]. rewrite (H x (or_introl eq_refl)).
  rewrite IH; [reflexivity|]. intros y Hy. apply H. right. exact Hy.
Qed.

Lemma filter_none {A} (f : A -> bool) l :
  (forall x, In x l -> f x = false) -> filter f l = [].
Proof.
  induction l as [|x r IH]; intros H; [reflexivity|].
  cbn [filter]. rewrite (H x (or_introl eq_refl)).
  apply IH. intros y Hy. apply H. right. exact Hy.
Qed.

Lemma stable_order_idem l : stable_order (stable_order l) = stable_order l.
Proof.
  unfold stable_order. rewrite !filter_app.
  rewrite (filter_all ProductImage.is_primary (filter ProductImage.is_primary l))
    by (intros x Hx; apply filter_In in Hx; tauto).
  rewrite (filter_none ProductImage.is_primary
             (filter (fun i => negb (ProductImage.is_primary i)) l))
    by (intros x Hx; apply filter_In in Hx; destruct Hx as [_ Hx];
        apply negb_true_iff in Hx; exact Hx).
  rewrite (filter_none (fun i => negb (ProductImage.is_primary i))
             (filter ProductImage.is_primary l))
    by (intros x Hx; apply filter_In in Hx; destruct Hx as [_ Hx];
        rewrite Hx; reflexivity).
  rewrite (filter_all (fun i => negb (ProductImage.is_primary i))
             (filter (fun i => negb (ProductImage.is_primary i)) l))
    by (intros x Hx; apply filter_In in Hx; tauto).
  rewrite app_nil_r. reflexivity.
Qed.

(** What [_get_primary_image] returns from the rows it iterates. *)
Lemma run_get_primary_image obj l s :
  pending l = [] ->
  run (_get_primary_image obj) l s
  = (inl (effective_image
            (match images_all obj with
             | Some (i :: r) => i :: r
             | _ => images_of s (Product.id (row obj))
             end)), l, s).
Proof.
  intros Hl. unfold _get_primary_image.
  assert (Hview : view_of l s = s) by (unfold view_of; rewrite Hl; reflexivity).
  destruct (images_all obj) as [[|i r]|];
    cbn [bind query run]; rewrite ?Hview;
    rewrite <- find_primary_stable;
    match goal with
    | |- context [find ProductImage.is_primary ?rows] =>
        destruct (find ProductImage.is_primary rows); cbn [run];
        [reflexivity | destruct rows; reflexivity]
    end.
Qed.

Lemma run_bind_get_primary_image {B} p (k : option string -> prog B) s :
  run (image <- _get_primary_image (mkProductObj p None) ;; k image) idle s
  = run (k (effective_image (images_of s (Product.id p)))) idle s.
Proof.
  unfold _get_primary_image. cbn [images_all row bind query run].
  change (view_of idle s) with s.
  rewrite <- find_primary_stable.
  destruct (find ProductImage.is_primary (images_of s (Product.id p)));
    cbn [bind]; [reflexivity|].
  destruct (images_of s (Product.id p)); reflexivity.
Qed.

(* ================================================================== *)
(** * Facts about the product pages *)

Lemma product_detail_GET slug request :
  method request = "GET" ->
  product_detail slug request = product_detail_body slug request.
Proof.
  intros H. unfold product_detail, require_GET, require_http_methods.
  rewrite H. reflexivity.
Qed.

Lemma product_quick_info_GET request :
  method request = "GET" ->
  product_quick_info request = product_quick_info_body request.
Proof.
  intros H. unfold product_quick_info, require_GET, require_http_methods.
  rewrite H. reflexivity.
Qed.

(** No row passes the filters of the detail page: not found. *)
Lemma product_detail_no_row slug request s :
  method request = "GET" ->
  visible_products_with_slug slug s = [] ->
  run (product_detail slug request) idle s = (inr Http404, idle, s).
Proof.
  intros Hm Hrows. rewrite (product_detail_GET slug request Hm).
  unfold product_detail_body, Product_get_by_slug.
  cbn [bind query run view_of idle pending fold_right].
  rewrite Hrows. reflexivity.
Qed.

(** The quick-info lookup, by the rows its filter selects. *)
Lemma product_quick_info_rows request s v u :
  method request = "GET" ->
  QueryDict_get "product_id" (GET request) = Some v ->
  UUID_of_hex v = Some u ->
  run (product_quick_info request) idle s
  = match active_products_with_id u s with
    | [] => (inr Http404, idle, s)
    | [p] =>
        (inl (JsonResponse
                (quick_info p (effective_image (images_of s (Product.id p))))
                200), idle, s)
    | _ :: _ :: _ => (inr MultipleObjectsReturned, idle, s)
    end.
Proof.
  intros Hm Hv Hu. rewrite (product_quick_info_GET request Hm).
  unfold product_quick_info_body. rewrite Hv.
  assert (Hne : truthy (or_else (Some v) "") = true).
  { cbn [or_else]. destruct (truthy v) eqn:Ht; [exact Ht|].
    apply truthy_false_iff in Ht. subst v. vm_compute in Hu. discriminate. }
  rewrite Hne. cbn [negb]. unfold Product_get_by_id. rewrite Hu.
  cbn [bind query run view_of idle pending fold_right].
  destruct (active_products_with_id u s) as [|p [|p' rows]];
    cbn [get_or_404 lift bind run ok throw]; try reflexivity.
  rewrite run_bind_get_primary_image. reflexivity.
Qed.

(** In a table with a unique key, the rows a filter selects through the
    key of [x] are [x] alone. *)
Lemma filter_unique_key {A K} (key : A -> K) (g : A -> bool) (l : list A) x :
  NoDup (map key l) -> In x l -> g x = true ->
  (forall y, g y = true -> key y = key x) ->
  filter g l = [x].
Proof.
  intros Hnd Hin Hgx Hkey.
  induction l as [|y r IH]; [contradiction|].
  cbn [map] in Hnd. inversion Hnd as [|? ? Hny Hnd']; subst.
  cbn [filter]. destruct Hin as [-> | Hin].
  - rewrite Hgx. f_equal. apply filter_none. intros z Hz.
    destruct (g z) eqn:Hgz; [|reflexivity].
    exfalso. apply Hny. rewrite <- (Hkey z Hgz). apply in_map. exact Hz.
  - destruct (g y) eqn:Hgy.
    + exfalso. apply Hny. rewrite (Hkey y Hgy). apply in_map. exact Hin.
    + apply IH; assumption.
Qed.

Lemma unique_key_inj {A K} (key : A -> K) (l : list A) x y :
  NoDup (map key l) -> In x l -> In y l -> key x = key y -> x = y.
Proof.
  intros Hnd. induction l as [|z r IH]; [contradiction|].
  cbn [map] in Hnd. inversion Hnd as [|? ? Hnz Hnd']; subst.
  intros [-> | Hx] [-> | Hy] E.
  - reflexivity.
  - exfalso. apply Hnz. rewrite E. apply in_map. exact Hy.
  - exfalso. apply Hnz. rewrite <- E. apply in_map. exact Hx.
  - apply IH; assumption.
Qed.

(* ================================================================== *)
(** * Facts about two placements under a schedule

    The placement of Asha after [i] operations, that of Ravi after [j],
    and the database after the commits [c] make up every state the two
    requests can reach together. *)

Ltac inconsistent H :=
  cbn [consistent Nat.ltb Nat.eqb Nat.leb andb] in H;
  rewrite ?andb_false_r in H; discriminate H.

Lemma asha_steps i j c :
  consistent i j c = true ->
  step_thread (asha_at i) (depot_after c)
  = (asha_at (Nat.min (S i) 6),
     if Nat.eqb i 5 then depot_after (asha_commits c) else depot_after c).
Proof.
  intros H.
  do 7 (destruct i as [|i];
        [destruct c; first [inconsistent H | reflexivity]|]).
  destruct c; inconsistent H.
Qed.

Lemma ravi_steps i j c :
  consistent i j c = true ->
  step_thread (ravi_at j) (depot_after c)
  = (ravi_at (Nat.min (S j) 6),
     if Nat.eqb j 5 then depot_after (ravi_commits c) else depot_after c).
Proof.
  intros H.
  do 7 (destruct j as [|j];
        [destruct c; first [inconsistent H | reflexivity]|]).
  destruct c; inconsistent H.
Qed.

Lemma consistent_asha i j c :
  consistent i j c = true ->
  consistent (Nat.min (S i) 6) j
             (if Nat.eqb i 5 then asha_commits c else c) = true.
Proof.
  intros H.
  do 7 (destruct i as [|i];
        [destruct c; first [inconsistent H | exact H]|]).
  destruct c; inconsistent H.
Qed.

Lemma consistent_ravi i j c :
  consistent i j c = true ->
  consistent i (Nat.min (S j) 6)
             (if Nat.eqb j 5 then ravi_commits c else c) = true.
Proof.
  intros H.
  do 7 (destruct j as [|j];
        [destruct c; first [inconsistent H | exact H]|]).
  destruct c; inconsistent H.
Qed.

Lemma interleave_consistent schedule :
  forall i j c,
    consistent i j c = true ->
    exists i' j' c',
      consistent i' j' c' = true
      /\ interleave schedule (asha_at i) (ravi_at j) (depot_after c)
         = (asha_at i', ravi_at j', depot_after c').
Proof.
  induction schedule as [|pick rest IH]; intros i j c H.
  - exists i, j, c. split; [exact H | reflexivity].
  - cbn [interleave]. destruct pick.
    + rewrite (asha_steps i j c H).
      pose proof (consistent_asha i j c H) as H'.
      destruct (Nat.eqb i 5); apply IH; exact H'.
    + rewrite (ravi_steps i j c H).
      pose proof (consistent_ravi i j c H) as H'.
      destruct (Nat.eqb j 5); apply IH; exact H'.
Qed.

Lemma finish_consistent i j c :
  consistent i j c = true ->
  finish (asha_at i) (ravi_at j) (depot_after c)
  = (told_something_went_wrong, told_something_went_wrong,
     depot_after (ravi_commits (asha_commits c))).
Proof.
  intros H.
  do 7 (destruct i as [|i];
        [do 7 (destruct j as [|j];
               [destruct c;
                first [inconsistent H | vm_compute; reflexivity]|]);
         destruct c; inconsistent H|]).
  destruct c; inconsistent H.
Qed.

(* ================================================================== *)
(** * The properties of the specification *)

(** ** Totals *)

(** C2, as the code has it.  For every stored price [p] (non-negative, two
    decimal places) and requested quantity [q] such that [p * max(q, 1)],
    counted in hundredths, stays below [10^28] (the 28 digits of the
    decimal context), [_calc_totals] returns
    [subtotal = round(p * max(q, 1), 2 decimals)], [delivery_fee = 20.00]
    when [subtotal < 200.00] and [0.00] otherwise (so a subtotal of exactly
    200.00 is delivered free), and
    [total = round(subtotal + delivery_fee, 2 decimals)]. *)
Theorem calc_totals_within_precision (product : Product.t) (q : Z) :
  stored_price (Product.price product) ->
  Z.of_N (_int (Product.price product)) * Z.max q 1 < 10 ^ 28 ->
  exists subtotal delivery_fee total,
    _calc_totals product q = ok (subtotal, delivery_fee, total)
    /\ (Decimal_value subtotal
        == round_2dp (Decimal_value (Product.price product)
                      * inject_Z (Z.max q 1)))%Q
    /\ ((Decimal_value subtotal < inject_Z 200)%Q ->
        delivery_fee = Decimal_20_00)
    /\ (~ (Decimal_value subtotal < inject_Z 200)%Q ->
        delivery_fee = Decimal_0_00)
    /\ (Decimal_value total
        == round_2dp (Decimal_value subtotal + Decimal_value delivery_fee))%Q
    /\ _exp subtotal = -2 /\ _exp delivery_fee = -2 /\ _exp total = -2.
Proof.
  intros Hstored Hb.
  pose proof (stored_price_cents _ Hstored) as Hprice.
  set (c := _int (Product.price product)) in *.
  pose proof (calc_totals_cents product q c Hprice Hb) as Htot.
  cbv zeta in Htot.
  set (m := Z.max q 1) in *. set (s := (c * Z.to_N m)%N) in *.
  assert (Hm : 1 <= m) by (unfold m; lia).
  assert (Hsub : (Decimal_value (mkDecimal false s (-2))
                  == round_2dp (Decimal_value (Product.price product)
                                * inject_Z m))%Q).
  { rewrite Hprice, !Decimal_value_cents. symmetry. apply round_2dp_cents.
    unfold Qeq, Qmult, inject_Z. cbn [Qnum Qden]. unfold s.
    rewrite N2Z.inj_mul, Z2N.id by lia. lia. }
  eexists _, _, _. split; [exact Htot|].
  destruct (N.ltb_spec s 20000) as [Hlt|Hge].
  - repeat split; try reflexivity; try assumption.
    + intros Hn. exfalso. apply Hn. rewrite Decimal_value_cents.
      unfold Qlt, inject_Z. cbn [Qnum Qden]. lia.
    + rewrite !Decimal_value_cents. symmetry. apply round_2dp_cents.
      unfold Decimal_20_00. rewrite Decimal_value_cents.
      unfold Qeq, Qplus. cbn [Qnum Qden]. lia.
  - repeat split; try reflexivity; try assumption.
    + intros Hl. exfalso. rewrite Decimal_value_cents in Hl.
      unfold Qlt, inject_Z in Hl. cbn [Qnum Qden] in Hl. lia.
    + rewrite !Decimal_value_cents. symmetry. apply round_2dp_cents.
      unfold Decimal_0_00. rewrite Decimal_value_cents.
      unfold Qeq, Qplus. cbn [Qnum Qden]. lia.
Qed.

Lemma calc_totals_within_precision_witness :
  stored_price (Product.price can)
  /\ Z.of_N (_int (Product.price can)) * Z.max 2 1 < 10 ^ 28
  /\ exists subtotal delivery_fee total,
       _calc_totals can 2 = ok (subtotal, delivery_fee, total)
       /\ (Decimal_value subtotal
           == round_2dp (Decimal_value (Product.price can)
                         * inject_Z (Z.max 2 1)))%Q
       /\ ((Decimal_value subtotal < inject_Z 200)%Q ->
           delivery_fee = Decimal_20_00)
       /\ (~ (Decimal_value subtotal < inject_Z 200)%Q ->
           delivery_fee = Decimal_0_00)
       /\ (Decimal_value total
           == round_2dp (Decimal_value subtotal + Decimal_value delivery_fee))%Q
       /\ _exp subtotal = -2 /\ _exp delivery_fee = -2 /\ _exp total = -2.
Proof.
  split; [repeat split; reflexivity|].
  split; [reflexivity|].
  apply (calc_totals_within_precision can 2).
  - repeat split; reflexivity.
  - reflexivity.
Defined.

(** C2 as worded fails: at price 150.00 and quantity [10^26] the exact
    product has 31 digits, the multiplication rounds it to 28, and
    [quantize] to two places raises [InvalidOperation]; nothing is
    returned. *)
Lemma calc_totals_beyond_precision :
  stored_price (Product.price can)
  /\ _calc_totals can (10 ^ 26) = throw InvalidOperation
  /\ ~ (exists subtotal delivery_fee total,
          _calc_totals can (10 ^ 26) = ok (subtotal, delivery_fee, total)).
Proof.
  split; [repeat split; reflexivity|].
  assert (H : _calc_totals can (10 ^ 26) = throw InvalidOperation)
    by (vm_compute; reflexivity).
  split; [exact H|].
  intros (a & b & c & E). rewrite H in E. discriminate.
Qed.

(** The bound is the last quantity that works: at one hundredth apiece,
    [10^28 - 1] units are still totalled and [10^28] are not. *)
Example totals_last_within :
  _calc_totals sachet (10 ^ 28 - 1)
  = ok (mkDecimal false 9999999999999999999999999999 (-2), Decimal_0_00,
        mkDecimal false 9999999999999999999999999999 (-2)).
Proof. vm_compute. reflexivity. Qed.

Example totals_first_beyond :
  _calc_totals sachet (10 ^ 28) = throw InvalidOperation.
Proof. vm_compute. reflexivity. Qed.

(** The three worked totals of the specification. *)
Example totals_150_by_2 :
  _calc_totals can 2
  = ok (mkDecimal false 30000 (-2), Decimal_0_00, mkDecimal false 30000 (-2)).
Proof. reflexivity. Qed.

Example totals_50_by_1 :
  _calc_totals jar 1
  = ok (mkDecimal false 5000 (-2), Decimal_20_00, mkDecimal false 7000 (-2)).
Proof. reflexivity. Qed.

Example totals_at_threshold :
  _calc_totals jar 4
  = ok (mkDecimal false 20000 (-2), Decimal_0_00, mkDecimal false 20000 (-2)).
Proof. reflexivity. Qed.

(** ** Order placement *)

(** C3.  An order submission that fails a validation step (a required
    field empty after trimming, an unknown or inactive product or branch,
    or insufficient stock) is turned away with an error notice and leaves
    the whole database as it was: no [Order] row is created and no stock
    quantity changes.  The first case covers an empty [customer_name]. *)
Theorem failed_validation_changes_nothing request s :
  method request = "POST" ->
  missing_required_field request
  \/ unknown_or_inactive_product s request
  \/ unknown_or_inactive_branch s request
  \/ insufficient_stock s request ->
  exists notice, run (create_order request) idle s = rejected notice s.
Proof.
  intros Hm Hfail.
  destruct (create_order_rejected_or_validated request s Hm)
    as [Hrej | (p & b & n & H1 & H2 & H3 & H4 & Hp & Hb & Hn & Hstock)];
    [exact Hrej | exfalso].
  destruct Hfail as [Hmiss | [Hprod | [Hbr | Hins]]].
  - destruct Hmiss as [E | [E | [E | E]]]; congruence.
  - destruct Hp as (v & u & Hpid & Hu & Hrows).
    apply filter_singleton_In in Hrows. destruct Hrows as [Hin Hact].
    apply andb_prop in Hact. destruct Hact as [Hid Hact].
    apply Z.eqb_eq in Hid.
    rewrite (Hprod v u Hpid Hu p Hin Hid) in Hact. discriminate.
  - destruct Hb as (v & k & Hbid & Hk & Hrows).
    apply filter_singleton_In in Hrows. destruct Hrows as [Hin Hact].
    apply andb_prop in Hact. destruct Hact as [Hid Hact].
    apply Z.eqb_eq in Hid.
    rewrite (Hbr v k Hbid Hk b Hin Hid) in Hact. discriminate.
  - destruct Hins as (p' & n' & Hp' & Hn' & Htrack & Hlow).
    destruct Hp as (v & u & Hpid & Hu & Hrows).
    destruct Hp' as (v' & u' & Hpid' & Hu' & Hrows').
    assert (v' = v) by congruence. subst v'.
    assert (u' = u) by congruence. subst u'.
    assert (p' = p) by congruence. subst p'.
    destruct Hn as (m & Hq & ->). destruct Hn' as (m' & Hq' & ->).
    assert (m' = m) by (unfold ok in *; congruence). subst m'.
    specialize (Hstock Htrack). lia.
Qed.

Lemma failed_validation_changes_nothing_witness :
  method blank_name_form = "POST"
  /\ (missing_required_field blank_name_form
      \/ unknown_or_inactive_product depot blank_name_form
      \/ unknown_or_inactive_branch depot blank_name_form
      \/ insufficient_stock depot blank_name_form)
  /\ exists notice,
       run (create_order blank_name_form) idle depot = rejected notice depot.
Proof.
  split; [reflexivity|].
  split; [left; left; reflexivity|].
  apply (failed_validation_changes_nothing blank_name_form depot).
  - reflexivity.
  - left. left. reflexivity.
Defined.

(** The second half of C1, which the code keeps: a tracked product asked
    for more than it holds is refused with the insufficient-stock notice
    and its stock stays as it was. *)
Example insufficient_stock_is_refused :
  run (create_order (order_form can_uuid "6")) idle depot
  = rejected (StrOf (ValidationError "Not enough stock available.")) depot.
Proof. vm_compute. reflexivity. Qed.

(** C1 at a failing input.  The product [can] tracks inventory and holds
    5 units; the submission asks for 2.  The view inserts the order row,
    then evaluates [models.F("stock_qty")], a name [views.py] never binds:
    the [NameError] is caught by [except Exception], the customer is shown
    the generic error, the transaction commits the order, and the stock is
    still 5, not 3. *)
Theorem tracked_order_keeps_stock :
  Product.track_inventory can = true
  /\ Product.stock_qty can = 5
  /\ run (create_order (order_form can_uuid "2")) idle depot
     = (inl (HttpResponseRedirect "/services/"),
        mkLocal [] [something_went_wrong],
        mkStore [can; jar] (categories depot) (branches depot) []
          [Order.mk "Asha" "asha@example.in" "9900000000" can_id 3 2
                    "12 Lake Road" None "pending"
                    (mkDecimal false 30000 (-2)) Decimal_0_00
                    (mkDecimal false 30000 (-2))]
          []).
Proof.
  split; [reflexivity|]. split; [reflexivity|].
  vm_compute. reflexivity.
Qed.

(** C4, as the code has it.  For a submission that passes the other
    validations, the quantity field being absent, empty, or an integer
    below 1 is not fatal: the order row is recorded with quantity 1 (and,
    for a product that does not track inventory, the success notice is
    shown).  A non-empty quantity that [int] does not parse is fatal: the
    submission is turned away with the generic error and no row is
    recorded. *)
Theorem quantity_coercion request s p b :
  method request = "POST" ->
  post_field request "customer_name" <> "" ->
  post_field request "customer_email" <> "" ->
  post_field request "customer_mobile" <> "" ->
  post_field request "delivery_address" <> "" ->
  submitted_product s request p ->
  submitted_branch s request b ->
  stored_price (Product.price p) ->
  (Product.track_inventory p = true -> 1 <= Product.stock_qty p) ->
  (quantity_below_one request ->
   exists o notices,
     run (create_order request) idle s
     = (inl (HttpResponseRedirect "/services/"), mkLocal [] notices,
        apply_write (InsertOrder o) s)
     /\ Order.quantity o = 1
     /\ Order.product o = Product.id p
     /\ (Product.track_inventory p = false -> notices = [order_placed]))
  /\ (quantity_unparsable request ->
      run (create_order request) idle s
      = rejected (Text "Something went wrong while placing the order.") s).
Proof.
  intros Hm H1 H2 H3 H4 Hp Hb Hprice Hstock. split.
  - intros Hq. apply quantity_below_one_submits_one in Hq.
    destruct (calc_totals_one_unit p Hprice)
      as (subtotal & fee & total & Htot & Hc1 & Hc2 & Hc3).
    eexists _, _. split.
    + apply (create_order_placed request s p b 1 subtotal fee total
               subtotal fee total); assumption.
    + repeat split. intros Ht. rewrite Ht. reflexivity.
  - intros Hq. apply create_order_quantity_unparsable; assumption.
Qed.

(** A form asking for -3 units of a product that does not track
    inventory. *)
Lemma quantity_coercion_witness :
  method (order_form jar_uuid "-3") = "POST"
  /\ post_field (order_form jar_uuid "-3") "customer_name" <> ""
  /\ post_field (order_form jar_uuid "-3") "customer_email" <> ""
  /\ post_field (order_form jar_uuid "-3") "customer_mobile" <> ""
  /\ post_field (order_form jar_uuid "-3") "delivery_address" <> ""
  /\ submitted_product depot (order_form jar_uuid "-3") jar
  /\ submitted_branch depot (order_form jar_uuid "-3") (Branch.mk 3 1 "Main road" None None true)
  /\ stored_price (Product.price jar)
  /\ (Product.track_inventory jar = true -> 1 <= Product.stock_qty jar)
  /\ quantity_below_one (order_form jar_uuid "-3")
  /\ exists o notices,
       run (create_order (order_form jar_uuid "-3")) idle depot
       = (inl (HttpResponseRedirect "/services/"), mkLocal [] notices,
          apply_write (InsertOrder o) depot)
       /\ Order.quantity o = 1
       /\ Order.product o = Product.id jar
       /\ (Product.track_inventory jar = false -> notices = [order_placed]).
Proof.
  assert (F1 : post_field (order_form jar_uuid "-3") "customer_name" <> "")
    by (vm_compute; discriminate).
  assert (F2 : post_field (order_form jar_uuid "-3") "customer_email" <> "")
    by (vm_compute; discriminate).
  assert (F3 : post_field (order_form jar_uuid "-3") "customer_mobile" <> "")
    by (vm_compute; discriminate).
  assert (F4 : post_field (order_form jar_uuid "-3") "delivery_address" <> "")
    by (vm_compute; discriminate).
  assert (P : submitted_product depot (order_form jar_uuid "-3") jar).
  { exists jar_uuid, jar_id. repeat split; vm_compute; reflexivity. }
  assert (B : submitted_branch depot (order_form jar_uuid "-3")
                (Branch.mk 3 1 "Main road" None None true)).
  { exists "3", 3. repeat split; vm_compute; reflexivity. }
  assert (S : stored_price (Product.price jar)) by (repeat split; reflexivity).
  assert (T : Product.track_inventory jar = true -> 1 <= Product.stock_qty jar)
    by (simpl; discriminate).
  assert (Q : quantity_below_one (order_form jar_uuid "-3")).
  { right. right. exists "-3", (-3). repeat split; vm_compute; reflexivity. }
  repeat (split; [first [reflexivity | assumption]|]).
  exact (proj1 (quantity_coercion (order_form jar_uuid "-3") depot jar _
                  eq_refl F1 F2 F3 F4 P B S T) Q).
Defined.

(** C4 as worded fails: the same form goes through with quantity ["1"]
    and is turned away with quantity ["abc"], which [int] refuses; the
    [ValueError] reaches [except Exception] and no order is recorded. *)
Lemma unparsable_quantity_is_fatal :
  py_int 10 "abc" = None
  /\ run (create_order (order_form jar_uuid "1")) idle depot
     = (inl (HttpResponseRedirect "/services/"), mkLocal [] [order_placed],
        apply_write
          (InsertOrder
             (Order.mk "Asha" "asha@example.in" "9900000000" jar_id 3 1
                       "12 Lake Road" None "pending"
                       (mkDecimal false 5000 (-2)) Decimal_20_00
                       (mkDecimal false 7000 (-2))))
          depot)
  /\ run (create_order (order_form jar_uuid "abc")) idle depot
     = rejected (Text "Something went wrong while placing the order.") depot.
Proof.
  split; [reflexivity|].
  split; vm_compute; reflexivity.
Qed.

(** ** Contact form *)

(** C5.  A contact submission with any of the four fields (name, email,
    subject, message) empty after trimming is turned away with the single
    notice "All fields are required." and nothing is persisted; with all
    four non-empty after trimming, exactly one [ContactMessage] row is
    appended, holding each submitted value with only its surrounding
    whitespace removed. *)
Theorem contact_submission request s :
  method request = "POST" ->
  (strip (submitted request "name") = ""
   \/ strip (submitted request "email") = ""
   \/ strip (submitted request "subject") = ""
   \/ strip (submitted request "message") = "" ->
   run (contact_submit request) idle s
   = (inl (HttpResponseRedirect "/contact/"),
      mkLocal [] [all_fields_required], s))
  /\ (strip (submitted request "name") <> ""
      /\ strip (submitted request "email") <> ""
      /\ strip (submitted request "subject") <> ""
      /\ strip (submitted request "message") <> "" ->
      exists m,
        run (contact_submit request) idle s
        = (inl (HttpResponseRedirect "/contact/"),
           mkLocal [] [message_received],
           mkStore (products s) (categories s) (branches s)
                   (product_images s) (orders s)
                   (contact_messages s ++ [m]))
        /\ strip_of (ContactMessage.name m) (submitted request "name")
        /\ strip_of (ContactMessage.email m) (submitted request "email")
        /\ strip_of (ContactMessage.subject m) (submitted request "subject")
        /\ strip_of (ContactMessage.message m) (submitted request "message")).
Proof.
  intros Hm.
  unfold contact_submit, require_http_methods. rewrite Hm.
  cbn [existsb String.eqb Ascii.eqb Bool.eqb orb].
  unfold contact_submit_body, ContactMessage_objects_create.
  change (redirect_reverse "contact")
    with (@Ret HttpResponse (HttpResponseRedirect "/contact/")).
  fold (submitted request "name"). fold (submitted request "email").
  fold (submitted request "subject"). fold (submitted request "message").
  split.
  - intros Hblank.
    assert (Hcond :
      negb (truthy (strip (submitted request "name")))
      || negb (truthy (strip (submitted request "email")))
      || negb (truthy (strip (submitted request "subject")))
      || negb (truthy (strip (submitted request "message"))) = true).
    { rewrite !orb_true_iff, !negb_true_iff, !truthy_false_iff. tauto. }
    rewrite Hcond. reflexivity.
  - intros (H1 & H2 & H3 & H4).
    rewrite <- truthy_true_iff in H1, H2, H3, H4.
    rewrite H1, H2, H3, H4. cbn [negb orb].
    eexists. split; [reflexivity|].
    cbn [ContactMessage.name ContactMessage.email ContactMessage.subject
         ContactMessage.message].
    repeat split; apply strip_is_strip_of.
Qed.

Lemma contact_submission_witness :
  method (contact_form " Asha " "asha@example.in" "Delivery" "Call me. ")
  = "POST"
  /\ (strip (submitted (contact_form " Asha " "asha@example.in" "Delivery"
                          "Call me. ") "name") <> ""
      /\ strip (submitted (contact_form " Asha " "asha@example.in" "Delivery"
                             "Call me. ") "email") <> ""
      /\ strip (submitted (contact_form " Asha " "asha@example.in" "Delivery"
                             "Call me. ") "subject") <> ""
      /\ strip (submitted (contact_form " Asha " "asha@example.in" "Delivery"
                             "Call me. ") "message") <> "")
  /\ run (contact_submit
            (contact_form " Asha " "asha@example.in" "Delivery" "Call me. "))
         idle depot
     = (inl (HttpResponseRedirect "/contact/"),
        mkLocal [] [message_received],
        mkStore (products depot) (categories depot) (branches depot)
                (product_images depot) (orders depot)
                [ContactMessage.mk "Asha" "asha@example.in" "Delivery"
                                   "Call me."]).
Proof.
  assert (F : strip (submitted (contact_form " Asha " "asha@example.in"
                                  "Delivery" "Call me. ") "name") <> ""
              /\ strip (submitted (contact_form " Asha " "asha@example.in"
                                     "Delivery" "Call me. ") "email") <> ""
              /\ strip (submitted (contact_form " Asha " "asha@example.in"
                                     "Delivery" "Call me. ") "subject") <> ""
              /\ strip (submitted (contact_form " Asha " "asha@example.in"
                                     "Delivery" "Call me. ") "message") <> "")
    by (repeat split; vm_compute; discriminate).
  split; [reflexivity|]. split; [exact F|].
  destruct (proj2 (contact_submission
                     (contact_form " Asha " "asha@example.in" "Delivery"
                        "Call me. ") depot eq_refl) F)
    as (m & Hrun & _).
  rewrite Hrun. vm_compute in Hrun.
  injection Hrun as <-. reflexivity.
Defined.

(** A blank subject: nothing is stored. *)
Example contact_blank_subject :
  run (contact_submit (contact_form "Asha" "asha@example.in" "  " "Hello"))
      idle depot
  = (inl (HttpResponseRedirect "/contact/"),
     mkLocal [] [all_fields_required], depot).
Proof. vm_compute. reflexivity. Qed.

(** ** Display image *)

(** C6.  Whether a product comes with its images prefetched in the order
    [("-is_primary", "id")] or plain, [_get_primary_image] returns the
    first image of the stable order (primary first, then insertion order):
    nothing when the product has no images; the URL of the image flagged
    primary when there is one, wherever it was inserted; otherwise the URL
    of the first image inserted. *)
Theorem effective_display_image s p obj :
  ids_ascending (product_images s) ->
  obj = plain p \/ obj = prefetched s p ->
  let rows := images_of s (Product.id p) in
  run (_get_primary_image obj) idle s = (inl (effective_image rows), idle, s)
  /\ (rows = [] -> effective_image rows = None)
  /\ (forall i,
        In i rows -> ProductImage.is_primary i = true ->
        (forall j, In j rows -> ProductImage.is_primary j = true -> j = i) ->
        effective_image rows = Some (ProductImage.image_url i))
  /\ (forall first rest,
        rows = first :: rest ->
        (forall j, In j rows -> ProductImage.is_primary j = false) ->
        effective_image rows = Some (ProductImage.image_url first)).
Proof.
  intros Hasc Hobj rows. split; [|split; [|split]].
  - rewrite run_get_primary_image by reflexivity.
    destruct Hobj as [-> | ->]; cbn [images_all row plain prefetched];
      [reflexivity|].
    unfold prefetch_images_all. fold rows.
    rewrite order_by_primary_id_stable
      by (apply filter_ids_ascending; exact Hasc).
    destruct (stable_order rows) as [|i r] eqn:E.
    + reflexivity.
    + rewrite <- E. unfold effective_image at 1.
      rewrite stable_order_idem. reflexivity.
  - intros ->. reflexivity.
  - intros i Hin Hprim Huniq. unfold effective_image, stable_order.
    destruct (filter ProductImage.is_primary rows) as [|j t] eqn:E.
    + exfalso. assert (H : In i (filter ProductImage.is_primary rows))
        by (apply filter_In; auto).
      rewrite E in H. exact H.
    + assert (H : In j (filter ProductImage.is_primary rows))
        by (rewrite E; left; reflexivity).
      apply filter_In in H. destruct H as [Hj Hpj].
      rewrite (Huniq j Hj Hpj). reflexivity.
  - intros first rest Hrows Hnone. unfold effective_image, stable_order.
    rewrite (filter_none ProductImage.is_primary rows Hnone).
    rewrite (filter_all (fun i => negb (ProductImage.is_primary i)) rows)
      by (intros x Hx; rewrite (Hnone x Hx); reflexivity).
    rewrite Hrows. reflexivity.
Qed.

(** The product [can] of [shop]: the side view was inserted first, the
    front view second and flagged primary; prefetched or not, the front
    view is displayed. *)
Lemma effective_display_image_witness :
  ids_ascending (product_images shop)
  /\ (prefetched shop can = plain can \/ prefetched shop can = prefetched shop can)
  /\ run (_get_primary_image (prefetched shop can)) idle shop
     = (inl (Some "https://img/front.png"), idle, shop).
Proof.
  assert (A : ids_ascending (product_images shop)).
  { unfold ids_ascending. simpl. repeat constructor. }
  split; [exact A|]. split; [right; reflexivity|].
  exact (proj1 (effective_display_image shop can (prefetched shop can) A
                  (or_intror eq_refl))).
Defined.

Example display_image_plain :
  run (_get_primary_image (plain can)) idle shop
  = (inl (Some "https://img/front.png"), idle, shop).
Proof. reflexivity. Qed.

Example display_image_none :
  run (_get_primary_image (plain bottle)) idle shop = (inl None, idle, shop).
Proof. reflexivity. Qed.

(** ** Product pages *)

(** C7.  Requesting [/product/<slug>/] for a slug that belongs to no
    product, or only to an inactive one, raises [Http404]; the product is
    never rendered. *)
Theorem product_detail_not_found slug request s :
  method request = "GET" ->
  (forall p, In p (products s) -> Product.slug p = slug ->
             Product.is_active p = false) ->
  run (product_detail slug request) idle s = (inr Http404, idle, s)
  /\ (forall response,
        fst (fst (run (product_detail slug request) idle s)) <> inl response).
Proof.
  intros Hm Hslug.
  assert (Hrun : run (product_detail slug request) idle s
                 = (inr Http404, idle, s)).
  { apply product_detail_no_row; [exact Hm|].
    unfold visible_products_with_slug. apply filter_none. intros p Hp.
    destruct (String.eqb_spec (Product.slug p) slug) as [E|]; [|reflexivity].
    rewrite (Hslug p Hp E). reflexivity. }
  split; [exact Hrun|].
  intros response. rewrite Hrun. discriminate.
Qed.

(** The slug of the retired product of [shop]. *)
Lemma product_detail_not_found_witness :
  method (page_request "http://shop/product/can-10l/") = "GET"
  /\ (forall p, In p (products shop) -> Product.slug p = "can-10l" ->
                Product.is_active p = false)
  /\ run (product_detail "can-10l" (page_request "http://shop/product/can-10l/"))
         idle shop
     = (inr Http404, idle, shop).
Proof.
  assert (H : forall p, In p (products shop) -> Product.slug p = "can-10l" ->
                        Product.is_active p = false).
  { intros p [<- | [<- | [<- | []]]] E;
      first [reflexivity | vm_compute in E; discriminate]. }
  split; [reflexivity|]. split; [exact H|].
  exact (proj1 (product_detail_not_found "can-10l"
                  (page_request "http://shop/product/can-10l/") shop
                  eq_refl H)).
Defined.

Example product_detail_unknown_slug :
  run (product_detail "no-such-thing" (page_request "")) idle shop
  = (inr Http404, idle, shop).
Proof. reflexivity. Qed.

(** C8, as the code has it.  Without a [product_id] parameter (or with an
    empty one) the quick-info endpoint answers status 400 with the body
    [{"error": "product_id required"}]; given a well-formed identifier
    that no product bears, or only an inactive one, it raises [Http404];
    given the identifier of an active product it answers with that
    product's name, price, inventory flag, stock quantity and effective
    display image (and its identifier); given a value that is not a UUID
    it raises the validation error of the identifier's conversion. *)
Theorem product_quick_info_cases request s :
  method request = "GET" ->
  (QueryDict_get "product_id" (GET request) = None
   \/ QueryDict_get "product_id" (GET request) = Some "" ->
   run (product_quick_info request) idle s
   = (inl (JsonResponse [("error", JStr "product_id required")] 400),
      idle, s))
  /\ (forall v u,
        QueryDict_get "product_id" (GET request) = Some v ->
        UUID_of_hex v = Some u ->
        (forall p, In p (products s) -> Product.id p = u ->
                   Product.is_active p = false) ->
        run (product_quick_info request) idle s = (inr Http404, idle, s))
  /\ (forall v u p,
        QueryDict_get "product_id" (GET request) = Some v ->
        UUID_of_hex v = Some u ->
        active_products_with_id u s = [p] ->
        run (product_quick_info request) idle s
        = (inl (JsonResponse
                  (quick_info p (effective_image (images_of s (Product.id p))))
                  200), idle, s))
  /\ (forall v,
        QueryDict_get "product_id" (GET request) = Some v ->
        v <> "" ->
        UUID_of_hex v = None ->
        run (product_quick_info request) idle s
        = (inr (InvalidUUID v), idle, s)).
Proof.
  intros Hm. split; [|split; [|split]].
  - intros H. rewrite (product_quick_info_GET request Hm).
    unfold product_quick_info_body. destruct H as [-> | ->]; reflexivity.
  - intros v u Hv Hu Hnone.
    rewrite (product_quick_info_rows request s v u Hm Hv Hu).
    unfold active_products_with_id. rewrite filter_none; [reflexivity|].
    intros p Hp. destruct (Z.eqb_spec (Product.id p) u) as [E|]; [|reflexivity].
    rewrite (Hnone p Hp E). reflexivity.
  - intros v u p Hv Hu Hrows.
    rewrite (product_quick_info_rows request s v u Hm Hv Hu), Hrows.
    reflexivity.
  - intros v Hv Hne Hu. rewrite (product_quick_info_GET request Hm).
    unfold product_quick_info_body, Product_get_by_id. rewrite Hv, Hu.
    apply truthy_true_iff in Hne. cbn [or_else]. rewrite !Hne. reflexivity.
Qed.

Lemma product_quick_info_cases_witness :
  method (quick_info_request can_uuid) = "GET"
  /\ QueryDict_get "product_id" (GET (quick_info_request can_uuid))
     = Some can_uuid
  /\ UUID_of_hex can_uuid = Some can_id
  /\ active_products_with_id can_id shop = [can]
  /\ run (product_quick_info (quick_info_request can_uuid)) idle shop
     = (inl (JsonResponse
               [ ("id", JStr "12345678-1234-5678-1234-567812345678");
                 ("name", JStr "Can 20L"); ("price", JStr "150.00");
                 ("track_inventory", JBool true); ("stock_qty", JInt 5);
                 ("image_url", JStr "https://img/front.png") ]
               200), idle, shop).
Proof.
  split; [reflexivity|]. split; [reflexivity|].
  split; [vm_compute; reflexivity|]. split; [vm_compute; reflexivity|].
  exact (proj1 (proj2 (proj2 (product_quick_info_cases
                                (quick_info_request can_uuid) shop eq_refl)))
           can_uuid can_id can eq_refl eq_refl eq_refl).
Defined.

(** C8 as worded fails for an identifier that is not a UUID: ["abc"] is
    the identifier of no product, yet the endpoint does not answer
    not-found; the conversion of the identifier raises a validation error
    that the view lets through. *)
Lemma product_quick_info_malformed_id :
  (forall p, In p (products shop) -> UUID_str (Product.id p) <> "abc")
  /\ run (product_quick_info (quick_info_request "abc")) idle shop
     = (inr (InvalidUUID "abc"), idle, shop)
  /\ run (product_quick_info (quick_info_request "abc")) idle shop
     <> (inr Http404, idle, shop).
Proof.
  split; [|split].
  - intros p [<- | [<- | [<- | []]]]; vm_compute; discriminate.
  - reflexivity.
  - vm_compute. discriminate.
Qed.

(** C10.  A product that is active while its category is not is served by
    the quick-info endpoint and refused by its detail page: the two
    public read paths disagree on whether it is visible. *)
Theorem inactive_category_visibility s p info_request detail_request v :
  NoDup (map Product.id (products s)) ->
  NoDup (map Product.slug (products s)) ->
  In p (products s) ->
  Product.is_active p = true ->
  category_is_active s p = false ->
  method info_request = "GET" ->
  QueryDict_get "product_id" (GET info_request) = Some v ->
  UUID_of_hex v = Some (Product.id p) ->
  method detail_request = "GET" ->
  run (product_quick_info info_request) idle s
  = (inl (JsonResponse
            (quick_info p (effective_image (images_of s (Product.id p))))
            200), idle, s)
  /\ run (product_detail (Product.slug p) detail_request) idle s
     = (inr Http404, idle, s).
Proof.
  intros Hpk Hslug Hin Hact Hcat Hm1 Hv Hu Hm2. split.
  - rewrite (product_quick_info_rows info_request s v (Product.id p) Hm1 Hv Hu).
    assert (Hrows : active_products_with_id (Product.id p) s = [p]).
    { unfold active_products_with_id.
      apply (filter_unique_key Product.id); try assumption.
      - rewrite Z.eqb_refl, Hact. reflexivity.
      - intros y Hy. apply andb_prop in Hy. destruct Hy as [Hy _].
        apply Z.eqb_eq. exact Hy. }
    rewrite Hrows. reflexivity.
  - apply product_detail_no_row; [exact Hm2|].
    unfold visible_products_with_slug. apply filter_none. intros y Hy.
    destruct (String.eqb_spec (Product.slug y) (Product.slug p)) as [E|];
      [|reflexivity].
    assert (y = p) by (apply (unique_key_inj Product.slug (products s)); assumption).
    subst y. rewrite Hact, Hcat. reflexivity.
Qed.

(** The product [bottle] of [shop], active in an inactive category. *)
Lemma inactive_category_visibility_witness :
  NoDup (map Product.id (products shop))
  /\ NoDup (map Product.slug (products shop))
  /\ In bottle (products shop)
  /\ Product.is_active bottle = true
  /\ category_is_active shop bottle = false
  /\ UUID_of_hex bottle_uuid = Some (Product.id bottle)
  /\ run (product_quick_info (quick_info_request bottle_uuid)) idle shop
     = (inl (JsonResponse
               [ ("id", JStr "00000000-0000-0000-0000-000000000007");
                 ("name", JStr "Bottle 1L"); ("price", JStr "50.00");
                 ("track_inventory", JBool false); ("stock_qty", JInt 0);
                 ("image_url", JNull) ]
               200), idle, shop)
  /\ run (product_detail "bottle-1l" (page_request "http://shop/product/bottle-1l/"))
         idle shop
     = (inr Http404, idle, shop).
Proof.
  assert (K : NoDup (map Product.id (products shop))).
  { simpl. repeat constructor; simpl; intuition discriminate. }
  assert (S : NoDup (map Product.slug (products shop))).
  { simpl. repeat constructor; simpl; intuition discriminate. }
  assert (I : In bottle (products shop)) by (simpl; auto).
  assert (U : UUID_of_hex bottle_uuid = Some (Product.id bottle))
    by (vm_compute; reflexivity).
  split; [exact K|]. split; [exact S|]. split; [exact I|].
  split; [reflexivity|]. split; [reflexivity|]. split; [exact U|].
  exact (inactive_category_visibility shop bottle
           (quick_info_request bottle_uuid)
           (page_request "http://shop/product/bottle-1l/") bottle_uuid
           K S I eq_refl eq_refl eq_refl eq_refl U eq_refl).
Defined.

(** ** Two placements at once *)

(** C9 at a failing input.  The product [can] tracks inventory and holds
    5 units; Asha and Ravi each ask for 5.  Under every schedule of the
    operations of the two requests, both pass the stock check, both order
    rows are committed, both customers are shown the generic error, and
    the stock is still 5: the decrement is never reached, because
    [models] is not a name of [views.py].  The claim has exactly one of
    them succeed and the other refused. *)
Theorem both_placements_recorded (schedule : list bool) :
  exists c,
    (c = AshaThenRavi \/ c = RaviThenAsha)
    /\ run_both schedule (create_order asha_form) (create_order ravi_form) depot
       = (told_something_went_wrong, told_something_went_wrong, depot_after c)
    /\ products (depot_after c) = [can; jar]
    /\ Product.track_inventory can = true
    /\ Product.stock_qty can = 5
    /\ List.length (orders (depot_after c)) = 2%nat.
Proof.
  unfold run_both.
  destruct (interleave_consistent schedule 0 0 Neither eq_refl)
    as (i & j & c & H & E).
  change (asha_at 0) with (mkThread (create_order asha_form) idle) in E.
  change (ravi_at 0) with (mkThread (create_order ravi_form) idle) in E.
  change (depot_after Neither) with depot in E.
  rewrite E, (finish_consistent i j c H).
  exists (ravi_commits (asha_commits c)).
  split; [destruct c; auto|].
  split; [reflexivity|].
  repeat split; destruct c; reflexivity.
Qed.

(** One after the other is one of the schedules. *)
Example placements_back_to_back :
  run_both [] (create_order asha_form) (create_order ravi_form) depot
  = (told_something_went_wrong, told_something_went_wrong,
     depot_after AshaThenRavi).
Proof. vm_compute. reflexivity. Qed.
(* ================================================================== *)
(** * Further properties of the code, X1 to X24

    The listing pages, the branch lookup, the admin actions and columns,
    the slugs and concurrent contact submissions: for each group the
    supporting facts, then one theorem per property. *)

(* ================================================================== *)
(** * Facts about running a view *)

Lemma run_bind {A B} (p : prog A) (f : A -> prog B) l s :
  run (bind p f) l s
  = match run p l s with
    | (inl a, l', s') => run (f a) l' s'
    | (inr e, l', s') => (inr e, l', s')
    end.
Proof.
  revert l s.
  induction p as [a|e|X q k IH|w k IH|m k IH|k IH|k IH|k IH];
    intros l s; cbn [bind run].
  - reflexivity.
  - reflexivity.
  - apply IH.
  - destruct (pending l); apply IH.
  - apply IH.
  - apply IH.
  - destruct (pending l) as [|log [|parent outer]]; apply IH.
  - apply IH.
Qed.

Lemma run_query {X} (q : Store -> X) s :
  run (query q) idle s = (inl (q s), idle, s).
Proof. reflexivity. Qed.

(* ================================================================== *)
(** * Facts about [order_by] *)

Section Sorting.
Context {A : Type} (le : A -> A -> bool).

Lemma insert_by_perm x l : Permutation (insert_by le x l) (x :: l).
Proof.
  induction l as [|y r IH]; cbn [insert_by]; [reflexivity|].
  destruct (le x y); [reflexivity|].
  rewrite IH. apply perm_swap.
Qed.

Lemma sort_by_perm l : Permutation (sort_by le l) l.
Proof.
  induction l as [|x r IH]; cbn [sort_by]; [reflexivity|].
  rewrite insert_by_perm. constructor. exact IH.
Qed.

Lemma sort_by_In x l : In x (sort_by le l) <-> In x l.
Proof.
  split; apply Permutation_in; [|symmetry]; apply sort_by_perm.
Qed.

Hypothesis le_total : forall a b, le a b = true \/ le b a = true.

Lemma insert_by_sorted x l :
  Sorted (fun a b => le a b = true) l ->
  Sorted (fun a b => le a b = true) (insert_by le x l).
Proof.
  induction 1 as [|y r Hs IH Hhd]; cbn [insert_by].
  - repeat constructor.
  - destruct (le x y) eqn:Hxy.
    + constructor; [constructor; assumption|]. constructor. exact Hxy.
    + constructor; [exact IH|].
      destruct r as [|z t]; cbn [insert_by].
      * constructor. destruct (le_total x y) as [H|H]; [congruence|exact H].
      * destruct (le x z); constructor.
        -- destruct (le_total x y) as [H|H]; [congruence|exact H].
        -- inversion Hhd; assumption.
Qed.

Lemma sort_by_sorted l : Sorted (fun a b => le a b = true) (sort_by le l).
Proof.
  induction l as [|x r IH]; cbn [sort_by]; [constructor|].
  apply insert_by_sorted. exact IH.
Qed.

End Sorting.

Lemma Sorted_impl {A} (R R' : A -> A -> Prop) l :
  (forall a b, R a b -> R' a b) -> Sorted R l -> Sorted R' l.
Proof.
  intros H. induction 1 as [|x r Hs IH Hhd]; constructor; [exact IH|].
  destruct Hhd; constructor. apply H. assumption.
Qed.

Lemma Sorted_firstn {A} (R : A -> A -> Prop) n l :
  Sorted R l -> Sorted R (firstn n l).
Proof.
  intros Hs. revert n. induction Hs as [|x r Hs IH Hhd]; intros [|n];
    cbn [firstn]; try constructor.
  - apply IH.
  - destruct Hhd; destruct n; cbn [firstn]; constructor. assumption.
Qed.

Lemma by_name_total a b : by_name a b = true \/ by_name b a = true.
Proof. apply String.leb_total. Qed.

Lemma sort_order_then_name_total a b :
  sort_order_then_name a b = true \/ sort_order_then_name b a = true.
Proof.
  unfold sort_order_then_name.
  destruct (Z.ltb_spec (Category.sort_order a) (Category.sort_order b));
    [left; reflexivity|].
  destruct (Z.ltb_spec (Category.sort_order b) (Category.sort_order a));
    [right; reflexivity|].
  replace (Category.sort_order b) with (Category.sort_order a) by lia.
  rewrite Z.eqb_refl. cbn [orb andb].
  apply String.leb_total.
Qed.

Lemma sort_order_then_recent_total created_at a b :
  sort_order_then_recent created_at a b = true
  \/ sort_order_then_recent created_at b a = true.
Proof.
  unfold sort_order_then_recent.
  destruct (Z.ltb_spec (Product.sort_order a) (Product.sort_order b));
    [left; reflexivity|].
  destruct (Z.ltb_spec (Product.sort_order b) (Product.sort_order a));
    [right; reflexivity|].
  replace (Product.sort_order b) with (Product.sort_order a) by lia.
  rewrite Z.eqb_refl. cbn [orb andb].
  destruct (Z.leb_spec (created_at b) (created_at a)); [left; reflexivity|].
  right. apply Z.leb_le. lia.
Qed.

Lemma sort_order_then_recent_order created_at a b :
  sort_order_then_recent created_at a b = true ->
  listing_order created_at a b.
Proof.
  unfold sort_order_then_recent, listing_order. intros H.
  apply orb_true_iff in H. destruct H as [H|H].
  - left. apply Z.ltb_lt. exact H.
  - right. apply andb_true_iff in H. destruct H as [H1 H2].
    apply Z.eqb_eq in H1. apply Z.leb_le in H2. tauto.
Qed.

Lemma listing_sorted created_at l :
  Sorted (listing_order created_at)
         (sort_by (sort_order_then_recent created_at) l).
Proof.
  apply Sorted_impl with (R := fun a b => sort_order_then_recent created_at a b = true).
  - apply sort_order_then_recent_order.
  - apply sort_by_sorted. apply sort_order_then_recent_total.
Qed.

(* ================================================================== *)
(** * Facts about the listing pages *)

(** The image a prefetched product shows. *)
Lemma prefetched_image s p :
  ids_ascending (product_images s) ->
  effective_image
    (match images_all (prefetched s p) with
     | Some (i :: r) => i :: r
     | _ => images_of s (Product.id (row (prefetched s p)))
     end)
  = effective_image (images_of s (Product.id p)).
Proof.
  intros Hasc. unfold prefetched. cbn [images_all row].
  unfold prefetch_images_all.
  rewrite order_by_primary_id_stable
    by (apply filter_ids_ascending; exact Hasc).
  destruct (stable_order (images_of s (Product.id p))) as [|i r] eqn:E;
    [reflexivity|].
  rewrite <- E. unfold effective_image. rewrite stable_order_idem.
  reflexivity.
Qed.

(** The loop over the products of a page leaves each with the image
    [_get_primary_image] returns for it. *)
Lemma run_set_primary_images objs s :
  run (set_primary_images objs) idle s
  = (inl (map (fun o =>
                 (row o,
                  effective_image
                    (match images_all o with
                     | Some (i :: r) => i :: r
                     | _ => images_of s (Product.id (row o))
                     end))) objs), idle, s).
Proof.
  induction objs as [|o r IH]; [reflexivity|].
  cbn [set_primary_images map]. rewrite run_bind.
  rewrite run_get_primary_image by reflexivity.
  rewrite run_bind, IH. reflexivity.
Qed.

(** The products of a page, each with its effective image. *)
Lemma run_set_primary_images_prefetched l s :
  ids_ascending (product_images s) ->
  run (set_primary_images (map (prefetched s) l)) idle s
  = (inl (map (fun p => (p, effective_image (images_of s (Product.id p)))) l),
     idle, s).
Proof.
  intros Hasc. rewrite run_set_primary_images. rewrite map_map.
  f_equal. f_equal. f_equal. apply map_ext. intros p.
  rewrite (prefetched_image s p Hasc). reflexivity.
Qed.

Lemma require_GET_page_GET view request :
  method request = "GET" -> require_GET_page view request = view request.
Proof. intros H. unfold require_GET_page. rewrite H. reflexivity. Qed.

Lemma py_int_truthy v n : py_int 10 v = Some n -> truthy v = true.
Proof.
  intros H. destruct (truthy v) eqn:Ht; [reflexivity|].
  apply truthy_false_iff in Ht. subst v. vm_compute in H. discriminate.
Qed.

Lemma truthy_or_else_blank x :
  x = None \/ x = Some "" -> truthy (or_else x "") = false.
Proof. intros [-> | ->]; reflexivity. Qed.

(** The category lookup of [services] and [category_detail]. *)
Lemma run_Category_get_by_slug slug s :
  run (Category_get_by_slug slug) idle s
  = (get_or_404 (active_categories_with_slug slug s), idle, s).
Proof.
  unfold Category_get_by_slug. rewrite run_bind, run_query.
  destruct (active_categories_with_slug slug s) as [|c [|c' r]]; reflexivity.
Qed.

Lemma listing_services created_at seo_of request s :
  method request = "GET" ->
  listing (run (services created_at seo_of request) idle s)
  = match requested_category request s with
    | inl active_category =>
        inl (map (fun o =>
                 (row o,
                  effective_image
                    (match images_all o with
                     | Some (i :: r) => i :: r
                     | _ => images_of s (Product.id (row o))
                     end)))
               (map (prefetched s)
                    (services_products created_at active_category s)))
    | inr e => inr e
    end.
Proof.
  intros Hm. unfold services. rewrite (require_GET_page_GET _ _ Hm).
  unfold services_body, requested_category.
  destruct (truthy (or_else (QueryDict_get "category" (GET request)) "")).
  - rewrite run_bind, run_bind, run_Category_get_by_slug.
    destruct (get_or_404 _) as [c|e]; [|reflexivity].
    cbn [run]. rewrite run_bind, run_query. rewrite run_bind, run_set_primary_images.
    rewrite run_bind, run_query. reflexivity.
  - cbn [bind]. rewrite run_bind, run_query. rewrite run_bind, run_set_primary_images.
    rewrite run_bind, run_query. reflexivity.
Qed.

Lemma listing_category_detail created_at seo_of slug request s :
  method request = "GET" ->
  listing (run (category_detail created_at seo_of slug request) idle s)
  = match get_or_404 (active_categories_with_slug slug s) with
    | inl category =>
        inl (map (fun o =>
                 (row o,
                  effective_image
                    (match images_all o with
                     | Some (i :: r) => i :: r
                     | _ => images_of s (Product.id (row o))
                     end)))
               (map (prefetched s) (category_products created_at category s)))
    | inr e => inr e
    end.
Proof.
  intros Hm. unfold category_detail. rewrite (require_GET_page_GET _ _ Hm).
  unfold category_detail_body.
  rewrite run_bind, run_Category_get_by_slug.
  destruct (get_or_404 _) as [c|e]; [|reflexivity].
  rewrite run_bind, run_query. rewrite run_bind, run_set_primary_images.
  reflexivity.
Qed.

(** A category the lookup returns is an active row with the slug. *)
Lemma get_or_404_In {A} (rows : list A) x : get_or_404 rows = inl x -> In x rows.
Proof.
  destruct rows as [|y [|z r]]; cbn [get_or_404 ok throw]; intros H;
    inversion H. left. reflexivity.
Qed.

(** For an active category of the table the products of [services] and of
    [category_detail] are the same rows. *)
Lemma services_products_category created_at c s :
  In c (categories s) -> Category.is_active c = true ->
  services_products created_at (Some c) s = category_products created_at c s.
Proof.
  intros Hin Hact. unfold services_products, category_products.
  f_equal. induction (products s) as [|p r IH]; [reflexivity|].
  cbn [filter].
  destruct (Product.is_active p) eqn:Hp; cbn [andb]; [|exact IH].
  destruct (Product.category p =? Category.id c) eqn:Hc.
  - assert (Hca : category_is_active s p = true).
    { unfold category_is_active. apply existsb_exists. exists c.
      split; [exact Hin|]. rewrite Hact, andb_true_r.
      apply Z.eqb_eq. apply Z.eqb_eq in Hc. congruence. }
    rewrite Hca. cbn [filter]. rewrite Hc, IH. reflexivity.
  - destruct (category_is_active s p); [cbn [filter]; rewrite Hc|]; exact IH.
Qed.


(** The detail page of the one visible product with a slug. *)
Lemma product_detail_one_row slug request s p :
  method request = "GET" ->
  visible_products_with_slug slug s = [p] ->
  exists images seo,
    run (product_detail slug request) idle s
    = (inl (render "pages/product_detail.html"
              [ ("product",
                 CtxProduct p (effective_image (images_of s (Product.id p))));
                ("images", CtxImages images);
                ("seo", CtxDict seo) ]), idle, s).
Proof.
  intros Hm Hrows. rewrite (product_detail_GET slug request Hm).
  unfold product_detail_body, Product_get_by_slug.
  rewrite run_bind. rewrite run_bind. rewrite run_query, Hrows.
  cbn [get_or_404 ok lift run]. rewrite run_bind, run_query.
  rewrite run_bind_get_primary_image.
  eexists. eexists. reflexivity.
Qed.


Lemma listing_home created_at request s :
  method request = "GET" ->
  listing (run (home created_at request) idle s)
  = inl (map (fun o =>
                (row o,
                 effective_image
                   (match images_all o with
                    | Some (i :: r) => i :: r
                    | _ => images_of s (Product.id (row o))
                    end)))
             (map (prefetched s)
                (firstn 12
                   (sort_by (sort_order_then_recent created_at)
                      (filter Product.is_active (products s)))))).
Proof.
  intros Hm. unfold home. rewrite (require_GET_page_GET _ _ Hm).
  unfold home_body. rewrite run_bind, run_query.
  rewrite run_bind, run_set_primary_images.
  rewrite run_bind, run_query. reflexivity.
Qed.

(** Rows already in the order of their keys stay as they are. *)
Lemma sort_by_ordered {A} (le : A -> A -> bool) (R : A -> A -> Prop) l :
  (forall a b, R a b -> le a b = true) ->
  StronglySorted R l -> sort_by le l = l.
Proof.
  intros Hle. induction 1 as [|x r Hs IH Hx]; [reflexivity|].
  cbn [sort_by]. rewrite IH. destruct r as [|y t]; [reflexivity|].
  cbn [insert_by]. inversion Hx as [|? ? Hxy _]; subst.
  rewrite (Hle x y Hxy). reflexivity.
Qed.

Lemma first_by_pk_ascending l :
  ids_ascending l -> first_by_pk l = hd_error l.
Proof.
  intros H. unfold first_by_pk.
  rewrite (sort_by_ordered by_pk
             (fun a b => ProductImage.id a < ProductImage.id b)); [reflexivity| |exact H].
  intros a b Hab. unfold by_pk. apply Z.leb_le. lia.
Qed.

(** What [_get_primary_image] of [config/views.py] returns. *)
Lemma run_config_get_primary_image p s :
  ids_ascending (product_images s) ->
  run (config_get_primary_image p) idle s
  = (inl (effective_image (images_of s (Product.id p))), idle, s).
Proof.
  intros Hasc. unfold config_get_primary_image.
  rewrite run_bind, run_query.
  assert (Himgs : ids_ascending (images_of s (Product.id p)))
    by (apply filter_ids_ascending; exact Hasc).
  rewrite first_by_pk_ascending by (apply filter_ids_ascending; exact Himgs).
  unfold effective_image, stable_order.
  destruct (filter ProductImage.is_primary (images_of s (Product.id p)))
    as [|i r] eqn:E; cbn [hd_error app].
  - rewrite run_bind, run_query. cbn [run].
    rewrite first_by_pk_ascending by exact Himgs.
    rewrite (filter_all (fun i => negb (ProductImage.is_primary i))).
    + destruct (images_of s (Product.id p)); reflexivity.
    + intros x Hx. destruct (ProductImage.is_primary x) eqn:Hp; [|reflexivity].
      exfalso. assert (Hin : In x (filter ProductImage.is_primary (images_of s (Product.id p))))
        by (apply filter_In; auto).
      rewrite E in Hin. exact Hin.
  - reflexivity.
Qed.

(* ================================================================== *)
(** * Properties of the listing pages and of the branch lookup *)

(** X1.  [branches_by_state] with a numeric [state_id] (a number the
    64-bit key column can hold) answers with the active branches of that
    state, each once, ordered by name, and changes nothing; a state without
    active branches gives an empty list. *)
Theorem branches_by_state_lists_active_branches request s v n :
  method request = "GET" ->
  QueryDict_get "state_id" (GET request) = Some v ->
  py_int 10 v = Some n ->
  - 2 ^ 63 <= n < 2 ^ 63 ->
  exists listed,
    run (branches_by_state request) idle s
    = (inl (JsonListResponse [("results", map branch_entry listed)] 200),
       idle, s)
    /\ Permutation listed
         (filter (fun b => (Branch.state b =? n) && Branch.is_active b)
                 (branches s))
    /\ Sorted (fun a b => String.leb (Branch.name a) (Branch.name b) = true)
              listed.
Proof.
  intros Hm Hv Hn _. exists (active_branches_of_state n s).
  split; [|split].
  - unfold branches_by_state. rewrite (require_GET_page_GET _ _ Hm).
    unfold branches_by_state_body. rewrite Hv. cbn [or_else].
    rewrite !(py_int_truthy v n Hn), Hn. reflexivity.
  - apply sort_by_perm.
  - apply (sort_by_sorted by_name). apply by_name_total.
Qed.

Lemma branches_by_state_lists_active_branches_witness :
  exists listed,
    run (branches_by_state (branches_request " 1 ")) idle town
    = (inl (JsonListResponse [("results", map branch_entry listed)] 200),
       idle, town)
    /\ Permutation listed
         (filter (fun b => (Branch.state b =? 1) && Branch.is_active b)
                 (branches town))
    /\ Sorted (fun a b => String.leb (Branch.name a) (Branch.name b) = true)
              listed.
Proof.
  apply (branches_by_state_lists_active_branches
           (branches_request " 1 ") town " 1 " 1);
    [reflexivity | reflexivity | vm_compute; reflexivity | lia].
Defined.

(** X2.  Without a [state_id], or with an empty one, [branches_by_state]
    answers with an empty list; with a [state_id] that is not a number the
    conversion of the key raises [ValueError], which the view does not
    catch. *)
Theorem branches_by_state_without_number request s :
  method request = "GET" ->
  (QueryDict_get "state_id" (GET request) = None
   \/ QueryDict_get "state_id" (GET request) = Some "" ->
   run (branches_by_state request) idle s
   = (inl (JsonListResponse [("results", [])] 200), idle, s))
  /\ (forall v,
        QueryDict_get "state_id" (GET request) = Some v ->
        v <> "" -> py_int 10 v = None ->
        run (branches_by_state request) idle s = (inr ValueError, idle, s)).
Proof.
  intros Hm. unfold branches_by_state. rewrite (require_GET_page_GET _ _ Hm).
  unfold branches_by_state_body. split.
  - intros H. rewrite (truthy_or_else_blank _ H). reflexivity.
  - intros v Hv Hne Hn. rewrite Hv. cbn [or_else].
    destruct (truthy v) eqn:Ht.
    + rewrite Ht, Hn. reflexivity.
    + apply truthy_false_iff in Ht. contradiction.
Qed.

Lemma branches_by_state_without_number_witness :
  run (branches_by_state (page_request "http://shop/ajax/branches/")) idle town
  = (inl (JsonListResponse [("results", [])] 200), idle, town)
  /\ run (branches_by_state (branches_request "one")) idle town
     = (inr ValueError, idle, town).
Proof.
  split.
  - apply (proj1 (branches_by_state_without_number
                    (page_request "http://shop/ajax/branches/") town eq_refl)).
    left. reflexivity.
  - apply (proj2 (branches_by_state_without_number
                    (branches_request "one") town eq_refl) "one").
    + reflexivity.
    + discriminate.
    + vm_compute. reflexivity.
Defined.


(** X3.  [services] without a category filter lists the active products
    whose category is active, each once, by [sort_order] and then the most
    recent first, each with its effective display image, under the generic
    SEO entries; it changes nothing. *)
Theorem services_lists_visible_products created_at seo_of request s :
  method request = "GET" ->
  QueryDict_get "category" (GET request) = None
  \/ QueryDict_get "category" (GET request) = Some "" ->
  ids_ascending (product_images s) ->
  exists listed,
    run (services created_at seo_of request) idle s
    = (inl (render_page "pages/services.html"
              [ ("categories", PageCategories (active_categories s));
                ("active_category", PageCategory None);
                ("products",
                 PageProducts
                   (map (fun p =>
                           (p, effective_image (images_of s (Product.id p))))
                        listed));
                ("seo",
                 PageDict [ ("title", JStr "Services");
                            ("description", JStr "");
                            ("no_index", JBool false);
                            ("canonical", JStr "") ]) ]), idle, s)
    /\ Permutation listed
         (filter (fun p => Product.is_active p && category_is_active s p)
                 (products s))
    /\ Sorted (listing_order created_at) listed.
Proof.
  intros Hm Hcat Hasc. exists (services_products created_at None s).
  split; [|split].
  - unfold services. rewrite (require_GET_page_GET _ _ Hm).
    unfold services_body. rewrite (truthy_or_else_blank _ Hcat).
    cbn [bind]. rewrite run_bind, run_query.
    rewrite run_bind, (run_set_primary_images_prefetched _ s Hasc).
    rewrite run_bind, run_query. reflexivity.
  - unfold services_products. rewrite sort_by_perm.
    rewrite filter_all; [reflexivity|]. intros; reflexivity.
  - apply listing_sorted.
Qed.

Lemma services_lists_visible_products_witness :
  ids_ascending (product_images town)
  /\ exists listed,
    run (services sample_created_at sample_seo
           (page_request "http://shop/services/")) idle town
    = (inl (render_page "pages/services.html"
              [ ("categories", PageCategories (active_categories town));
                ("active_category", PageCategory None);
                ("products",
                 PageProducts
                   (map (fun p =>
                           (p, effective_image (images_of town (Product.id p))))
                        listed));
                ("seo",
                 PageDict [ ("title", JStr "Services");
                            ("description", JStr "");
                            ("no_index", JBool false);
                            ("canonical", JStr "") ]) ]), idle, town)
    /\ Permutation listed
         (filter (fun p => Product.is_active p && category_is_active town p)
                 (products town))
    /\ Sorted (listing_order sample_created_at) listed.
Proof.
  assert (A : ids_ascending (product_images town)).
  { unfold ids_ascending. simpl. repeat constructor. }
  split; [exact A|].
  exact (services_lists_visible_products sample_created_at sample_seo
           (page_request "http://shop/services/") town eq_refl
           (or_introl eq_refl) A).
Defined.

(** X4.  The category page and the services page filtered by the same
    slug show the same products with the same images, and fail alike: both
    raise [Http404] when no active category has the slug. *)
Theorem category_pages_agree created_at seo_of request request' slug s :
  method request = "GET" ->
  method request' = "GET" ->
  QueryDict_get "category" (GET request) = Some slug ->
  slug <> "" ->
  listing (run (services created_at seo_of request) idle s)
  = listing (run (category_detail created_at seo_of slug request') idle s)
  /\ (active_categories_with_slug slug s = [] ->
      run (services created_at seo_of request) idle s = (inr Http404, idle, s)
      /\ run (category_detail created_at seo_of slug request') idle s
         = (inr Http404, idle, s)).
Proof.
  intros Hm Hm' Hslug Hne.
  assert (Ht : truthy slug = true).
  { destruct (truthy slug) eqn:Ht; [reflexivity|].
    apply truthy_false_iff in Ht. contradiction. }
  split.
  - rewrite (listing_services _ _ _ _ Hm), (listing_category_detail _ _ _ _ _ Hm').
    unfold requested_category. rewrite Hslug. cbn [or_else]. rewrite !Ht.
    destruct (get_or_404 (active_categories_with_slug slug s)) as [c|e] eqn:E;
      [|reflexivity].
    apply get_or_404_In in E. apply filter_In in E. destruct E as [Hin Hc].
    apply andb_prop in Hc. destruct Hc as [_ Hact].
    rewrite (services_products_category created_at c s Hin Hact). reflexivity.
  - intros Hnone. split.
    + unfold services. rewrite (require_GET_page_GET _ _ Hm).
      unfold services_body. rewrite Hslug. cbn [or_else]. rewrite !Ht.
      rewrite run_bind, run_bind, run_Category_get_by_slug, Hnone. reflexivity.
    + unfold category_detail. rewrite (require_GET_page_GET _ _ Hm').
      unfold category_detail_body.
      rewrite run_bind, run_Category_get_by_slug, Hnone. reflexivity.
Qed.

Lemma category_pages_agree_witness :
  listing (run (services sample_created_at sample_seo (services_request "cans"))
               idle town)
  = listing (run (category_detail sample_created_at sample_seo "cans"
                    (page_request "http://shop/category/cans/")) idle town)
  /\ run (services sample_created_at sample_seo (services_request "bottles"))
         idle town = (inr Http404, idle, town)
  /\ run (category_detail sample_created_at sample_seo "bottles"
            (page_request "http://shop/category/bottles/")) idle town
     = (inr Http404, idle, town).
Proof.
  split.
  - apply (category_pages_agree sample_created_at sample_seo
             (services_request "cans")
             (page_request "http://shop/category/cans/") "cans" town);
      [reflexivity | reflexivity | reflexivity | discriminate].
  - apply (category_pages_agree sample_created_at sample_seo
             (services_request "bottles")
             (page_request "http://shop/category/bottles/") "bottles" town);
      [reflexivity | reflexivity | reflexivity | discriminate | reflexivity].
Defined.


(** X5.  The category page of an active category lists the active
    products of that category, each once, by [sort_order] and then the
    most recent first, each with its effective display image. *)
Theorem category_detail_lists_category created_at seo_of request s c :
  method request = "GET" ->
  NoDup (map Category.slug (categories s)) ->
  In c (categories s) ->
  Category.is_active c = true ->
  ids_ascending (product_images s) ->
  exists listed seo,
    run (category_detail created_at seo_of (Category.slug c) request) idle s
    = (inl (render_page "pages/category_detail.html"
              [ ("category", PageCategory (Some c));
                ("products",
                 PageProducts
                   (map (fun p =>
                           (p, effective_image (images_of s (Product.id p))))
                        listed));
                ("seo", PageDict seo) ]), idle, s)
    /\ Permutation listed
         (filter (fun p => Product.is_active p
                           && (Product.category p =? Category.id c))
                 (products s))
    /\ Sorted (listing_order created_at) listed.
Proof.
  intros Hm Hnd Hin Hact Hasc.
  assert (Hrows : active_categories_with_slug (Category.slug c) s = [c]).
  { unfold active_categories_with_slug.
    apply (filter_unique_key Category.slug); try assumption.
    - rewrite String.eqb_refl, Hact. reflexivity.
    - intros y Hy. apply andb_prop in Hy. destruct Hy as [Hy _].
      apply String.eqb_eq. exact Hy. }
  exists (category_products created_at c s). eexists.
  split; [|split].
  - unfold category_detail. rewrite (require_GET_page_GET _ _ Hm).
    unfold category_detail_body.
    rewrite run_bind, run_Category_get_by_slug, Hrows.
    cbn [get_or_404 ok]. rewrite run_bind, run_query.
    rewrite run_bind, (run_set_primary_images_prefetched _ s Hasc).
    reflexivity.
  - unfold category_products. apply sort_by_perm.
  - apply listing_sorted.
Qed.

Lemma category_detail_lists_category_witness :
  NoDup (map Category.slug (categories town))
  /\ ids_ascending (product_images town)
  /\ exists listed seo,
    run (category_detail sample_created_at sample_seo "cans"
           (page_request "http://shop/category/cans/")) idle town
    = (inl (render_page "pages/category_detail.html"
              [ ("category", PageCategory (Some (Category.mk 1 "Cans" 0 true "cans")));
                ("products",
                 PageProducts
                   (map (fun p =>
                           (p, effective_image (images_of town (Product.id p))))
                        listed));
                ("seo", PageDict seo) ]), idle, town)
    /\ Permutation listed
         (filter (fun p => Product.is_active p && (Product.category p =? 1))
                 (products town))
    /\ Sorted (listing_order sample_created_at) listed.
Proof.
  assert (N : NoDup (map Category.slug (categories town))).
  { simpl. repeat constructor; simpl; intuition discriminate. }
  assert (A : ids_ascending (product_images town)).
  { unfold ids_ascending. simpl. repeat constructor. }
  split; [exact N|]. split; [exact A|].
  exact (category_detail_lists_category sample_created_at sample_seo
           (page_request "http://shop/category/cans/") town
           (Category.mk 1 "Cans" 0 true "cans") eq_refl N
           (or_introl eq_refl) eq_refl A).
Defined.

(** X6.  Every product that [services] lists has a detail page: a request
    for [product_detail] with the product's slug renders that product,
    with the image the listing showed. *)
Theorem services_links_resolve created_at seo_of request request' s listed p image :
  method request = "GET" ->
  method request' = "GET" ->
  NoDup (map Product.slug (products s)) ->
  ids_ascending (product_images s) ->
  listing (run (services created_at seo_of request) idle s) = inl listed ->
  In (p, image) listed ->
  exists images seo,
    run (product_detail (Product.slug p) request') idle s
    = (inl (render "pages/product_detail.html"
              [ ("product", CtxProduct p image);
                ("images", CtxImages images);
                ("seo", CtxDict seo) ]), idle, s).
Proof.
  intros Hm Hm' Hnd Hasc Hl Hin.
  rewrite (listing_services _ _ _ _ Hm) in Hl.
  destruct (requested_category request s) as [cat|e]; [|discriminate].
  inversion Hl; subst listed. clear Hl.
  rewrite map_map in Hin. apply in_map_iff in Hin.
  destruct Hin as [q [Hq Hin]].
  rewrite (prefetched_image s q Hasc) in Hq. cbn [prefetched row] in Hq.
  inversion Hq; subst. clear Hq.
  unfold services_products in Hin. apply sort_by_In in Hin.
  apply filter_In in Hin. destruct Hin as [Hin _].
  apply filter_In in Hin. destruct Hin as [Hin Hvis].
  apply andb_prop in Hvis. destruct Hvis as [Hact Hcat].
  apply product_detail_one_row; [exact Hm'|].
  unfold visible_products_with_slug.
  apply (filter_unique_key Product.slug); try assumption.
  - rewrite String.eqb_refl, Hact, Hcat. reflexivity.
  - intros y Hy. apply andb_prop in Hy. destruct Hy as [Hy _].
    apply andb_prop in Hy. destruct Hy as [Hy _].
    apply String.eqb_eq. exact Hy.
Qed.

Lemma services_links_resolve_witness :
  NoDup (map Product.slug (products town))
  /\ ids_ascending (product_images town)
  /\ listing (run (services sample_created_at sample_seo
                     (page_request "http://shop/services/")) idle town)
     = inl [(can, Some "https://img/front.png"); (jar, None)]
  /\ exists images seo,
    run (product_detail "can-20l" (page_request "http://shop/product/can-20l/"))
        idle town
    = (inl (render "pages/product_detail.html"
              [ ("product", CtxProduct can (Some "https://img/front.png"));
                ("images", CtxImages images);
                ("seo", CtxDict seo) ]), idle, town).
Proof.
  assert (N : NoDup (map Product.slug (products town))).
  { simpl. repeat constructor; simpl; intuition discriminate. }
  assert (A : ids_ascending (product_images town)).
  { unfold ids_ascending. simpl. repeat constructor. }
  assert (L : listing (run (services sample_created_at sample_seo
                              (page_request "http://shop/services/")) idle town)
              = inl [(can, Some "https://img/front.png"); (jar, None)])
    by (vm_compute; reflexivity).
  split; [exact N|]. split; [exact A|]. split; [exact L|].
  exact (services_links_resolve sample_created_at sample_seo
           (page_request "http://shop/services/")
           (page_request "http://shop/product/can-20l/") town _ can
           (Some "https://img/front.png") eq_refl eq_refl N A L
           (or_introl eq_refl)).
Defined.

(** X7.  [home] shows the first twelve active products in the order of
    the listing (all of them when there are at most twelve), whatever the
    state of their category, each with its effective display image, and the
    active categories. *)
Theorem home_lists_first_twelve created_at request s :
  method request = "GET" ->
  ids_ascending (product_images s) ->
  exists listed rest,
    run (home created_at request) idle s
    = (inl (render_page "pages/home.html"
              [ ("categories", PageCategories (active_categories s));
                ("products",
                 PageProducts
                   (map (fun p =>
                           (p, effective_image (images_of s (Product.id p))))
                        listed)) ]), idle, s)
    /\ Permutation (listed ++ rest) (filter Product.is_active (products s))
    /\ Sorted (listing_order created_at) (listed ++ rest)
    /\ (List.length listed = 12%nat \/ rest = []).
Proof.
  intros Hm Hasc.
  set (L := sort_by (sort_order_then_recent created_at)
              (filter Product.is_active (products s))).
  exists (firstn 12 L), (skipn 12 L). split; [|split; [|split]].
  - unfold home. rewrite (require_GET_page_GET _ _ Hm).
    unfold home_body. rewrite run_bind, run_query.
    rewrite run_bind, (run_set_primary_images_prefetched _ s Hasc).
    rewrite run_bind, run_query. reflexivity.
  - rewrite firstn_skipn. apply sort_by_perm.
  - rewrite firstn_skipn. apply listing_sorted.
  - destruct (Nat.le_gt_cases 12 (List.length L)) as [H|H].
    + left. apply firstn_length_le. exact H.
    + right. apply skipn_all2. lia.
Qed.

Lemma home_lists_first_twelve_witness :
  ids_ascending (product_images town)
  /\ exists listed rest,
    run (home sample_created_at (page_request "http://shop/")) idle town
    = (inl (render_page "pages/home.html"
              [ ("categories", PageCategories (active_categories town));
                ("products",
                 PageProducts
                   (map (fun p =>
                           (p, effective_image (images_of town (Product.id p))))
                        listed)) ]), idle, town)
    /\ Permutation (listed ++ rest) (filter Product.is_active (products town))
    /\ Sorted (listing_order sample_created_at) (listed ++ rest)
    /\ (List.length listed = 12%nat \/ rest = []).
Proof.
  assert (A : ids_ascending (product_images town)).
  { unfold ids_ascending. simpl. repeat constructor. }
  split; [exact A|].
  exact (home_lists_first_twelve sample_created_at
           (page_request "http://shop/") town eq_refl A).
Defined.

(** X8.  [home] filters on the product alone: an active product whose
    category is inactive is shown on the home page (when it is among the
    first twelve), although its detail page raises [Http404]. *)
Theorem home_lists_product_without_page created_at request request' s p :
  method request = "GET" ->
  method request' = "GET" ->
  NoDup (map Product.slug (products s)) ->
  (List.length (filter Product.is_active (products s)) <= 12)%nat ->
  In p (products s) ->
  Product.is_active p = true ->
  category_is_active s p = false ->
  (exists listed image,
     listing (run (home created_at request) idle s) = inl listed
     /\ In (p, image) listed)
  /\ run (product_detail (Product.slug p) request') idle s
     = (inr Http404, idle, s).
Proof.
  intros Hm Hm' Hnd Hlen Hin Hact Hcat. split.
  - eexists. eexists. split; [apply (listing_home _ _ _ Hm)|].
    rewrite map_map. apply in_map_iff. exists p. split; [reflexivity|].
    rewrite firstn_all2.
    + apply sort_by_In. apply filter_In. split; assumption.
    + rewrite (Permutation_length (sort_by_perm _ _)). exact Hlen.
  - apply product_detail_no_row; [exact Hm'|].
    unfold visible_products_with_slug. apply filter_none. intros y Hy.
    destruct (String.eqb_spec (Product.slug y) (Product.slug p)) as [E|];
      [|reflexivity].
    assert (y = p) by (apply (unique_key_inj Product.slug (products s)); assumption).
    subst y. rewrite Hact, Hcat. reflexivity.
Qed.

Lemma home_lists_product_without_page_witness :
  NoDup (map Product.slug (products town))
  /\ (List.length (filter Product.is_active (products town)) <= 12)%nat
  /\ In bottle (products town)
  /\ (exists listed image,
        listing (run (home sample_created_at (page_request "http://shop/"))
                     idle town) = inl listed
        /\ In (bottle, image) listed)
  /\ run (product_detail "bottle-1l"
            (page_request "http://shop/product/bottle-1l/")) idle town
     = (inr Http404, idle, town).
Proof.
  assert (N : NoDup (map Product.slug (products town))).
  { simpl. repeat constructor; simpl; intuition discriminate. }
  assert (B : (List.length (filter Product.is_active (products town)) <= 12)%nat)
    by (simpl; lia).
  assert (I : In bottle (products town)) by (simpl; auto).
  split; [exact N|]. split; [exact B|]. split; [exact I|].
  exact (home_lists_product_without_page sample_created_at
           (page_request "http://shop/")
           (page_request "http://shop/product/bottle-1l/") town bottle
           eq_refl eq_refl N B I eq_refl eq_refl).
Defined.

(** X9.  The two copies of [_get_primary_image] agree: for a product
    whose images have ascending identifiers, the helper of
    [config/views.py] returns what the helper of the store views returns,
    the effective display image. *)
Theorem primary_image_helpers_agree s p :
  ids_ascending (product_images s) ->
  run (config_get_primary_image p) idle s
  = run (_get_primary_image (plain p)) idle s
  /\ run (config_get_primary_image p) idle s
     = (inl (effective_image (images_of s (Product.id p))), idle, s).
Proof.
  intros Hasc. rewrite (run_config_get_primary_image p s Hasc).
  split; [|reflexivity].
  rewrite run_get_primary_image by reflexivity. reflexivity.
Qed.

Lemma primary_image_helpers_agree_witness :
  ids_ascending (product_images town)
  /\ run (config_get_primary_image can) idle town
     = run (_get_primary_image (plain can)) idle town
  /\ run (config_get_primary_image can) idle town
     = (inl (effective_image (images_of town (Product.id can))), idle, town).
Proof.
  assert (A : ids_ascending (product_images town)).
  { unfold ids_ascending. simpl. repeat constructor. }
  split; [exact A|].
  exact (primary_image_helpers_agree town can A).
Defined.

(** X10.  The hero of the home page of [config/views.py] is the first
    product of the home page of the store, with the same image and its
    price; when no product is active there is no hero, no image and no
    price. *)
Theorem config_home_features_first_listed created_at request request' s :
  method request = "GET" ->
  method request' = "GET" ->
  ids_ascending (product_images s) ->
  exists listed,
    listing (run (home created_at request) idle s) = inl listed
    /\ run (config_home created_at request') idle s
       = (inl (render_page "pages/home.html"
                 [ ("categories", PageCategories (active_categories s));
                   ("featured_product",
                    PageProduct (option_map fst (hd_error listed)));
                   ("featured_image",
                    PageImage (match hd_error listed with
                               | Some (_, image) => image
                               | None => None
                               end));
                   ("featured_price",
                    PagePrice (option_map (fun x => Product.price (fst x))
                                          (hd_error listed))) ]), idle, s).
Proof.
  intros Hm Hm' Hasc. eexists. split; [apply (listing_home _ _ _ Hm)|].
  unfold config_home. rewrite (require_GET_page_GET _ _ Hm').
  unfold config_home_body. rewrite run_bind, run_query.
  destruct (sort_by (sort_order_then_recent created_at)
              (filter Product.is_active (products s))) as [|p r];
    cbn [hd_error firstn map option_map fst].
  - reflexivity.
  - rewrite run_bind, run_bind, (run_config_get_primary_image p s Hasc).
    cbn [run]. rewrite run_bind, run_query.
    rewrite (prefetched_image s p Hasc). reflexivity.
Qed.

Lemma config_home_features_first_listed_witness :
  ids_ascending (product_images town)
  /\ exists listed,
    listing (run (home sample_created_at (page_request "http://shop/")) idle town)
    = inl listed
    /\ run (config_home sample_created_at (page_request "http://shop/")) idle town
       = (inl (render_page "pages/home.html"
                 [ ("categories", PageCategories (active_categories town));
                   ("featured_product",
                    PageProduct (option_map fst (hd_error listed)));
                   ("featured_image",
                    PageImage (match hd_error listed with
                               | Some (_, image) => image
                               | None => None
                               end));
                   ("featured_price",
                    PagePrice (option_map (fun x => Product.price (fst x))
                                          (hd_error listed))) ]), idle, town).
Proof.
  assert (A : ids_ascending (product_images town)).
  { unfold ids_ascending. simpl. repeat constructor. }
  split; [exact A|].
  exact (config_home_features_first_listed sample_created_at
           (page_request "http://shop/") (page_request "http://shop/") town
           eq_refl eq_refl A).
Defined.

(* ================================================================== *)
(** * Facts about the bulk actions *)

Lemma update_is_active_products queryset value s :
  products (snd (update_is_active queryset value s))
  = map (fun p => if queryset p then Product_set_is_active p value else p)
        (products s).
Proof. reflexivity. Qed.

Lemma mark_inactive_store queryset s :
  snd (mark_inactive queryset s) = snd (update_is_active queryset false s).
Proof. reflexivity. Qed.

Lemma mark_active_store queryset s :
  snd (mark_active queryset s) = snd (update_is_active queryset true s).
Proof. reflexivity. Qed.

Lemma pk_in_In selected p :
  pk_in selected p = true <-> In (Product.id p) selected.
Proof.
  unfold pk_in. rewrite existsb_exists. split.
  - intros [u [Hin Hu]]. apply Z.eqb_eq in Hu. rewrite Hu. exact Hin.
  - intros Hin. exists (Product.id p). split; [exact Hin|apply Z.eqb_refl].
Qed.

(** A selection by key does not depend on the column the action sets. *)
Lemma pk_in_set_is_active selected p value :
  pk_in selected (Product_set_is_active p value) = pk_in selected p.
Proof. reflexivity. Qed.

(** After [mark_inactive] every row bearing a selected key is inactive. *)
Lemma mark_inactive_rows selected s p :
  In p (products (snd (mark_inactive (pk_in selected) s))) ->
  In (Product.id p) selected ->
  Product.is_active p = false.
Proof.
  rewrite mark_inactive_store, update_is_active_products.
  intros Hin Hsel. apply in_map_iff in Hin. destruct Hin as [q [Hq _]].
  destruct (pk_in selected q) eqn:Hpk.
  - subst p. reflexivity.
  - subst p. apply pk_in_In in Hsel. congruence.
Qed.

Lemma firstn_incl {A} n (l : list A) x : In x (firstn n l) -> In x l.
Proof.
  revert n. induction l as [|y r IH]; intros [|n]; cbn [firstn In];
    try tauto.
  intros [H|H]; [left; exact H|right; exact (IH n H)].
Qed.


Lemma update_status_rows (queryset : nat -> Order.t -> bool) value n l i o :
  nth_error l i = Some o ->
  nth_error
    (map (fun io : nat * Order.t =>
            if queryset (fst io) (snd io)
            then Order_set_status (snd io) value else snd io)
         (enumerate_from n l)) i
  = Some (if queryset (n + i)%nat o then Order_set_status o value else o).
Proof.
  revert n i. induction l as [|x r IH]; intros n [|i] H;
    cbn [nth_error] in H; try discriminate.
  - injection H as ->. cbn [enumerate_from map nth_error fst snd].
    rewrite Nat.add_0_r. reflexivity.
  - cbn [enumerate_from map nth_error]. rewrite (IH (S n) i H).
    replace (S n + i)%nat with (n + S i)%nat by lia. reflexivity.
Qed.

Lemma update_status_other_columns (queryset : nat -> Order.t -> bool) value n l :
  map (fun o => Order_set_status o "")
      (map (fun io : nat * Order.t =>
              if queryset (fst io) (snd io)
              then Order_set_status (snd io) value else snd io)
           (enumerate_from n l))
  = map (fun o => Order_set_status o "") l.
Proof.
  revert n. induction l as [|x r IH]; intros n; [reflexivity|].
  cbn [enumerate_from map fst snd]. rewrite IH.
  destruct (queryset n x); reflexivity.
Qed.

(* ================================================================== *)
(** * Properties of the bulk actions of the admin *)

(** X11.  [mark_inactive] withdraws the selected products from the shop:
    afterwards the quick-info lookup of a selected product raises
    [Http404], an order for it is refused with an error notice and without
    an order row, and neither [services] nor [home] lists it. *)
Theorem mark_inactive_withdraws_products created_at seo_of selected s v u
        info_request order_request page_request :
  In u selected ->
  UUID_of_hex v = Some u ->
  method info_request = "GET" ->
  QueryDict_get "product_id" (GET info_request) = Some v ->
  method order_request = "POST" ->
  QueryDict_get "product_id" (POST order_request) = Some v ->
  method page_request = "GET" ->
  let s' := snd (mark_inactive (pk_in selected) s) in
  run (product_quick_info info_request) idle s' = (inr Http404, idle, s')
  /\ (exists notice, run (create_order order_request) idle s' = rejected notice s')
  /\ (forall listed p image,
        listing (run (services created_at seo_of page_request) idle s') = inl listed
        \/ listing (run (home created_at page_request) idle s') = inl listed ->
        In (p, image) listed -> Product.id p <> u).
Proof.
  intros Hsel Hu Hm1 Hv1 Hm2 Hv2 Hm3 s'.
  assert (Hnone : active_products_with_id u s' = []).
  { unfold active_products_with_id. apply filter_none. intros p Hin.
    destruct (Z.eqb_spec (Product.id p) u) as [E|]; [|reflexivity].
    cbn [andb]. apply (mark_inactive_rows selected s p Hin).
    rewrite E. exact Hsel. }
  split; [|split].
  - rewrite (product_quick_info_rows info_request s' v u Hm1 Hv1 Hu), Hnone.
    reflexivity.
  - destruct (create_order_rejected_or_validated order_request s' Hm2)
      as [H | [p [b [n [_ [_ [_ [_ [[v' [u' [Hv' [Hu' Hrows]]]] _]]]]]]]]];
      [exact H|].
    exfalso. rewrite Hv2 in Hv'. inversion Hv'; subst v'.
    rewrite Hu in Hu'. inversion Hu'; subst u'.
    rewrite Hnone in Hrows. discriminate.
  - intros listed p image Hl Hin Hid.
    assert (Hp : In p (products s') /\ Product.is_active p = true).
    { destruct Hl as [Hl | Hl].
      - rewrite (listing_services _ _ _ _ Hm3) in Hl.
        destruct (requested_category page_request s') as [cat|e]; [|discriminate].
        injection Hl as Hl. rewrite <- Hl in Hin. rewrite map_map in Hin.
        apply in_map_iff in Hin. destruct Hin as [q [Hq Hin]].
        cbn [prefetched row] in Hq. injection Hq as Hq _. rewrite Hq in Hin.
        unfold services_products in Hin. apply sort_by_In in Hin.
        apply filter_In in Hin. destruct Hin as [Hin _].
        apply filter_In in Hin. destruct Hin as [Hin Hvis].
        apply andb_prop in Hvis. tauto.
      - rewrite (listing_home _ _ _ Hm3) in Hl.
        injection Hl as Hl. rewrite <- Hl in Hin. rewrite map_map in Hin.
        apply in_map_iff in Hin. destruct Hin as [q [Hq Hin]].
        cbn [prefetched row] in Hq. injection Hq as Hq _. rewrite Hq in Hin.
        assert (Hin' : In p (sort_by (sort_order_then_recent created_at)
                               (filter Product.is_active (products s'))))
          by (apply (firstn_incl 12); exact Hin).
        apply sort_by_In in Hin'. apply filter_In in Hin'. exact Hin'. }
    destruct Hp as [Hin' Hact].
    rewrite (mark_inactive_rows selected s p Hin') in Hact; [discriminate|].
    rewrite Hid. exact Hsel.
Qed.

Lemma mark_inactive_withdraws_products_witness :
  In jar_id [jar_id]
  /\ UUID_of_hex jar_uuid = Some jar_id
  /\ run (product_quick_info (quick_info_request jar_uuid)) idle
         (snd (mark_inactive (pk_in [jar_id]) depot))
     = (inr Http404, idle, snd (mark_inactive (pk_in [jar_id]) depot))
  /\ (exists notice,
        run (create_order (order_form jar_uuid "1")) idle
            (snd (mark_inactive (pk_in [jar_id]) depot))
        = rejected notice (snd (mark_inactive (pk_in [jar_id]) depot)))
  /\ (forall listed p image,
        listing (run (services sample_created_at sample_seo
                        (page_request "http://shop/services/")) idle
                     (snd (mark_inactive (pk_in [jar_id]) depot))) = inl listed
        \/ listing (run (home sample_created_at
                           (page_request "http://shop/services/")) idle
                        (snd (mark_inactive (pk_in [jar_id]) depot))) = inl listed ->
        In (p, image) listed -> Product.id p <> jar_id).
Proof.
  assert (U : UUID_of_hex jar_uuid = Some jar_id) by (vm_compute; reflexivity).
  split; [left; reflexivity|]. split; [exact U|].
  exact (mark_inactive_withdraws_products sample_created_at sample_seo
           [jar_id] depot jar_uuid jar_id (quick_info_request jar_uuid)
           (order_form jar_uuid "1") (page_request "http://shop/services/")
           (or_introl eq_refl) U eq_refl eq_refl eq_refl eq_refl eq_refl).
Defined.

(** X12.  [mark_inactive] counts the rows it matches, not the rows it
    changes: applied a second time to the same selection it reports the
    same number and leaves the database as the first application left
    it. *)
Theorem mark_inactive_twice selected s :
  mark_inactive (pk_in selected) (snd (mark_inactive (pk_in selected) s))
  = mark_inactive (pk_in selected) s.
Proof.
  unfold mark_inactive, update_is_active. cbn [snd products categories
    branches product_images orders contact_messages].
  f_equal.
  - f_equal. f_equal. f_equal.
    induction (products s) as [|p r IH]; [reflexivity|].
    cbn [map filter]. destruct (pk_in selected p) eqn:Hp.
    + rewrite pk_in_set_is_active, Hp. cbn [List.length]. f_equal. exact IH.
    + rewrite Hp. exact IH.
  - f_equal. rewrite map_map. apply map_ext. intros p.
    destruct (pk_in selected p) eqn:Hp.
    + rewrite pk_in_set_is_active, Hp. reflexivity.
    + rewrite Hp. reflexivity.
Qed.

(** X13.  [mark_active] undoes [mark_inactive]: when the selected
    products were active, marking them inactive and then active again
    restores the database. *)
Theorem mark_active_undoes_mark_inactive selected s :
  (forall p, In p (products s) -> In (Product.id p) selected ->
             Product.is_active p = true) ->
  snd (mark_active (pk_in selected) (snd (mark_inactive (pk_in selected) s)))
  = s.
Proof.
  intros Hact. unfold mark_active, mark_inactive, update_is_active.
  cbn [snd products categories branches product_images orders
       contact_messages].
  destruct s as [ps cs bs imgs os ms].
  cbn [products categories branches product_images orders contact_messages] in *.
  f_equal. rewrite map_map.
  rewrite <- (map_id ps) at 2. apply map_ext_in. intros p Hin.
  destruct (pk_in selected p) eqn:Hp.
  - rewrite pk_in_set_is_active, Hp.
    apply pk_in_In in Hp. specialize (Hact p Hin Hp).
    destruct p; cbn in *. subst. reflexivity.
  - rewrite Hp. reflexivity.
Qed.

Lemma mark_active_undoes_mark_inactive_witness :
  snd (mark_active (pk_in [jar_id])
         (snd (mark_inactive (pk_in [jar_id]) depot))) = depot.
Proof.
  apply (mark_active_undoes_mark_inactive [jar_id] depot).
  intros p [<- | [<- | []]] _; reflexivity.
Defined.


(** X14.  The four status actions of the order admin set the status of
    the selected orders whatever their current status, and touch nothing
    else: every order keeps its customer, product, quantity and amounts,
    the orders that are not selected keep their status, and the products
    (hence the stock) stay as they are. *)
Theorem order_actions_set_status_only action value queryset s :
  In (action, value)
     [ (mark_confirmed, "confirmed"); (mark_processing, "processing");
       (mark_delivered, "delivered"); (mark_cancelled, "cancelled") ] ->
  let s' := snd (action queryset s) in
  (forall i o,
     nth_error (orders s) i = Some o ->
     nth_error (orders s') i
     = Some (if queryset i o then Order_set_status o value else o))
  /\ map (fun o => Order_set_status o "") (orders s')
     = map (fun o => Order_set_status o "") (orders s)
  /\ products s' = products s.
Proof.
  intros Hin s'.
  assert (Hs : s' = snd (update_status queryset value s)).
  { subst s'. cbn [In] in Hin.
    destruct Hin as [H|[H|[H|[H|[]]]]]; injection H as <- <-; reflexivity. }
  rewrite Hs. unfold update_status. cbn [snd orders products].
  split; [|split].
  - intros i o H. apply (update_status_rows queryset value 0 _ i o H).
  - apply update_status_other_columns.
  - reflexivity.
Qed.

Lemma order_actions_set_status_only_witness :
  let s' := snd (mark_cancelled (fun i _ => Nat.eqb i 0) late_orders) in
  (forall i o,
     nth_error (orders late_orders) i = Some o ->
     nth_error (orders s') i
     = Some (if Nat.eqb i 0 then Order_set_status o "cancelled" else o))
  /\ map (fun o => Order_set_status o "") (orders s')
     = map (fun o => Order_set_status o "") (orders late_orders)
  /\ products s' = products late_orders.
Proof.
  apply (order_actions_set_status_only mark_cancelled "cancelled"
           (fun i _ => Nat.eqb i 0) late_orders).
  simpl. tauto.
Defined.

(* ================================================================== *)
(** * Facts about slugs *)

(** A fact about every character, checked character by character. *)
Ltac by_chars c :=
  destruct c as [[|] [|] [|] [|] [|] [|] [|] [|]];
  vm_compute; intros; try discriminate; try (repeat split; reflexivity).

Lemma kept_char_slug_char c :
  (re_word (lower_char c) || re_space (lower_char c) || is_hyphen (lower_char c)) = true ->
  (is_hyphen (lower_char c) || re_space (lower_char c)) = false ->
  slug_char (lower_char c) = true.
Proof. by_chars c. Qed.

Lemma is_hyphen_eq c : is_hyphen c = true -> c = "-"%char.
Proof. by_chars c. Qed.

Lemma hyphen_slug_char : slug_char "-" = true.
Proof. reflexivity. Qed.

Lemma slug_char_ascii c : slug_char c = true -> (code c <? 128)%N = true.
Proof. by_chars c. Qed.

Lemma slug_char_lower c : slug_char c = true -> lower_char c = c.
Proof. by_chars c. Qed.

Lemma slug_char_kept c :
  slug_char c = true -> (re_word c || re_space c || is_hyphen c) = true.
Proof. by_chars c. Qed.

Lemma slug_char_sep c :
  slug_char c = true -> (is_hyphen c || re_space c) = is_hyphen c.
Proof. by_chars c. Qed.

Lemma edge_char_hyphen c : is_hyphen c = true -> edge_char c = true.
Proof. by_chars c. Qed.

Lemma alnum_lower c : alnum c = true -> alnum (lower_char c) = true.
Proof. by_chars c. Qed.

Lemma alnum_kept c :
  alnum c = true ->
  (re_word c || re_space c || is_hyphen c) = true
  /\ (is_hyphen c || re_space c) = false
  /\ edge_char c = false.
Proof. by_chars c. Qed.

Lemma not_alnum_edge c :
  alnum c = false ->
  (re_word (lower_char c) || re_space (lower_char c) || is_hyphen (lower_char c)) = true ->
  (is_hyphen (lower_char c) || re_space (lower_char c)) = false ->
  edge_char (lower_char c) = true.
Proof. by_chars c. Qed.

Lemma In_hyphenate c b w :
  In c (hyphenate b w) ->
  c = "-"%char \/ (In c w /\ (is_hyphen c || re_space c) = false).
Proof.
  revert b. induction w as [|x r IH]; intros b; cbn [hyphenate]; [intros []|].
  destruct (is_hyphen x || re_space x) eqn:Hx.
  - destruct b; cbn [In].
    + intros H. destruct (IH true H) as [E|[Hin Hs]]; [left; exact E|].
      right. split; [right; exact Hin|exact Hs].
    + intros [E|H]; [left; symmetry; exact E|].
      destruct (IH true H) as [E|[Hin Hs]]; [left; exact E|].
      right. split; [right; exact Hin|exact Hs].
  - cbn [In]. intros [E|H].
    + right. subst c. split; [left; reflexivity|exact Hx].
    + destruct (IH false H) as [E|[Hin Hs]]; [left; exact E|].
      right. split; [right; exact Hin|exact Hs].
Qed.

Lemma hyphenate_keeps c b w :
  In c w -> (is_hyphen c || re_space c) = false -> In c (hyphenate b w).
Proof.
  revert b. induction w as [|x r IH]; intros b Hin Hs; [contradiction|].
  cbn [hyphenate]. destruct Hin as [-> | Hin].
  - rewrite Hs. left. reflexivity.
  - destruct (is_hyphen x || re_space x).
    + destruct b; [|right]; apply IH; assumption.
    + right. apply IH; assumption.
Qed.

(** No run of hyphens is left; and within a run no hyphen is added. *)
Lemma hyphenate_no_double_hyphen b w :
  no_double_hyphen (hyphenate b w) = true
  /\ (b = true ->
      match hyphenate b w with
      | c :: _ => is_hyphen c = false
      | [] => True
      end).
Proof.
  revert b. induction w as [|x r IH]; intros b; cbn [hyphenate].
  - split; [reflexivity|intros _; exact I].
  - destruct (is_hyphen x || re_space x) eqn:Hx.
    + destruct b.
      * apply IH.
      * split; [|discriminate].
        destruct (IH true) as [Hn Hh]. specialize (Hh eq_refl).
        cbn [no_double_hyphen]. destruct (hyphenate true r) as [|d t]; [reflexivity|].
        rewrite Hh, Hn, andb_false_r. reflexivity.
    + apply orb_false_iff in Hx. destruct Hx as [Hx _].
      split; [|intros _; exact Hx].
      destruct (IH false) as [Hn _].
      cbn [no_double_hyphen]. destruct (hyphenate false r) as [|d t]; [reflexivity|].
      rewrite Hx, Hn. reflexivity.
Qed.

Lemma no_double_hyphen_tail c l :
  no_double_hyphen (c :: l) = true -> no_double_hyphen l = true.
Proof.
  cbn [no_double_hyphen]. destruct l as [|d t]; [reflexivity|].
  intros H. apply andb_prop in H. tauto.
Qed.

Lemma no_double_hyphen_suffix a l :
  no_double_hyphen (a ++ l) = true -> no_double_hyphen l = true.
Proof.
  induction a as [|c a IH]; [tauto|].
  intros H. apply IH. apply (no_double_hyphen_tail c). exact H.
Qed.

Lemma no_double_hyphen_prefix l b :
  no_double_hyphen (l ++ b) = true -> no_double_hyphen l = true.
Proof.
  induction l as [|c l IH]; [reflexivity|].
  destruct l as [|d t]; [reflexivity|].
  cbn [app no_double_hyphen]. intros H. apply andb_prop in H.
  destruct H as [H1 H2]. rewrite H1. apply IH. exact H2.
Qed.

(** The characters of [slugify value] before the ends are stripped. *)
Lemma slugify_chars value :
  exists before after,
    hyphenate false
      (remove_unsafe
         (map lower_char (list_ascii_of_string (nfkd_to_ascii value))))
    = (before ++ list_ascii_of_string (slugify value) ++ after)%list
    /\ forallb edge_char before = true
    /\ forallb edge_char after = true
    /\ match list_ascii_of_string (slugify value) with
       | c :: _ => edge_char c = false
       | [] => True
       end
    /\ match rev (list_ascii_of_string (slugify value)) with
       | c :: _ => edge_char c = false
       | [] => True
       end.
Proof.
  unfold slugify, strip_chars.
  rewrite !list_ascii_of_string_of_list_ascii.
  destruct (strip_by_spec edge_char
              (hyphenate false
                 (remove_unsafe
                    (map lower_char
                       (list_ascii_of_string (nfkd_to_ascii value))))))
    as (before & after & E & Hb & Ha & Hh & Hl).
  exists before, after. repeat split; assumption.
Qed.

Lemma slugify_well_formed value : well_formed_slug (slugify value).
Proof.
  destruct (slugify_chars value) as (before & after & E & _ & _ & Hh & Hl).
  unfold well_formed_slug. cbv zeta. split; [|split; [exact Hh|split; [exact Hl|]]].
  - apply forallb_forall. intros c Hc.
    assert (Hin : In c (hyphenate false
                          (remove_unsafe
                             (map lower_char
                                (list_ascii_of_string (nfkd_to_ascii value)))))).
    { rewrite E. apply in_or_app. right. apply in_or_app. left. exact Hc. }
    apply In_hyphenate in Hin. destruct Hin as [-> | [Hin Hs]]; [reflexivity|].
    unfold remove_unsafe in Hin. apply filter_In in Hin.
    destruct Hin as [Hin Hk]. apply in_map_iff in Hin.
    destruct Hin as [c0 [<- _]]. apply kept_char_slug_char; assumption.
  - apply (no_double_hyphen_prefix _ after).
    apply (no_double_hyphen_suffix before). rewrite <- E.
    apply hyphenate_no_double_hyphen.
Qed.

Lemma nfkd_to_ascii_ascii l :
  forallb slug_char l = true ->
  nfkd_to_ascii (string_of_list_ascii l) = string_of_list_ascii l.
Proof.
  induction l as [|c r IH]; [reflexivity|].
  cbn [forallb string_of_list_ascii nfkd_to_ascii]. intros H.
  apply andb_prop in H. destruct H as [Hc Hr].
  unfold nfkd_ascii. rewrite (slug_char_ascii c Hc), (IH Hr). reflexivity.
Qed.

Lemma map_lower_slug l :
  forallb slug_char l = true -> map lower_char l = l.
Proof.
  induction l as [|c r IH]; [reflexivity|]. cbn [forallb map]. intros H.
  apply andb_prop in H. destruct H as [Hc Hr].
  rewrite (slug_char_lower c Hc), (IH Hr). reflexivity.
Qed.

Lemma remove_unsafe_slug l :
  forallb slug_char l = true -> remove_unsafe l = l.
Proof.
  intros H. unfold remove_unsafe. apply filter_all. intros c Hc.
  apply slug_char_kept. rewrite forallb_forall in H. apply H. exact Hc.
Qed.

Lemma hyphenate_slug b l :
  forallb slug_char l = true ->
  no_double_hyphen l = true ->
  (b = true -> match l with c :: _ => is_hyphen c = false | [] => True end) ->
  hyphenate b l = l.
Proof.
  revert b. induction l as [|c r IH]; intros b Hs Hn Hb; [reflexivity|].
  cbn [forallb] in Hs. apply andb_prop in Hs. destruct Hs as [Hc Hr].
  cbn [hyphenate]. rewrite (slug_char_sep c Hc).
  destruct (is_hyphen c) eqn:Hy.
  - destruct b; [specialize (Hb eq_refl); cbn in Hb; congruence|].
    rewrite (is_hyphen_eq c Hy). f_equal. apply IH.
    + exact Hr.
    + apply (no_double_hyphen_tail c). exact Hn.
    + intros _. destruct r as [|d t]; [exact I|].
      cbn [no_double_hyphen] in Hn. rewrite Hy in Hn. cbn [andb] in Hn.
      apply andb_prop in Hn. destruct Hn as [Hn _].
      apply negb_true_iff in Hn. exact Hn.
  - f_equal. apply IH.
    + exact Hr.
    + apply (no_double_hyphen_tail c). exact Hn.
    + discriminate.
Qed.

Lemma strip_by_trimmed (f : ascii -> bool) l :
  match l with c :: _ => f c = false | [] => True end ->
  match rev l with c :: _ => f c = false | [] => True end ->
  strip_by f l = l.
Proof.
  intros Hh Hl. unfold strip_by, rstrip_by, lstrip_by.
  assert (D : forall m, match m with c :: _ => f c = false | [] => True end ->
                        dropwhile f m = m).
  { intros [|c m] H; [reflexivity|]. cbn [dropwhile]. rewrite H. reflexivity. }
  rewrite (D l Hh), (D (rev l) Hl). apply rev_involutive.
Qed.

Lemma strip_by_all (f : ascii -> bool) l :
  forallb f l = true -> strip_by f l = [].
Proof.
  intros H. unfold strip_by, rstrip_by, lstrip_by.
  assert (D : dropwhile f l = []).
  { induction l as [|c r IH]; [reflexivity|]. cbn [forallb] in H.
    apply andb_prop in H. destruct H as [Hc Hr].
    cbn [dropwhile]. rewrite Hc. apply IH. exact Hr. }
  rewrite D. reflexivity.
Qed.

Lemma string_of_list_ascii_nil l : string_of_list_ascii l = "" -> l = [].
Proof. destruct l; [reflexivity|discriminate]. Qed.




(* ================================================================== *)
(** * Properties of the slug set on save *)


(** X16.  [slugify] leaves its own results alone: a generated slug is
    the slug of itself. *)
Theorem slugify_idempotent value :
  slugify (slugify value) = slugify value.
Proof.
  destruct (slugify_well_formed value) as (Hs & Hh & Hl & Hn).
  cbv zeta in Hs, Hh, Hl, Hn.
  set (l := list_ascii_of_string (slugify value)) in *.
  assert (E : slugify value = string_of_list_ascii l)
    by (subst l; symmetry; apply string_of_list_ascii_of_string).
  rewrite E at 1. unfold slugify at 1. rewrite (nfkd_to_ascii_ascii l Hs).
  rewrite list_ascii_of_string_of_list_ascii.
  rewrite (map_lower_slug l Hs), (remove_unsafe_slug l Hs).
  rewrite (hyphenate_slug false l Hs Hn) by discriminate.
  unfold strip_chars. rewrite list_ascii_of_string_of_list_ascii.
  change (fun c => existsb (Ascii.eqb c) ["-"%char; "_"%char]) with edge_char.
  rewrite (strip_by_trimmed edge_char l Hh Hl). symmetry. exact E.
Qed.

(** X17.  The slug of a text is empty exactly when no character of the
    text, folded to ASCII, is a letter or a digit. *)
Theorem slugify_empty_iff value :
  slugify value = ""
  <-> forallb (fun c => negb (alnum c))
              (list_ascii_of_string (nfkd_to_ascii value)) = true.
Proof.
  destruct (slugify_chars value) as (before & after & E & Hb & Ha & _ & _).
  split.
  - intros Hempty. rewrite Hempty in E. cbn [list_ascii_of_string app] in E.
    apply forallb_forall. intros c Hc.
    destruct (alnum c) eqn:Hal; [|reflexivity]. exfalso.
    pose proof (alnum_lower c Hal) as Hl.
    destruct (alnum_kept _ Hl) as (Hk & Hsep & Hedge).
    assert (Hin : In (lower_char c) (before ++ after)%list).
    { rewrite <- E. apply hyphenate_keeps; [|exact Hsep].
      unfold remove_unsafe. apply filter_In. split; [|exact Hk].
      apply in_map. exact Hc. }
    assert (Hf : forallb edge_char (before ++ after)%list = true)
      by (rewrite forallb_app, Hb, Ha; reflexivity).
    rewrite forallb_forall in Hf. rewrite (Hf _ Hin) in Hedge. discriminate.
  - intros Hnone. unfold slugify, strip_chars.
    rewrite list_ascii_of_string_of_list_ascii.
    change (fun c => existsb (Ascii.eqb c) ["-"%char; "_"%char]) with edge_char.
    rewrite strip_by_all; [reflexivity|].
    apply forallb_forall. intros c Hc. apply In_hyphenate in Hc.
    destruct Hc as [-> | [Hin Hsep]]; [reflexivity|].
    unfold remove_unsafe in Hin. apply filter_In in Hin.
    destruct Hin as [Hin Hk]. apply in_map_iff in Hin.
    destruct Hin as [c0 [<- Hc0]].
    rewrite forallb_forall in Hnone. specialize (Hnone c0 Hc0).
    apply negb_true_iff in Hnone.
    apply not_alnum_edge; assumption.
Qed.



(* ================================================================== *)
(** * Facts about views that only read *)

Lemma read_only_Ret {A} (a : A) : read_only (Ret a).
Proof. intros l s. split; reflexivity. Qed.

Lemma read_only_Raise {A} e : read_only (@Raise A e).
Proof. intros l s. split; reflexivity. Qed.

Lemma read_only_query {X} (q : Store -> X) : read_only (query q).
Proof. intros l s. split; reflexivity. Qed.

Lemma read_only_lift {A} (r : result A) : read_only (lift r).
Proof. destruct r; [apply read_only_Ret|apply read_only_Raise]. Qed.

Lemma read_only_bind {A B} (p : prog A) (f : A -> prog B) :
  read_only p -> (forall a, read_only (f a)) -> read_only (bind p f).
Proof.
  intros Hp Hf l s. rewrite run_bind. specialize (Hp l s).
  destruct (run p l s) as [[r l'] s']. cbn [fst snd] in Hp.
  destruct Hp as [-> ->]. destruct r as [a|e]; [apply Hf|split; reflexivity].
Qed.

Ltac read_only_step :=
  first
    [ apply read_only_Ret
    | apply read_only_Raise
    | apply read_only_query
    | apply read_only_lift
    | apply read_only_bind; [|intros ?]
    | match goal with
      | |- read_only (if ?b then _ else _) => destruct b
      | |- read_only (match ?x with _ => _ end) => destruct x
      end ].

Lemma read_only_get_primary_image obj : read_only (_get_primary_image obj).
Proof. unfold _get_primary_image. repeat read_only_step. Qed.

Lemma read_only_set_primary_images objs : read_only (set_primary_images objs).
Proof.
  induction objs as [|o r IH]; cbn [set_primary_images].
  - apply read_only_Ret.
  - apply read_only_bind; [apply read_only_get_primary_image|intros img].
    apply read_only_bind; [exact IH|intros rest]. apply read_only_Ret.
Qed.

Lemma read_only_Category_get_by_slug slug : read_only (Category_get_by_slug slug).
Proof. unfold Category_get_by_slug. repeat read_only_step. Qed.

Lemma read_only_Product_get_by_slug slug : read_only (Product_get_by_slug slug).
Proof. unfold Product_get_by_slug. repeat read_only_step. Qed.

Lemma read_only_Product_get_by_id x : read_only (Product_get_by_id x).
Proof. unfold Product_get_by_id. repeat read_only_step. Qed.

Lemma read_only_config_get_primary_image p :
  read_only (config_get_primary_image p).
Proof. unfold config_get_primary_image. repeat read_only_step. Qed.

Ltac read_only_view :=
  repeat first
    [ apply read_only_get_primary_image
    | apply read_only_set_primary_images
    | apply read_only_Category_get_by_slug
    | apply read_only_Product_get_by_slug
    | apply read_only_Product_get_by_id
    | apply read_only_config_get_primary_image
    | read_only_step ].

Lemma read_only_require_GET view request :
  (forall request, read_only (view request)) ->
  read_only (require_GET view request).
Proof.
  intros H. unfold require_GET, require_http_methods.
  destruct (existsb _ _); [apply H|apply read_only_Ret].
Qed.

Lemma read_only_require_GET_page view request :
  (forall request, read_only (view request)) ->
  read_only (require_GET_page view request).
Proof.
  intros H. unfold require_GET_page.
  destruct (existsb _ _); [apply H|apply read_only_Ret].
Qed.

(* ================================================================== *)
(** * Properties across the views *)

(** X19.  The pages never write: whatever the request (method,
    parameters, slug) and whatever the outcome (a page, a JSON body, a
    refusal, an exception), [home], [services], [category_detail],
    [product_detail], [product_quick_info], [branches_by_state] and the
    home page of [config/views.py] leave the database and the notices as
    they were. *)
Theorem page_views_never_write created_at seo_of slug request :
  read_only (home created_at request)
  /\ read_only (services created_at seo_of request)
  /\ read_only (category_detail created_at seo_of slug request)
  /\ read_only (product_detail slug request)
  /\ read_only (product_quick_info request)
  /\ read_only (branches_by_state request)
  /\ read_only (config_home created_at request).
Proof.
  refine (conj _ (conj _ (conj _ (conj _ (conj _ (conj _ _)))))).
  - apply read_only_require_GET_page. intros r. unfold home_body.
    read_only_view.
  - apply read_only_require_GET_page. intros r. unfold services_body.
    read_only_view.
  - apply read_only_require_GET_page. intros r. unfold category_detail_body.
    read_only_view.
  - apply read_only_require_GET. intros r. unfold product_detail_body.
    read_only_view.
  - apply read_only_require_GET. intros r. unfold product_quick_info_body.
    read_only_view.
  - apply read_only_require_GET_page. intros r. unfold branches_by_state_body.
    read_only_view.
  - apply read_only_require_GET_page. intros r. unfold config_home_body.
    read_only_view.
Qed.

(** X20.  Each view answers a request made with another method by the
    refusal that names the method it allows, without reading or writing:
    the pages allow GET, the two forms allow POST. *)
Theorem views_refuse_other_methods created_at seo_of slug request s :
  (method request <> "GET" ->
   run (home created_at request) idle s = (inl (PageNotAllowed ["GET"]), idle, s)
   /\ run (services created_at seo_of request) idle s
      = (inl (PageNotAllowed ["GET"]), idle, s)
   /\ run (category_detail created_at seo_of slug request) idle s
      = (inl (PageNotAllowed ["GET"]), idle, s)
   /\ run (branches_by_state request) idle s
      = (inl (PageNotAllowed ["GET"]), idle, s)
   /\ run (config_home created_at request) idle s
      = (inl (PageNotAllowed ["GET"]), idle, s)
   /\ run (product_detail slug request) idle s
      = (inl (HttpResponseNotAllowed ["GET"]), idle, s)
   /\ run (product_quick_info request) idle s
      = (inl (HttpResponseNotAllowed ["GET"]), idle, s))
  /\ (method request <> "POST" ->
      run (create_order request) idle s
      = (inl (HttpResponseNotAllowed ["POST"]), idle, s)
      /\ run (contact_submit request) idle s
         = (inl (HttpResponseNotAllowed ["POST"]), idle, s)).
Proof.
  split.
  - intros H. apply String.eqb_neq in H.
    unfold home, services, category_detail, branches_by_state, config_home,
      product_detail, product_quick_info, require_GET_page, require_GET,
      require_http_methods.
    cbn [existsb]. rewrite H. cbn [orb]. repeat split; reflexivity.
  - intros H. apply String.eqb_neq in H.
    unfold create_order, contact_submit, require_http_methods.
    cbn [existsb]. rewrite H. cbn [orb]. split; reflexivity.
Qed.

Lemma views_refuse_other_methods_witness :
  run (services sample_created_at sample_seo (order_form jar_uuid "1")) idle depot
  = (inl (PageNotAllowed ["GET"]), idle, depot)
  /\ run (create_order (quick_info_request jar_uuid)) idle depot
     = (inl (HttpResponseNotAllowed ["POST"]), idle, depot).
Proof.
  split.
  - apply (proj1 (views_refuse_other_methods sample_created_at sample_seo ""
                    (order_form jar_uuid "1") depot)).
    discriminate.
  - apply (proj2 (views_refuse_other_methods sample_created_at sample_seo ""
                    (quick_info_request jar_uuid) depot)).
    discriminate.
Defined.



(* ================================================================== *)
(** * Facts about the display columns *)

Lemma occurrences_app c a b :
  occurrences c (a ++ b) = (occurrences c a + occurrences c b)%nat.
Proof.
  induction a as [|x a IH]; [reflexivity|].
  cbn [append occurrences]. rewrite IH. lia.
Qed.

(** What replaces one character has no markup character. *)
Lemma escaped_char_no_markup c :
  let e := if (code c =? 38)%N then "&amp;"
           else if (code c =? 60)%N then "&lt;"
           else if (code c =? 62)%N then "&gt;"
           else if (code c =? 34)%N then "&quot;"
           else if (code c =? 39)%N then "&#x27;"
           else String c "" in
  occurrences "<" e = 0%nat /\ occurrences ">" e = 0%nat
  /\ occurrences (ascii_of_N 34) e = 0%nat /\ occurrences "'" e = 0%nat.
Proof. by_chars c. Qed.

Lemma html_escape_no_markup s :
  occurrences "<" (html_escape s) = 0%nat
  /\ occurrences ">" (html_escape s) = 0%nat
  /\ occurrences (ascii_of_N 34) (html_escape s) = 0%nat
  /\ occurrences "'" (html_escape s) = 0%nat.
Proof.
  induction s as [|c r (H1 & H2 & H3 & H4)]; [repeat split; reflexivity|].
  cbn [html_escape]. rewrite !occurrences_app, H1, H2, H3, H4.
  destruct (escaped_char_no_markup c) as (E1 & E2 & E3 & E4).
  cbv zeta in E1, E2, E3, E4. rewrite E1, E2, E3, E4.
  repeat split; reflexivity.
Qed.

Lemma length_append a b :
  String.length (a ++ b) = (String.length a + String.length b)%nat.
Proof.
  induction a as [|x a IH]; [reflexivity|].
  cbn [append String.length]. rewrite IH. reflexivity.
Qed.

Lemma append_assoc (a b c : string) : (a ++ b) ++ c = a ++ (b ++ c).
Proof.
  induction a as [|x a IH]; [reflexivity|].
  cbn [append]. rewrite IH. reflexivity.
Qed.

Lemma append_empty_r (a : string) : a ++ "" = a.
Proof.
  induction a as [|x a IH]; [reflexivity|].
  cbn [append]. rewrite IH. reflexivity.
Qed.

Lemma length_hex_fixed w n : String.length (hex_fixed w n) = w.
Proof.
  revert n. induction w as [|w IH]; intros n; [reflexivity|].
  cbn [hex_fixed]. rewrite length_append, IH. cbn. lia.
Qed.

(** The digits of a number begin with the digits of its upper part. *)
Lemma hex_fixed_upper b a n :
  exists t,
    String.length t = b
    /\ hex_fixed (b + a) n = hex_fixed a (n / 16 ^ N.of_nat b)%N ++ t.
Proof.
  revert n. induction b as [|b IH]; intros n.
  - exists "". split; [reflexivity|]. cbn [Nat.add N.of_nat].
    rewrite N.pow_0_r, N.div_1_r, append_empty_r. reflexivity.
  - destruct (IH (n / 16)%N) as (t & Ht & E).
    exists (t ++ String (hex_char (n mod 16)%N) ""). split.
    + rewrite length_append, Ht. cbn. lia.
    + cbn [Nat.add hex_fixed]. rewrite E.
      rewrite Nat2N.inj_succ, N.pow_succ_r', N.Div0.div_div.
      rewrite append_assoc. reflexivity.
Qed.

Lemma hex_char_not_hyphen d : (d < 16)%N -> Ascii.eqb (hex_char d) "-" = false.
Proof.
  intros Hd. apply Ascii.eqb_neq. intros E.
  apply (f_equal N_of_ascii) in E. unfold hex_char in E.
  change (N_of_ascii "-") with 45%N in E.
  destruct (d <? 10)%N; rewrite N_ascii_embedding in E by lia; lia.
Qed.

Lemma split_on_prefix sep x r :
  (forall c, In c (list_ascii_of_string x) -> Ascii.eqb c sep = false) ->
  hd "" (split_on sep (x ++ String sep r)) = x.
Proof.
  induction x as [|c x IH]; intros H.
  - cbn [append split_on]. rewrite Ascii.eqb_refl. reflexivity.
  - cbn [append split_on]. rewrite (H c (or_introl eq_refl)).
    assert (IH' := IH (fun d Hd => H d (or_intror Hd))).
    destruct (split_on sep (x ++ String sep r)) as [|h t]; cbn [hd] in *.
    + subst x. reflexivity.
    + subst h. reflexivity.
Qed.

Lemma hex_fixed_no_hyphen w n c :
  In c (list_ascii_of_string (hex_fixed w n)) -> Ascii.eqb c "-" = false.
Proof.
  revert n. induction w as [|w IH]; intros n; cbn [hex_fixed].
  - intros [].
  - intros H.
    assert (Hl : forall a b, list_ascii_of_string (a ++ b)
                             = (list_ascii_of_string a ++ list_ascii_of_string b)%list).
    { induction a as [|y a IHa]; intros b; [reflexivity|].
      cbn [append list_ascii_of_string app]. rewrite IHa. reflexivity. }
    rewrite Hl in H. apply in_app_or in H. destruct H as [H|[<-|[]]].
    + exact (IH _ H).
    + apply hex_char_not_hyphen. apply N.mod_lt. lia.
Qed.

Lemma substring_prefix x t :
  substring 0 (String.length x) (x ++ t) = x.
Proof.
  induction x as [|c x IH]; cbn [String.length append substring].
  - destruct t; reflexivity.
  - rewrite IH. reflexivity.
Qed.

(* ================================================================== *)
(** * Properties of the display columns of the order list *)

(** X22.  Whatever text the status column holds, [status_badge] is one
    [span] element: the label is escaped, so the result has the two
    opening angle brackets, the two closing ones and the two double quotes
    of the element markup and no others, and no single quote. *)
Theorem status_badge_is_one_element status :
  exists color out,
    status_badge status = Some out
    /\ out = "<span style=" ++ dquote
             ++ "padding:4px 10px;color:#fff;background:" ++ color
             ++ ";border-radius:14px;font-weight:600;" ++ dquote ++ ">"
             ++ html_escape (get_status_display status) ++ "</span>"
    /\ occurrences "<" out = 2%nat
    /\ occurrences ">" out = 2%nat
    /\ occurrences (ascii_of_N 34) out = 2%nat
    /\ occurrences "'" out = 0%nat.
Proof.
  exists (html_escape (dict_get color_map status "#6c757d")). eexists.
  split; [|split; [reflexivity|]].
  - unfold status_badge, format_html. cbn [map].
    generalize (html_escape (dict_get color_map status "#6c757d")) as a.
    generalize (html_escape (get_status_display status)) as b.
    intros b a. reflexivity.
  - destruct (html_escape_no_markup (dict_get color_map status "#6c757d"))
      as (A1 & A2 & A3 & A4).
    destruct (html_escape_no_markup (get_status_display status))
      as (B1 & B2 & B3 & B4).
    rewrite !occurrences_app, A1, A2, A3, A4, B1, B2, B3, B4.
    repeat split; reflexivity.
Qed.

(** X23.  [short_id] is the first group of the printed identifier: the
    eight hexadecimal digits of the upper 32 bits of the identifier. *)
Theorem short_id_is_upper_32_bits (id : Z) :
  short_id id = hex_fixed 8 (Z.to_N id / 2 ^ 96)%N
  /\ String.length (short_id id) = 8%nat.
Proof.
  assert (E : short_id id = hex_fixed 8 (Z.to_N id / 2 ^ 96)%N).
  { unfold short_id, UUID_str. cbv zeta.
    destruct (hex_fixed_upper 24 8 (Z.to_N id)) as (t & Ht & E).
    change (24 + 8)%nat with 32%nat in E.
    change (16 ^ N.of_nat 24)%N with (2 ^ 96)%N in E.
    rewrite E.
    pose proof (length_hex_fixed 8 (Z.to_N id / 2 ^ 96)%N) as Hl.
    rewrite <- Hl at 1. rewrite substring_prefix.
    apply split_on_prefix. apply hex_fixed_no_hyphen. }
  split; [exact E|]. rewrite E. apply length_hex_fixed.
Qed.

(* ================================================================== *)
(** * Facts about two contact submissions under a schedule *)

Lemma contact_submit_complete request :
  complete request ->
  contact_submit request = code_of (contact_stage (contact_row request) 0).
Proof.
  intros (Hm & H1 & H2 & H3 & H4).
  unfold contact_submit, require_http_methods. rewrite Hm.
  cbn [existsb String.eqb Ascii.eqb Bool.eqb orb].
  unfold contact_submit_body, ContactMessage_objects_create.
  change (redirect_reverse "contact")
    with (@Ret HttpResponse (HttpResponseRedirect "/contact/")).
  fold (submitted request "name"). fold (submitted request "email").
  fold (submitted request "subject"). fold (submitted request "message").
  rewrite <- truthy_true_iff in H1, H2, H3, H4.
  rewrite H1, H2, H3, H4. reflexivity.
Qed.

Lemma with_messages_nil s : with_messages s [] = s.
Proof. destruct s. unfold with_messages. cbn. rewrite app_nil_r. reflexivity. Qed.

Lemma insert_with_messages m s l :
  apply_write (InsertContactMessage m) (with_messages s l)
  = with_messages s (l ++ [m]).
Proof. unfold with_messages. cbn. rewrite app_assoc. reflexivity. Qed.

Lemma contact_stage_step m i db :
  step_thread (contact_stage m i) db
  = (contact_stage m (Nat.min (S i) 2),
     if Nat.eqb i 0 then apply_write (InsertContactMessage m) db else db).
Proof. destruct i as [|[|i]]; reflexivity. Qed.

Lemma interleave_stored m1 m2 s schedule :
  forall i j l,
    stored_so_far m1 m2 i j l ->
    exists i' j' l',
      stored_so_far m1 m2 i' j' l'
      /\ interleave schedule (contact_stage m1 i) (contact_stage m2 j)
                    (with_messages s l)
         = (contact_stage m1 i', contact_stage m2 j', with_messages s l').
Proof.
  induction schedule as [|pick rest IH]; intros i j l H.
  - exists i, j, l. split; [exact H|reflexivity].
  - cbn [interleave]. destruct pick.
    + rewrite contact_stage_step. destruct i as [|i].
      * cbn [Nat.eqb]. rewrite insert_with_messages. apply IH.
        destruct j as [|j]; cbn [stored_so_far Nat.min] in *; subst l;
          cbn [app]; auto.
      * cbn [Nat.eqb]. apply IH.
        destruct i, j; cbn [stored_so_far Nat.min] in *; exact H.
    + rewrite contact_stage_step. destruct j as [|j].
      * cbn [Nat.eqb]. rewrite insert_with_messages. apply IH.
        destruct i as [|i]; cbn [stored_so_far Nat.min] in *; subst l;
          cbn [app]; auto.
      * cbn [Nat.eqb]. apply IH.
        destruct i, j; cbn [stored_so_far Nat.min] in *; exact H.
Qed.

Lemma finish_stored m1 m2 s i j l :
  stored_so_far m1 m2 i j l ->
  exists l',
    (l' = [m1; m2] \/ l' = [m2; m1])
    /\ finish (contact_stage m1 i) (contact_stage m2 j) (with_messages s l)
       = (thanked, thanked, with_messages s l').
Proof.
  intros H. unfold finish.
  destruct i as [|[|i]]; destruct j as [|[|j]];
    cbn [stored_so_far] in H;
    cbn [contact_stage code_of local_of run pending idle flash app];
    rewrite ?insert_with_messages;
    try (subst l; cbn [app]; eexists; split; [|reflexivity]; auto; fail);
    (exists l; split; [exact H|reflexivity]).
Qed.
(* ================================================================== *)
(** * Properties of concurrent contact submissions *)


(** X24.  No contact message is lost or doubled by a concurrent one: when
    two complete contact submissions run together, under every schedule of
    their database operations both rows are stored, each once, in one
    order or the other, and both senders are thanked. *)
Theorem both_messages_stored (schedule : list bool) request1 request2 s :
  complete request1 ->
  complete request2 ->
  exists l,
    (l = [contact_row request1; contact_row request2]
     \/ l = [contact_row request2; contact_row request1])
    /\ run_both schedule (contact_submit request1) (contact_submit request2) s
       = (thanked, thanked, with_messages s l).
Proof.
  intros H1 H2. unfold run_both.
  rewrite (contact_submit_complete request1 H1),
          (contact_submit_complete request2 H2).
  destruct (interleave_stored (contact_row request1) (contact_row request2) s
              schedule 0 0 [] eq_refl) as (i & j & l & H & E).
  rewrite with_messages_nil in E.
  change (mkThread (code_of (contact_stage (contact_row request1) 0)) idle)
    with (contact_stage (contact_row request1) 0).
  change (mkThread (code_of (contact_stage (contact_row request2) 0)) idle)
    with (contact_stage (contact_row request2) 0).
  rewrite E.
  destruct (finish_stored _ _ s i j l H) as (l' & Hl' & F).
  exists l'. split; [exact Hl'|exact F].
Qed.

Lemma both_messages_stored_witness :
  exists l,
    (l = [contact_row asha_message; contact_row ravi_message]
     \/ l = [contact_row ravi_message; contact_row asha_message])
    /\ run_both [false; true; true; false]
                (contact_submit asha_message) (contact_submit ravi_message) depot
       = (thanked, thanked, with_messages depot l).
Proof.
  apply (both_messages_stored [false; true; true; false]
           asha_message ravi_message depot);
    (split; [reflexivity|]); repeat split; vm_compute; discriminate.
Defined.
